(** * Spanish 21 simulator: a shallow embedding of [Spanish21.py]

    The development follows the source file top to bottom: cards, the
    shoe, hands, the side-bet evaluator, the basic-strategy policy, the
    two drawing loops and the round engine.  Python integers are [Z],
    counts produced by [sum(1 for ...)] and [len] are [nat], and the
    mutable simulator object is threaded explicitly through a small
    state-and-exception monad. *)

From Stdlib Require Import ZArith QArith List Bool Lia Permutation.
Import ListNotations.
Local Open Scope Z_scope.

(** ** Cards *)

(** [class Suit(Enum)] *)
Inductive Suit : Type := HEARTS | DIAMONDS | CLUBS | SPADES.

(** The rank strings that [Shoe.reshuffle] puts on cards:
    ['A','2',...,'9','J','Q','K'] (there is no ten). *)
Inductive Rank : Type :=
  | RA | R2 | R3 | R4 | R5 | R6 | R7 | R8 | R9 | RJ | RQ | RK.

Definition Suit_eqb (a b : Suit) : bool :=
  match a, b with
  | HEARTS, HEARTS | DIAMONDS, DIAMONDS | CLUBS, CLUBS | SPADES, SPADES => true
  | _, _ => false
  end.

Definition Rank_eqb (a b : Rank) : bool :=
  match a, b with
  | RA, RA | R2, R2 | R3, R3 | R4, R4 | R5, R5 | R6, R6
  | R7, R7 | R8, R8 | R9, R9 | RJ, RJ | RQ, RQ | RK, RK => true
  | _, _ => false
  end.

Record Card : Type := mkCard { rank : Rank; suit : Suit }.

(** [Card.value]: face cards 10, ace 11, otherwise [int(self.rank)]. *)
Definition card_value (c : Card) : Z :=
  match rank c with
  | RJ | RQ | RK => 10
  | RA => 11
  | R2 => 2 | R3 => 3 | R4 => 4 | R5 => 5
  | R6 => 6 | R7 => 7 | R8 => 8 | R9 => 9
  end.

(** [Card.__eq__] *)
Definition Card_eqb (a b : Card) : bool :=
  Rank_eqb (rank a) (rank b) && Suit_eqb (suit a) (suit b).

Definition is_ace (c : Card) : bool := Rank_eqb (rank c) RA.

(** ** Numbers that are not counters

    Bets and payouts arrive from [float(input(...))] and are combined
    with integer and float literals.  The round engine only adds them,
    scales them by a literal and tests them against zero, so it is
    embedded over any carrier offering these operations. *)
Class Money (M : Type) : Type := {
  mzero : M;                    (* the literal 0 *)
  madd : M -> M -> M;           (* x + y *)
  mscale : M -> Q -> M;         (* x * literal *)
  mpositive : M -> bool         (* x > 0 *)
}.

(** [random.shuffle]: consumes generator state and permutes the list. *)
Class Shuffler (G : Type) : Type := {
  shuffle : G -> list Card -> list Card * G;
  shuffle_perm : forall g l, Permutation l (fst (shuffle g l))
}.

(** ** Hands *)

Section Hands.
Context {M : Type}.

Record Hand : Type := mkHand {
  cards : list Card;
  bet : M;
  surrendered : bool;
  is_blackjack : bool
}.

(** [Hand.add_card] *)
Definition add_card (h : Hand) (c : Card) : Hand :=
  mkHand (cards h ++ [c]) (bet h) (surrendered h) (is_blackjack h).

(** [sum(card.value() for card in self.cards)] *)
Definition points (cs : list Card) : Z :=
  fold_left Z.add (map card_value cs) 0.

(** [sum(1 for card in self.cards if card.rank == 'A')] *)
Definition count_aces (cs : list Card) : nat :=
  length (filter is_ace cs).

(** The loop
    [while total > 21 and aces > 0: total -= 10; aces -= 1]
    returning the final [(total, aces)]. *)
Fixpoint reduce_aces (total : Z) (aces : nat) : Z * nat :=
  match aces with
  | O => (total, O)
  | S aces' =>
      if total >? 21 then reduce_aces (total - 10) aces' else (total, aces)
  end.

(** [Hand.value] *)
Definition value (h : Hand) : Z :=
  fst (reduce_aces (points (cards h)) (count_aces (cards h))).

(** [Hand.is_hard] *)
Definition is_hard (h : Hand) : bool :=
  let total := points (cards h) in
  let aces := count_aces (cards h) in
  if Nat.eqb aces 0 then true
  else Nat.eqb (snd (reduce_aces total aces)) 0.

(** [Hand.is_soft] *)
Definition is_soft (h : Hand) : bool :=
  negb (is_hard h) && existsb (fun c => Rank_eqb (rank c) RA) (cards h).

(** [Hand.is_bust], [Hand.is_21], [Hand.card_count] *)
Definition is_bust (h : Hand) : bool := value h >? 21.
Definition is_21 (h : Hand) : bool := value h =? 21.
Definition card_count (h : Hand) : nat := length (cards h).

(** The total with every ace counted as 1. *)
Definition hard_total (h : Hand) : Z :=
  points (cards h) - 10 * Z.of_nat (count_aces (cards h)).

End Hands.

Arguments Hand M : clear implicits.

(** ** The shoe *)

Record Shoe : Type := mkShoe { num_decks : Z; shoe_cards : list Card }.

Definition ranks : list Rank :=
  [RA; R2; R3; R4; R5; R6; R7; R8; R9; RJ; RQ; RK].

Definition suits : list Suit := [HEARTS; DIAMONDS; CLUBS; SPADES].

(** One pass of [for suit in Suit: for rank in ranks: append(Card(rank, suit))]. *)
Definition one_deck : list Card :=
  flat_map (fun s => map (fun r => mkCard r s) ranks) suits.

(** The list built by [reshuffle] before shuffling;
    [range(self.num_decks)] is empty for a non-positive count. *)
Definition fresh_cards (n : Z) : list Card :=
  concat (repeat one_deck (Z.to_nat n)).

(** [list.pop()]: the last element and the rest, [None] standing for the
    [IndexError] raised on an empty list. *)
Definition pop {A : Type} (l : list A) : option (A * list A) :=
  match rev l with
  | [] => None
  | x :: r => Some (x, rev r)
  end.

(** [Shoe.cards_remaining] *)
Definition cards_remaining (sh : Shoe) : nat := length (shoe_cards sh).

(** ** Side-bet bookkeeping *)

(** [class MatchResult] *)
Record MatchResult : Type := mkMatchResult {
  one_nonsuited : Z;
  two_nonsuited : Z;
  one_suited : Z;
  one_suited_one_nonsuited : Z;
  two_suited : Z
}.

(** [MatchResult()] *)
Definition new_match_result : MatchResult := mkMatchResult 0 0 0 0 0.

(** The dictionary [{'suited': _, 'nonsuited': _}]. *)
Record Matches : Type := mkMatches { suited : Z; nonsuited : Z }.

(** [evaluate_match] *)
Definition evaluate_match (player_cards : list Card) (dealer_card : Card)
  : Matches :=
  fold_left
    (fun matches card =>
       if Rank_eqb (rank card) (rank dealer_card) then
         if Suit_eqb (suit card) (suit dealer_card)
         then mkMatches (suited matches + 1) (nonsuited matches)
         else mkMatches (suited matches) (nonsuited matches + 1)
       else matches)
    player_cards (mkMatches 0 0).

(** [calculate_match_payout] *)
Definition calculate_match_payout (matches : Matches) : Z :=
  let suited := suited matches in
  let nonsuited := nonsuited matches in
  if suited =? 2 then 24
  else if (suited =? 1) && (nonsuited =? 1) then 15
  else if suited =? 1 then 12
  else if nonsuited =? 2 then 6
  else if nonsuited =? 1 then 3
  else 0.

(** [update_match_stats] *)
Definition update_match_stats (matches : Matches) (match_result : MatchResult)
  : MatchResult :=
  let suited := suited matches in
  let nonsuited := nonsuited matches in
  let r := match_result in
  if suited =? 2 then
    mkMatchResult (one_nonsuited r) (two_nonsuited r) (one_suited r)
      (one_suited_one_nonsuited r) (two_suited r + 1)
  else if (suited =? 1) && (nonsuited =? 1) then
    mkMatchResult (one_nonsuited r) (two_nonsuited r) (one_suited r)
      (one_suited_one_nonsuited r + 1) (two_suited r)
  else if suited =? 1 then
    mkMatchResult (one_nonsuited r) (two_nonsuited r) (one_suited r + 1)
      (one_suited_one_nonsuited r) (two_suited r)
  else if nonsuited =? 2 then
    mkMatchResult (one_nonsuited r) (two_nonsuited r + 1) (one_suited r)
      (one_suited_one_nonsuited r) (two_suited r)
  else if nonsuited =? 1 then
    mkMatchResult (one_nonsuited r + 1) (two_nonsuited r) (one_suited r)
      (one_suited_one_nonsuited r) (two_suited r)
  else r.

(** ** Basic strategy *)

(** The strings returned by [should_hit]. *)
Inductive Action : Type := Hit | Stand | Surrender.

Section Strategy.
Context {M : Type}.

(** [should_hit]; the three nested [if]s guarding ['surrender'] are one
    conjunction here, in the order the source tests them. *)
Definition should_hit (player_hand : Hand M) (dealer_upcard : Card)
    (auto_surrender has_top_match : bool) : Action :=
  let player_value := value player_hand in
  let dealer_value := card_value dealer_upcard in
  let soft := is_soft player_hand in
  if auto_surrender && Nat.eqb (length (cards player_hand)) 2 && has_top_match
     && is_hard player_hand
     && ((13 <=? player_value) && (player_value <=? 16))
     && existsb (Rank_eqb (rank dealer_upcard)) [R7; R8; R9; RJ; RQ; RK; RA]
  then Surrender
  else if soft then
    if player_value <=? 17 then Hit
    else if player_value =? 18 then
      if dealer_value >=? 9 then Hit else Stand
    else Stand
  else if player_value <=? 11 then Hit
  else if player_value =? 12 then
    if existsb (Z.eqb dealer_value) [4; 5; 6] then Stand else Hit
  else if (13 <=? player_value) && (player_value <=? 16) then
    if dealer_value <=? 6 then Stand else Hit
  else Stand.

(** The guard of the [while] in [play_dealer_hand]. *)
Definition dealer_draws (dealer_hand : Hand M) : bool :=
  (value dealer_hand <? 17)
  || ((value dealer_hand =? 17) && is_soft dealer_hand).

End Strategy.

(** [x += 1] on a counter. *)
Definition incr (n : Z) : Z := n + 1.

(** ** The simulator state and its monad *)

(** How a call ends: it returns, it raises [IndexError], or the model's
    iteration budget for a [while] loop is used up. *)
Inductive Outcome (A : Type) : Type :=
  | Ret (a : A)
  | IndexError
  | OutOfFuel.
Arguments Ret {A} a.
Arguments IndexError {A}.
Arguments OutOfFuel {A}.

Section Simulator.
Context {M : Type} {MM : Money M} {G : Type} {GS : Shuffler G}.

Record Stats : Type := mkStats {
  hands_played : Z;
  hands_won : Z;
  hands_lost : Z;
  hands_pushed : Z;
  hands_surrendered : Z;
  top_matches : MatchResult;
  bottom_matches : MatchResult;
  top_bets_hit : Z;
  bottom_bets_hit : Z;
  total_top_bet_payout : M;
  total_bottom_bet_payout : M;
  total_top_bet_wagered : M;
  total_bottom_bet_wagered : M;
  total_regular_wagered : M;
  total_regular_payout : M
}.

(** [self.stats[key] = f(self.stats[key])], one updater per key. *)
Definition upd_hands_played (f : Z -> Z) (s : Stats) : Stats :=
    mkStats (f (hands_played s)) (hands_won s) (hands_lost s) (hands_pushed
    s) (hands_surrendered s) (top_matches s) (bottom_matches s)
    (top_bets_hit s) (bottom_bets_hit s) (total_top_bet_payout s)
    (total_bottom_bet_payout s) (total_top_bet_wagered s)
    (total_bottom_bet_wagered s) (total_regular_wagered s)
    (total_regular_payout s).
Definition upd_hands_won (f : Z -> Z) (s : Stats) : Stats :=
    mkStats (hands_played s) (f (hands_won s)) (hands_lost s) (hands_pushed
    s) (hands_surrendered s) (top_matches s) (bottom_matches s)
    (top_bets_hit s) (bottom_bets_hit s) (total_top_bet_payout s)
    (total_bottom_bet_payout s) (total_top_bet_wagered s)
    (total_bottom_bet_wagered s) (total_regular_wagered s)
    (total_regular_payout s).
Definition upd_hands_lost (f : Z -> Z) (s : Stats) : Stats :=
    mkStats (hands_played s) (hands_won s) (f (hands_lost s)) (hands_pushed
    s) (hands_surrendered s) (top_matches s) (bottom_matches s)
    (top_bets_hit s) (bottom_bets_hit s) (total_top_bet_payout s)
    (total_bottom_bet_payout s) (total_top_bet_wagered s)
    (total_bottom_bet_wagered s) (total_regular_wagered s)
    (total_regular_payout s).
Definition upd_hands_pushed (f : Z -> Z) (s : Stats) : Stats :=
    mkStats (hands_played s) (hands_won s) (hands_lost s) (f (hands_pushed
    s)) (hands_surrendered s) (top_matches s) (bottom_matches s)
    (top_bets_hit s) (bottom_bets_hit s) (total_top_bet_payout s)
    (total_bottom_bet_payout s) (total_top_bet_wagered s)
    (total_bottom_bet_wagered s) (total_regular_wagered s)
    (total_regular_payout s).
Definition upd_hands_surrendered (f : Z -> Z) (s : Stats) : Stats :=
    mkStats (hands_played s) (hands_won s) (hands_lost s) (hands_pushed s)
    (f (hands_surrendered s)) (top_matches s) (bottom_matches s)
    (top_bets_hit s) (bottom_bets_hit s) (total_top_bet_payout s)
    (total_bottom_bet_payout s) (total_top_bet_wagered s)
    (total_bottom_bet_wagered s) (total_regular_wagered s)
    (total_regular_payout s).
Definition upd_top_matches (f : MatchResult -> MatchResult) (s : Stats) : Stats :=
    mkStats (hands_played s) (hands_won s) (hands_lost s) (hands_pushed s)
    (hands_surrendered s) (f (top_matches s)) (bottom_matches s)
    (top_bets_hit s) (bottom_bets_hit s) (total_top_bet_payout s)
    (total_bottom_bet_payout s) (total_top_bet_wagered s)
    (total_bottom_bet_wagered s) (total_regular_wagered s)
    (total_regular_payout s).
Definition upd_bottom_matches (f : MatchResult -> MatchResult) (s : Stats) : Stats :=
    mkStats (hands_played s) (hands_won s) (hands_lost s) (hands_pushed s)
    (hands_surrendered s) (top_matches s) (f (bottom_matches s))
    (top_bets_hit s) (bottom_bets_hit s) (total_top_bet_payout s)
    (total_bottom_bet_payout s) (total_top_bet_wagered s)
    (total_bottom_bet_wagered s) (total_regular_wagered s)
    (total_regular_payout s).
Definition upd_top_bets_hit (f : Z -> Z) (s : Stats) : Stats :=
    mkStats (hands_played s) (hands_won s) (hands_lost s) (hands_pushed s)
    (hands_surrendered s) (top_matches s) (bottom_matches s) (f
    (top_bets_hit s)) (bottom_bets_hit s) (total_top_bet_payout s)
    (total_bottom_bet_payout s) (total_top_bet_wagered s)
    (total_bottom_bet_wagered s) (total_regular_wagered s)
    (total_regular_payout s).
Definition upd_bottom_bets_hit (f : Z -> Z) (s : Stats) : Stats :=
    mkStats (hands_played s) (hands_won s) (hands_lost s) (hands_pushed s)
    (hands_surrendered s) (top_matches s) (bottom_matches s) (top_bets_hit
    s) (f (bottom_bets_hit s)) (total_top_bet_payout s)
    (total_bottom_bet_payout s) (total_top_bet_wagered s)
    (total_bottom_bet_wagered s) (total_regular_wagered s)
    (total_regular_payout s).
Definition upd_total_top_bet_payout (f : M -> M) (s : Stats) : Stats :=
    mkStats (hands_played s) (hands_won s) (hands_lost s) (hands_pushed s)
    (hands_surrendered s) (top_matches s) (bottom_matches s) (top_bets_hit
    s) (bottom_bets_hit s) (f (total_top_bet_payout s))
    (total_bottom_bet_payout s) (total_top_bet_wagered s)
    (total_bottom_bet_wagered s) (total_regular_wagered s)
    (total_regular_payout s).
Definition upd_total_bottom_bet_payout (f : M -> M) (s : Stats) : Stats :=
    mkStats (hands_played s) (hands_won s) (hands_lost s) (hands_pushed s)
    (hands_surrendered s) (top_matches s) (bottom_matches s) (top_bets_hit
    s) (bottom_bets_hit s) (total_top_bet_payout s) (f
    (total_bottom_bet_payout s)) (total_top_bet_wagered s)
    (total_bottom_bet_wagered s) (total_regular_wagered s)
    (total_regular_payout s).
Definition upd_total_top_bet_wagered (f : M -> M) (s : Stats) : Stats :=
    mkStats (hands_played s) (hands_won s) (hands_lost s) (hands_pushed s)
    (hands_surrendered s) (top_matches s) (bottom_matches s) (top_bets_hit
    s) (bottom_bets_hit s) (total_top_bet_payout s) (total_bottom_bet_payout
    s) (f (total_top_bet_wagered s)) (total_bottom_bet_wagered s)
    (total_regular_wagered s) (total_regular_payout s).
Definition upd_total_bottom_bet_wagered (f : M -> M) (s : Stats) : Stats :=
    mkStats (hands_played s) (hands_won s) (hands_lost s) (hands_pushed s)
    (hands_surrendered s) (top_matches s) (bottom_matches s) (top_bets_hit
    s) (bottom_bets_hit s) (total_top_bet_payout s) (total_bottom_bet_payout
    s) (total_top_bet_wagered s) (f (total_bottom_bet_wagered s))
    (total_regular_wagered s) (total_regular_payout s).
Definition upd_total_regular_wagered (f : M -> M) (s : Stats) : Stats :=
    mkStats (hands_played s) (hands_won s) (hands_lost s) (hands_pushed s)
    (hands_surrendered s) (top_matches s) (bottom_matches s) (top_bets_hit
    s) (bottom_bets_hit s) (total_top_bet_payout s) (total_bottom_bet_payout
    s) (total_top_bet_wagered s) (total_bottom_bet_wagered s) (f
    (total_regular_wagered s)) (total_regular_payout s).
Definition upd_total_regular_payout (f : M -> M) (s : Stats) : Stats :=
    mkStats (hands_played s) (hands_won s) (hands_lost s) (hands_pushed s)
    (hands_surrendered s) (top_matches s) (bottom_matches s) (top_bets_hit
    s) (bottom_bets_hit s) (total_top_bet_payout s) (total_bottom_bet_payout
    s) (total_top_bet_wagered s) (total_bottom_bet_wagered s)
    (total_regular_wagered s) (f (total_regular_payout s)).

(** The dictionary built by [Spanish21Simulator.__init__]. *)
Definition initial_stats : Stats :=
  mkStats 0 0 0 0 0 new_match_result new_match_result 0 0
    mzero mzero mzero mzero mzero mzero.

(** [Spanish21Simulator] together with the state of the [random] module. *)
Record World : Type := mkWorld {
  shoe : Shoe;
  stats : Stats;
  rng : G
}.

Definition Run (A : Type) : Type := World -> Outcome (A * World).

Definition ret {A : Type} (a : A) : Run A := fun w => Ret (a, w).

Definition bind {A B : Type} (m : Run A) (k : A -> Run B) : Run B :=
  fun w =>
    match m w with
    | Ret (a, w') => k a w'
    | IndexError => IndexError
    | OutOfFuel => OutOfFuel
    end.

Definition raise_index {A : Type} : Run A := fun _ => IndexError.
Definition out_of_fuel {A : Type} : Run A := fun _ => OutOfFuel.

Definition modify_stats (f : Stats -> Stats) : Run unit :=
  fun w => Ret (tt, mkWorld (shoe w) (f (stats w)) (rng w)).

(** [l[i]] for a non-negative index. *)
Definition index {A : Type} (l : list A) (i : nat) : Run A :=
  match nth_error l i with
  | Some x => ret x
  | None => raise_index
  end.

Notation "x <- m ;; k" := (bind m (fun x => k))
  (at level 61, m at next level, right associativity).
Notation "m ;;; k" := (bind m (fun _ => k))
  (at level 61, right associativity).

(** [Shoe.reshuffle] *)
Definition reshuffle (sh : Shoe) (g : G) : Shoe * G :=
  let (cs, g') := shuffle g (fresh_cards (num_decks sh)) in
  (mkShoe (num_decks sh) cs, g').

(** [Shoe.deal] on the simulator's shoe. *)
Definition deal : Run Card :=
  fun w =>
    let (sh, g) :=
      if (length (shoe_cards (shoe w)) <=? 50)%nat
      then reshuffle (shoe w) (rng w)
      else (shoe w, rng w) in
    match pop (shoe_cards sh) with
    | Some (c, rest) => Ret (c, mkWorld (mkShoe (num_decks sh) rest) (stats w) g)
    | None => IndexError
    end.

(** [Spanish21Simulator()]: [Shoe(8)] reshuffles an empty shoe. *)
Definition new_simulator (g : G) : World :=
  let (sh, g') := reshuffle (mkShoe 8 []) g in
  mkWorld sh initial_stats g'.

(** [Hand()] *)
Definition new_hand : Hand M := mkHand [] mzero false false.

Definition set_bet (b : M) (h : Hand M) : Hand M :=
  mkHand (cards h) b (surrendered h) (is_blackjack h).
Definition set_surrendered (b : bool) (h : Hand M) : Hand M :=
  mkHand (cards h) (bet h) b (is_blackjack h).
Definition set_is_blackjack (b : bool) (h : Hand M) : Hand M :=
  mkHand (cards h) (bet h) (surrendered h) b.

(** ** The two drawing loops *)

(** [play_hand]; [fuel] bounds the iterations of [while True]. *)
Fixpoint play_hand (fuel : nat) (hand : Hand M) (dealer_upcard : Card)
    (auto_surrender has_top_match : bool) : Run (Hand M) :=
  match fuel with
  | O => out_of_fuel
  | S fuel' =>
      match should_hit hand dealer_upcard auto_surrender has_top_match with
      | Surrender => ret (set_surrendered true hand)
      | Stand => ret hand
      | Hit =>
          c <- deal ;;
          let hand' := add_card hand c in
          if is_bust hand' then ret hand'
          else play_hand fuel' hand' dealer_upcard auto_surrender has_top_match
      end
  end.

(** [play_dealer_hand] *)
Fixpoint play_dealer_hand (fuel : nat) (dealer_hand : Hand M)
  : Run (Hand M) :=
  if dealer_draws dealer_hand then
    match fuel with
    | O => out_of_fuel
    | S fuel' =>
        c <- deal ;;
        play_dealer_hand fuel' (add_card dealer_hand c)
    end
  else ret dealer_hand.

(** ** Settling a hand *)

(** [determine_winner], passing [self.stats] explicitly. *)
Definition determine_winner (player_hand dealer_hand : Hand M) (st : Stats)
  : Q * Stats :=
  if surrendered player_hand then
    (0.5%Q, upd_hands_surrendered incr st)
  else if is_bust player_hand then
    (0%Q, upd_hands_lost incr st)
  else
    let player_value := value player_hand in
    if Nat.eqb (length (cards player_hand)) 2 && (player_value =? 21) then
      (2.5%Q, upd_hands_won incr st)
    else if (player_value =? 21) && Nat.eqb (length (cards player_hand)) 5 then
      (2.5%Q, upd_hands_won incr st)
    else if (player_value =? 21) && Nat.eqb (length (cards player_hand)) 6 then
      (3%Q, upd_hands_won incr st)
    else if player_value =? 21 then
      (2%Q, upd_hands_won incr st)
    else if is_bust dealer_hand then
      (2%Q, upd_hands_won incr st)
    else
      let dealer_value := value dealer_hand in
      if player_value >? dealer_value then
        (2%Q, upd_hands_won incr st)
      else if player_value =? dealer_value then
        (1%Q, upd_hands_pushed incr st)
      else
        (0%Q, upd_hands_lost incr st).

Definition run_determine_winner (player_hand dealer_hand : Hand M) : Run Q :=
  fun w =>
    let (multiplier, st) := determine_winner player_hand dealer_hand (stats w) in
    Ret (multiplier, mkWorld (shoe w) st (rng w)).

(** ** The round engine *)

(** First pass of the initial deal:
    [for hand in player_hands: hand.add_card(deal()); hand.bet = regular_bet]. *)
Fixpoint deal_first (player_hands : list (Hand M)) (regular_bet : M)
  : Run (list (Hand M)) :=
  match player_hands with
  | [] => ret []
  | hand :: rest =>
      c <- deal ;;
      rest' <- deal_first rest regular_bet ;;
      ret (set_bet regular_bet (add_card hand c) :: rest')
  end.

(** Second pass: [for hand in player_hands: hand.add_card(deal())]. *)
Fixpoint deal_second (player_hands : list (Hand M)) : Run (list (Hand M)) :=
  match player_hands with
  | [] => ret []
  | hand :: rest =>
      c <- deal ;;
      rest' <- deal_second rest ;;
      ret (add_card hand c :: rest')
  end.

(** Lines 293-304: the hands after the initial deal. *)
Definition initial_deal (num_hands : Z) (regular_bet : M)
  : Run (list (Hand M) * Hand M) :=
  let player_hands := repeat new_hand (Z.to_nat num_hands) in
  let dealer_hand := new_hand in
  player_hands <- deal_first player_hands regular_bet ;;
  c <- deal ;;
  let dealer_hand := add_card dealer_hand c in
  player_hands <- deal_second player_hands ;;
  c <- deal ;;
  let dealer_hand := add_card dealer_hand c in
  ret (player_hands, dealer_hand).

(** Body of the side-bet loop for one hand (lines 314-337); returns the
    new [total_payout] and the flag appended to [hand_has_top_match]. *)
Definition side_bets_hand (hand dealer_hand : Hand M) (top_bet bottom_bet : M)
    (total_payout : M) : Run (M * bool) :=
  top <-
    (if mpositive top_bet then
       dealer_card <- index (cards dealer_hand) 0 ;;
       let top_matches := evaluate_match (cards hand) dealer_card in
       let top_payout := calculate_match_payout top_matches in
       r <-
         (if top_payout >? 0 then
            modify_stats (upd_top_bets_hit incr) ;;;
            let won := mscale top_bet (inject_Z top_payout) in
            modify_stats (upd_total_top_bet_payout (fun x => madd x won)) ;;;
            modify_stats (upd_top_matches (update_match_stats top_matches)) ;;;
            ret (madd total_payout won, true)
          else ret (total_payout, false)) ;;
       modify_stats (upd_total_top_bet_wagered (fun x => madd x top_bet)) ;;;
       ret r
     else ret (total_payout, false)) ;;
  let total_payout := fst top in
  let has_match := snd top in
  total_payout <-
    (if mpositive bottom_bet then
       dealer_card <- index (cards dealer_hand) 1 ;;
       let bottom_matches := evaluate_match (cards hand) dealer_card in
       let bottom_payout := calculate_match_payout bottom_matches in
       r <-
         (if bottom_payout >? 0 then
            modify_stats (upd_bottom_bets_hit incr) ;;;
            let won := mscale bottom_bet (inject_Z bottom_payout) in
            modify_stats (upd_total_bottom_bet_payout (fun x => madd x won)) ;;;
            modify_stats (upd_bottom_matches (update_match_stats bottom_matches)) ;;;
            ret (madd total_payout won)
          else ret total_payout) ;;
       modify_stats (upd_total_bottom_bet_wagered (fun x => madd x bottom_bet)) ;;;
       ret r
     else ret total_payout) ;;
  ret (total_payout, has_match).

(** The side-bet loop over [player_hands]. *)
Fixpoint side_bets (player_hands : list (Hand M)) (dealer_hand : Hand M)
    (top_bet bottom_bet : M) (total_payout : M) (hand_has_top_match : list bool)
  : Run (M * list bool) :=
  match player_hands with
  | [] => ret (total_payout, hand_has_top_match)
  | hand :: rest =>
      r <- side_bets_hand hand dealer_hand top_bet bottom_bet total_payout ;;
      side_bets rest dealer_hand top_bet bottom_bet (fst r)
        (hand_has_top_match ++ [snd r])
  end.

(** [len(hand.cards) == 2 and hand.value() == 21] *)
Definition natural_21 (hand : Hand M) : bool :=
  Nat.eqb (length (cards hand)) 2 && (value hand =? 21).

(** [for i, hand in enumerate(player_hands)] of lines 341-346, from index [i]. *)
Fixpoint play_hands (fuel : nat) (i : nat) (player_hands : list (Hand M))
    (dealer_hand : Hand M) (auto_surrender : bool)
    (hand_has_top_match : list bool) : Run (list (Hand M)) :=
  match player_hands with
  | [] => ret []
  | hand :: rest =>
      hand' <-
        (if natural_21 hand then ret (set_is_blackjack true hand)
         else
           dealer_upcard <- index (cards dealer_hand) 0 ;;
           has_top_match <- index hand_has_top_match i ;;
           play_hand fuel hand dealer_upcard auto_surrender has_top_match) ;;
      rest' <- play_hands fuel (S i) rest dealer_hand auto_surrender
                 hand_has_top_match ;;
      ret (hand' :: rest')
  end.

(** [any(not hand.is_bust() and not hand.surrendered for hand in player_hands)] *)
Definition any_live (player_hands : list (Hand M)) : bool :=
  existsb (fun hand => negb (is_bust hand) && negb (surrendered hand))
    player_hands.

(** Lines 339-350: the players' turns and then the dealer's. *)
Definition play_round (fuel : nat) (player_hands : list (Hand M))
    (dealer_hand : Hand M) (dealer_has_blackjack auto_surrender : bool)
    (hand_has_top_match : list bool) : Run (list (Hand M) * Hand M) :=
  if negb dealer_has_blackjack then
    player_hands <- play_hands fuel 0 player_hands dealer_hand auto_surrender
                      hand_has_top_match ;;
    if any_live player_hands then
      dealer_hand <- play_dealer_hand fuel dealer_hand ;;
      ret (player_hands, dealer_hand)
    else ret (player_hands, dealer_hand)
  else ret (player_hands, dealer_hand).

(** Body of the settling loop for one hand (lines 354-370). *)
Definition settle_hand (hand dealer_hand : Hand M) (dealer_has_blackjack : bool)
    (regular_bet : M) (total_payout : M) : Run M :=
  modify_stats (upd_total_regular_wagered (fun x => madd x regular_bet)) ;;;
  if dealer_has_blackjack then
    if is_blackjack hand then
      modify_stats (upd_hands_pushed incr) ;;;
      modify_stats (upd_total_regular_payout (fun x => madd x regular_bet)) ;;;
      ret (madd total_payout regular_bet)
    else
      modify_stats (upd_hands_lost incr) ;;;
      ret total_payout
  else
    multiplier <- run_determine_winner hand dealer_hand ;;
    let payout := mscale regular_bet multiplier in
    modify_stats (upd_total_regular_payout (fun x => madd x payout)) ;;;
    ret (madd total_payout payout).

(** The settling loop over [player_hands]. *)
Fixpoint settle (player_hands : list (Hand M)) (dealer_hand : Hand M)
    (dealer_has_blackjack : bool) (regular_bet : M) (total_payout : M)
  : Run M :=
  match player_hands with
  | [] => ret total_payout
  | hand :: rest =>
      total_payout <- settle_hand hand dealer_hand dealer_has_blackjack
                        regular_bet total_payout ;;
      settle rest dealer_hand dealer_has_blackjack regular_bet total_payout
  end.

(** [simulate_round] *)
Definition simulate_round (fuel : nat) (num_hands : Z)
    (regular_bet top_bet bottom_bet : M) (auto_surrender : bool) : Run M :=
  dealt <- initial_deal num_hands regular_bet ;;
  let player_hands := fst dealt in
  let dealer_hand := snd dealt in
  let dealer_has_blackjack := natural_21 dealer_hand in
  let total_payout := mzero in
  sb <- side_bets player_hands dealer_hand top_bet bottom_bet total_payout [] ;;
  let total_payout := fst sb in
  let hand_has_top_match := snd sb in
  played <- play_round fuel player_hands dealer_hand dealer_has_blackjack
              auto_surrender hand_has_top_match ;;
  let player_hands := fst played in
  let dealer_hand := snd played in
  total_payout <- settle player_hands dealer_hand dealer_has_blackjack
                    regular_bet total_payout ;;
  modify_stats (upd_hands_played (fun n => n + num_hands)) ;;;
  ret total_payout.

(** [n] consecutive calls of [simulate_round] with the same arguments. *)
Fixpoint simulate_rounds (n : nat) (fuel : nat) (num_hands : Z)
    (regular_bet top_bet bottom_bet : M) (auto_surrender : bool) : Run unit :=
  match n with
  | O => ret tt
  | S n' =>
      simulate_round fuel num_hands regular_bet top_bet bottom_bet
        auto_surrender ;;;
      simulate_rounds n' fuel num_hands regular_bet top_bet bottom_bet
        auto_surrender
  end.

End Simulator.

Arguments Stats M : clear implicits.
Arguments World M G : clear implicits.
Arguments Run M G A : clear implicits.

(** ** The shoe on its own *)

Section Dealing.
Context {G : Type} {GS : Shuffler G}.

(** [Shoe.deal] as a method of the shoe: the card dealt with the shoe and
    generator left, [None] for the [IndexError] of [pop]. *)
Definition shoe_deal (sh : Shoe) (g : G) : option (Card * (Shoe * G)) :=
  let (sh1, g1) :=
    if (length (shoe_cards sh) <=? 50)%nat then reshuffle sh g else (sh, g) in
  match pop (shoe_cards sh1) with
  | Some (c, rest) => Some (c, (mkShoe (num_decks sh1) rest, g1))
  | None => None
  end.

(** [n] consecutive calls of [deal()], the cards in the order dealt. *)
Fixpoint deal_seq (n : nat) (sh : Shoe) (g : G)
  : option (list Card * (Shoe * G)) :=
  match n with
  | O => Some ([], (sh, g))
  | S n' =>
      match shoe_deal sh g with
      | Some (c, (sh1, g1)) =>
          match deal_seq n' sh1 g1 with
          | Some (cs, r) => Some (c :: cs, r)
          | None => None
          end
      | None => None
      end
  end.

(** [Shoe(num_decks)] *)
Definition new_shoe (n : Z) (g : G) : Shoe * G := reshuffle (mkShoe n []) g.

End Dealing.

(** [w'] is [w] after dealing exactly the cards [cs], in this order, with
    the statistics untouched. *)
Definition dealt {M G : Type} {GS : Shuffler G} (cs : list Card)
    (w w' : World M G) : Prop :=
  deal_seq (length cs) (shoe w) (rng w) = Some (cs, (shoe w', rng w'))
  /\ stats w' = stats w.

(** The statistics grouped by what writes them: the hand counters and
    regular-bet totals, and the entries of each side bet. *)
Definition regular_stats {M : Type} (st : Stats M)
  : Z * Z * Z * Z * Z * M * M :=
  (hands_played st, hands_won st, hands_lost st, hands_pushed st,
   hands_surrendered st, total_regular_wagered st, total_regular_payout st).

Definition top_stats {M : Type} (st : Stats M) : MatchResult * Z * M * M :=
  (top_matches st, top_bets_hit st, total_top_bet_payout st,
   total_top_bet_wagered st).

Definition bottom_stats {M : Type} (st : Stats M) : MatchResult * Z * M * M :=
  (bottom_matches st, bottom_bets_hit st, total_bottom_bet_payout st,
   total_bottom_bet_wagered st).

(** Hits recorded in a [MatchResult], over its five categories. *)
Definition match_total (r : MatchResult) : Z :=
  one_nonsuited r + two_nonsuited r + one_suited r
  + one_suited_one_nonsuited r + two_suited r.

(** The value and softness of a hand after one more card, from the value
    and softness before it. *)
Definition next_total (v : Z) (soft : bool) (c : Card) : Z * bool :=
  if is_ace c then
    if soft then
      if v + 1 <=? 21 then (v + 1, true) else (v - 9, false)
    else
      if v + 11 <=? 21 then (v + 11, true) else (v + 1, false)
  else
    if soft then
      if v + card_value c <=? 21 then (v + card_value c, true)
      else (v + card_value c - 10, false)
    else (v + card_value c, false).

(** ** The simulation loop of [main] *)

(** Comparing and subtracting amounts, as [main] does with the bankroll. *)
Class Bankroll (M : Type) : Type := {
  mlt : M -> M -> bool;         (* x < y *)
  msub : M -> M -> M            (* x - y *)
}.

(** [a // b] on integers; [None] is the [ZeroDivisionError]. *)
Definition floor_div (a b : Z) : option Z :=
  if b =? 0 then None else Some (a / b).

Section Driver.
Context {M : Type} {MM : Money M} {MB : Bankroll M}.
Context {G : Type} {GS : Shuffler G}.

(** The loop [for round_num in range(total_rounds)] of [main]
    (lines 421-434) without its printing, for [n] remaining iterations;
    it yields [(current_bankroll, rounds_played)]. *)
Fixpoint rounds_loop (fuel : nat) (n : nat) (hands_per_round : Z)
    (regular_bet top_bet bottom_bet : M) (auto_surrender : bool)
    (bet_per_round current_bankroll : M) (rounds_played : Z)
  : Run M G (M * Z) :=
  match n with
  | O => ret (current_bankroll, rounds_played)
  | S n' =>
      if mlt current_bankroll bet_per_round then
        ret (current_bankroll, rounds_played)
      else
        let current_bankroll := msub current_bankroll bet_per_round in
        bind (simulate_round fuel hands_per_round regular_bet top_bet
                bottom_bet auto_surrender) (fun payout =>
        rounds_loop fuel n' hands_per_round regular_bet top_bet bottom_bet
          auto_surrender bet_per_round (madd current_bankroll payout)
          (rounds_played + 1))
  end.

(** Lines 414-434 of [main]: a new simulator, the number of rounds and
    the stake per round, then the loop. *)
Definition run_simulation (fuel : nat) (g : G)
    (bankroll regular_bet top_bet bottom_bet : M) (auto_surrender : bool)
    (hands_per_round total_hands : Z)
  : option (Outcome ((M * Z) * World M G)) :=
  let simulator := new_simulator g in
  let current_bankroll := bankroll in
  let rounds_played := 0 in
  match floor_div total_hands hands_per_round with
  | None => None
  | Some total_rounds =>
      let bet_per_round :=
        mscale (madd (madd regular_bet top_bet) bottom_bet)
          (inject_Z hands_per_round) in
      Some (rounds_loop fuel (Z.to_nat total_rounds) hands_per_round
              regular_bet top_bet bottom_bet auto_surrender bet_per_round
              current_bankroll rounds_played simulator)
  end.

End Driver.

(** ** A concrete carrier

    Exact rationals for amounts and a generator that reverses the list,
    used to run the engine on explicit shoes. *)

#[export] Instance Money_Q : Money Q := {|
  mzero := 0%Q;
  madd := Qplus;
  mscale := Qmult;
  mpositive := fun x => negb (Qle_bool x 0)
|}.

#[export] Instance Bankroll_Q : Bankroll Q := {|
  mlt := fun x y => negb (Qle_bool y x);
  msub := Qminus
|}.

#[export] Instance Shuffler_rev : Shuffler unit := {|
  shuffle := fun g l => (rev l, g);
  shuffle_perm := fun _ l => Permutation_rev l
|}.

Definition Card_eq_dec (a b : Card) : {a = b} + {a <> b}.
Proof. decide equality; decide equality. Defined.

(** No card occurs in the sequence more often than the shoe has decks. *)
Definition within_decks (sh : Shoe) : Prop :=
  forall c : Card,
    (count_occ Card_eq_dec (shoe_cards sh) c <= Z.to_nat (num_decks sh))%nat.

(** [l] without the first card equal to [c]. *)
Fixpoint remove_first (c : Card) (l : list Card) : list Card :=
  match l with
  | [] => []
  | x :: rest => if Card_eqb x c then rest else x :: remove_first c rest
  end.

(** The eight decks with one copy of each card of [top] moved to the end
    of the sequence, so that the last card of [top] is dealt first. *)
Definition stacked_cards (top : list Card) : list Card :=
  fold_left (fun deck c => remove_first c deck) top (fresh_cards 8) ++ top.

(** A simulator whose shuffle left the cards of [top] at the end. *)
Definition stacked_world (top : list Card) : World Q unit :=
  mkWorld (mkShoe 8 (stacked_cards top)) initial_stats tt.

Definition hand_of (cs : list Card) : Hand Q := mkHand cs 0%Q false false.

(** The dealer and the only player are both dealt an ace and a king. *)
Definition blackjack_tie_world : World Q unit :=
  stacked_world
    [mkCard RK HEARTS; mkCard RK SPADES; mkCard RA HEARTS; mkCard RA SPADES].

(** ** Rule tables read off the specification

    The payout and winner rules are stated as ordered lists of
    (condition, result); the first rule whose condition holds applies. *)

Fixpoint first_applicable {A : Type} (rules : list (bool * A)) (otherwise : A)
  : A :=
  match rules with
  | [] => otherwise
  | (condition, result) :: rest =>
      if condition then result else first_applicable rest otherwise
  end.

(** Cards of the player sharing the dealer card's rank and suit. *)
Definition count_suited (player_cards : list Card) (dealer_card : Card) : nat :=
  length (filter (fun c => Rank_eqb (rank c) (rank dealer_card)
                           && Suit_eqb (suit c) (suit dealer_card))
            player_cards).

(** Cards of the player sharing the dealer card's rank but not its suit. *)
Definition count_nonsuited (player_cards : list Card) (dealer_card : Card)
  : nat :=
  length (filter (fun c => Rank_eqb (rank c) (rank dealer_card)
                           && negb (Suit_eqb (suit c) (suit dealer_card)))
            player_cards).

(** The side-bet payout table in its priority order. *)
Definition side_bet_table (s n : nat) : Z :=
  first_applicable
    [ (Nat.eqb s 2, 24);
      (Nat.eqb s 1 && Nat.eqb n 1, 15);
      (Nat.eqb s 1, 12);
      (Nat.eqb n 2, 6);
      (Nat.eqb n 1, 3) ]
    0.

(** The point value of a rank as the specification gives it: an ace 11,
    a jack, queen or king 10, a numeral its number. *)
Definition rank_points (r : Rank) : Z :=
  match r with
  | RA => 11
  | R2 => 2 | R3 => 3 | R4 => 4 | R5 => 5
  | R6 => 6 | R7 => 7 | R8 => 8 | R9 => 9
  | RJ => 10 | RQ => 10 | RK => 10
  end.

(** The total of a list of cards with every ace counted as 11. *)
Fixpoint ace_high_total (cs : list Card) : Z :=
  match cs with
  | [] => 0
  | c :: rest => rank_points (rank c) + ace_high_total rest
  end.

(** The number of aces in a list of cards. *)
Fixpoint ace_count (cs : list Card) : nat :=
  match cs with
  | [] => O
  | c :: rest =>
      match rank c with
      | RA => S (ace_count rest)
      | _ => ace_count rest
      end
  end.

(** The winner precedence of the specification. *)
Definition winner_table {M : Type} (player_hand dealer_hand : Hand M) : Q :=
  let p := value player_hand in
  let d := value dealer_hand in
  let n := length (cards player_hand) in
  first_applicable
    [ (surrendered player_hand, 0.5%Q);
      (p >? 21, 0%Q);
      ((p =? 21) && Nat.eqb n 2, 2.5%Q);
      ((p =? 21) && Nat.eqb n 5, 2.5%Q);
      ((p =? 21) && Nat.eqb n 6, 3%Q);
      (p =? 21, 2%Q);
      (d >? 21, 2%Q);
      (p >? d, 2%Q);
      (p =? d, 1%Q) ]
    0%Q.

(** ** Outcomes of a run *)

(** Running [m] from [w] returns, with a result and world satisfying [P]. *)
Definition returns {M G A : Type} (m : Run M G A) (w : World M G)
    (P : A -> World M G -> Prop) : Prop :=
  match m w with
  | Ret (a, w') => P a w'
  | IndexError => False
  | OutOfFuel => False
  end.

(** Running [m] from [w] stops within the iteration budget. *)
Definition halts {M G A : Type} (m : Run M G A) (w : World M G) : Prop :=
  m w <> OutOfFuel.

(** The shoe was built from at least one deck. *)
Definition shoe_ok {M G : Type} (w : World M G) : Prop :=
  1 <= num_decks (shoe w).

(** A run that leaves the statistics and the deck count as they were. *)
Definition stats_kept {M G : Type} (w w' : World M G) : Prop :=
  stats w' = stats w /\ num_decks (shoe w') = num_decks (shoe w).

(** The invariant on the hand counters. *)
Definition counters_balanced {M : Type} (st : Stats M) : Prop :=
  hands_won st + hands_lost st + hands_pushed st + hands_surrendered st
  = hands_played st.

(** ** Counting hand results *)

(** The four counters a settled hand can go to. *)
Inductive HandOutcome : Type := Won | Lost | Pushed | Surrendered.

Definition HandOutcome_eqb (a b : HandOutcome) : bool :=
  match a, b with
  | Won, Won | Lost, Lost | Pushed, Pushed | Surrendered, Surrendered => true
  | _, _ => false
  end.

(** How many of [os] are [o]. *)
Definition tally (o : HandOutcome) (os : list HandOutcome) : Z :=
  Z.of_nat (length (filter (HandOutcome_eqb o) os)).

(** From [st] to [st'] the four result counters grew by the tallies of
    [os] and [hands_played] stayed as it was. *)
Definition tallied {M : Type} (os : list HandOutcome) (st st' : Stats M)
  : Prop :=
  hands_played st' = hands_played st
  /\ hands_won st' = hands_won st + tally Won os
  /\ hands_lost st' = hands_lost st + tally Lost os
  /\ hands_pushed st' = hands_pushed st + tally Pushed os
  /\ hands_surrendered st' = hands_surrendered st + tally Surrendered os.

(** A run that changes neither the deck count nor the hand counters
    beyond the results [os]. *)
Definition settled {M G : Type} (os : list HandOutcome) (w w' : World M G)
  : Prop :=
  tallied os (stats w) (stats w') /\ num_decks (shoe w') = num_decks (shoe w).

(** A hand holding [k] cards that has not been marked in any way. *)
Definition unmarked {M : Type} (k : nat) (h : Hand M) : Prop :=
  length (cards h) = k /\ surrendered h = false /\ is_blackjack h = false.

(** The counter a settled hand goes to, as the specification orders the
    cases: against a dealer blackjack a hand flagged blackjack is pushed
    and any other is lost; otherwise a surrendered hand is surrendered, a
    bust hand lost, a 21 won, and the remaining hands win against a bust
    or lower dealer, push on equal totals and lose on lower ones. *)
Definition hand_result {M : Type} (dealer_has_blackjack : bool)
    (dealer_hand hand : Hand M) : HandOutcome :=
  if dealer_has_blackjack then
    if is_blackjack hand then Pushed else Lost
  else
    first_applicable
      [ (surrendered hand, Surrendered);
        (value hand >? 21, Lost);
        (value hand =? 21, Won);
        (value dealer_hand >? 21, Won);
        (value hand >? value dealer_hand, Won);
        (value hand =? value dealer_hand, Pushed) ]
      Lost.

(** The surrender condition of the specification. *)
Definition surrenders {M : Type} (player_hand : Hand M) (dealer_upcard : Card)
    (auto_surrender has_top_match : bool) : Prop :=
  auto_surrender = true /\ has_top_match = true
  /\ length (cards player_hand) = 2%nat
  /\ is_hard player_hand = true
  /\ 13 <= value player_hand <= 16
  /\ In (rank dealer_upcard) [R7; R8; R9; RJ; RQ; RK; RA].

(** * Properties *)

(** ** Hand values *)

Lemma points_from (cs : list Card) (acc : Z) :
  fold_left Z.add (map card_value cs) acc = acc + points cs.
Proof.
  unfold points. revert acc.
  induction cs as [|c cs IH]; intros acc; simpl.
  - lia.
  - rewrite IH, (IH (card_value c)). lia.
Qed.

Lemma points_cons (c : Card) (cs : list Card) :
  points (c :: cs) = card_value c + points cs.
Proof. unfold points at 1. simpl. apply points_from. Qed.

Lemma points_app (cs ds : list Card) :
  points (cs ++ ds) = points cs + points ds.
Proof.
  induction cs as [|c cs IH]; simpl.
  - reflexivity.
  - rewrite !points_cons, IH. lia.
Qed.

Lemma count_aces_app (cs ds : list Card) :
  count_aces (cs ++ ds) = (count_aces cs + count_aces ds)%nat.
Proof. unfold count_aces. now rewrite filter_app, length_app. Qed.

Lemma card_value_range (c : Card) : 2 <= card_value c <= 11.
Proof. unfold card_value. destruct (rank c); lia. Qed.

Lemma card_value_ace (c : Card) :
  card_value c - 10 * Z.of_nat (count_aces [c]) >= 1.
Proof.
  unfold count_aces, is_ace, card_value. simpl.
  destruct (rank c); simpl; lia.
Qed.

(** What the reduction loop computes: [k] subtractions, each made while
    the running total was above 21, stopping at the first total that is
    not, or when the aces run out. *)
Lemma reduce_aces_spec (aces : nat) : forall total : Z,
  exists k : nat,
    (k <= aces)%nat
    /\ reduce_aces total aces = (total - 10 * Z.of_nat k, (aces - k)%nat)
    /\ (forall j : nat, (j < k)%nat -> total - 10 * Z.of_nat j > 21)
    /\ ((k < aces)%nat -> total - 10 * Z.of_nat k <= 21).
Proof.
  induction aces as [|a IH]; intros total.
  - exists 0%nat. cbn [reduce_aces]. repeat split; try lia. f_equal; lia.
  - cbn [reduce_aces]. destruct (Z.gtb_spec total 21) as [E|E].
    + destruct (IH (total - 10)) as (k & Hk & Hr & Hj & Hs).
      exists (S k). repeat split.
      * lia.
      * rewrite Hr. f_equal; lia.
      * intros j Hlt. destruct j as [|j]; [lia|].
        specialize (Hj j ltac:(lia)). lia.
      * intros Hlt. specialize (Hs ltac:(lia)). lia.
    + exists 0%nat. repeat split; try lia. f_equal; lia.
Qed.

Lemma points_ace_high (cs : list Card) : points cs = ace_high_total cs.
Proof.
  induction cs as [|c cs IH]; [reflexivity|].
  rewrite points_cons, IH. cbn [ace_high_total].
  unfold card_value. destruct (rank c); reflexivity.
Qed.

Lemma count_aces_ace_count (cs : list Card) : count_aces cs = ace_count cs.
Proof.
  unfold count_aces, is_ace.
  induction cs as [|c cs IH]; [reflexivity|].
  cbn [filter ace_count]. destruct (rank c); cbn [Rank_eqb length];
    rewrite IH; reflexivity.
Qed.

(** C2: [value()] starts from the sum of the cards' point values with
    every ace counted as 11 and lowers it by 10 once per ace for as long
    as it exceeds 21 and an ace is left; the result is the largest total
    not above 21 that the aces allow, the bust total with every ace at 1
    when there is none, and [A,A,9] is worth 21. *)
Theorem value_best_total (M : Type) (h : Hand M) :
  let total := ace_high_total (cards h) in
  let aces := ace_count (cards h) in
  points (cards h) = total
  /\ count_aces (cards h) = aces
  /\ (exists k : nat,
        (k <= aces)%nat
        /\ value h = total - 10 * Z.of_nat k
        /\ (forall j : nat, (j < k)%nat -> total - 10 * Z.of_nat j > 21)
        /\ ((k < aces)%nat -> value h <= 21))
  /\ (forall j : nat, (j <= aces)%nat -> total - 10 * Z.of_nat j <= 21 ->
        total - 10 * Z.of_nat j <= value h <= 21)
  /\ (total - 10 * Z.of_nat aces > 21 ->
        value h = total - 10 * Z.of_nat aces /\ value h > 21)
  /\ value (hand_of [mkCard RA HEARTS; mkCard RA SPADES; mkCard R9 CLUBS]) = 21.
Proof.
  cbv zeta.
  split; [apply points_ace_high|]. split; [apply count_aces_ace_count|].
  unfold value. rewrite points_ace_high, count_aces_ace_count.
  generalize (ace_high_total (cards h)) (ace_count (cards h)).
  intros total aces.
  destruct (reduce_aces_spec aces total) as (k & Hk & Hr & Hj & Hs).
  rewrite Hr. cbn [fst].
  split; [|split; [|split]].
  - exists k. auto.
  - intros j Hja Hj21.
    assert (k <= j)%nat.
    { destruct (Nat.le_gt_cases k j) as [|Hlt]; [assumption|].
      specialize (Hj j Hlt). lia. }
    assert (k < aces \/ k = aces)%nat as [Hlt|Heq] by lia.
    + specialize (Hs Hlt). lia.
    + subst k. assert (j = aces) by lia. subst j. lia.
  - intros Hbust.
    assert (k = aces).
    { assert (k < aces \/ k = aces)%nat as [Hlt|Heq] by lia; [|assumption].
      specialize (Hs Hlt). lia. }
    subst k. lia.
  - reflexivity.
Qed.

(** The hand [A,A,9] is worth 21: neither 31 nor 12. *)
Lemma value_best_total_witness :
  let h := hand_of [mkCard RA HEARTS; mkCard RA SPADES; mkCard R9 CLUBS] in
  31 - 10 * Z.of_nat 1 <= value h <= 21.
Proof.
  intros h.
  apply (proj1 (proj2 (proj2 (proj2 (value_best_total Q h)))) 1%nat).
  - vm_compute. lia.
  - vm_compute. discriminate.
Defined.

Lemma value_ge_hard_total (M : Type) (h : Hand M) : hard_total h <= value h.
Proof.
  unfold hard_total, value.
  destruct (reduce_aces_spec (count_aces (cards h)) (points (cards h)))
    as (k & Hk & Hr & _).
  rewrite Hr. cbn [fst]. lia.
Qed.

Lemma existsb_ace_count (cs : list Card) :
  existsb (fun c => Rank_eqb (rank c) RA) cs = negb (Nat.eqb (count_aces cs) 0).
Proof.
  unfold count_aces, is_ace.
  induction cs as [|c cs IH]; simpl; [reflexivity|].
  destruct (Rank_eqb (rank c) RA); simpl; [reflexivity|assumption].
Qed.

Lemma is_soft_negb_hard (M : Type) (h : Hand M) : is_soft h = negb (is_hard h).
Proof.
  unfold is_soft. rewrite existsb_ace_count. unfold is_hard.
  destruct (Nat.eqb (count_aces (cards h)) 0); simpl; [reflexivity|].
  apply andb_true_r.
Qed.

(** C3: [is_hard()] and [is_soft()] never hold together, and exactly one
    of them holds for a hand whose value is at most 21. *)
Theorem hard_soft_exclusive (M : Type) (h : Hand M) :
  is_hard h && is_soft h = false
  /\ (value h <= 21 -> xorb (is_hard h) (is_soft h) = true).
Proof.
  rewrite is_soft_negb_hard. destruct (is_hard h); auto.
Qed.

Lemma hard_soft_exclusive_witness :
  let h := hand_of [mkCard RA HEARTS; mkCard R6 SPADES] in
  value h <= 21 /\ xorb (is_hard h) (is_soft h) = true.
Proof.
  intros h. split; [vm_compute; congruence|].
  apply (proj2 (hard_soft_exclusive Q h)). vm_compute; congruence.
Defined.

(** ** Side bets *)

Lemma evaluate_match_from (dealer_card : Card) (player_cards : list Card) :
  forall m : Matches,
    let r :=
      fold_left
        (fun matches card =>
           if Rank_eqb (rank card) (rank dealer_card) then
             if Suit_eqb (suit card) (suit dealer_card)
             then mkMatches (suited matches + 1) (nonsuited matches)
             else mkMatches (suited matches) (nonsuited matches + 1)
           else matches)
        player_cards m in
    suited r = suited m + Z.of_nat (count_suited player_cards dealer_card)
    /\ nonsuited r
       = nonsuited m + Z.of_nat (count_nonsuited player_cards dealer_card).
Proof.
  unfold count_suited, count_nonsuited.
  induction player_cards as [|c cs IH]; intros m; cbn zeta.
  - cbn. lia.
  - cbn [fold_left filter].
    destruct (Rank_eqb (rank c) (rank dealer_card));
      [destruct (Suit_eqb (suit c) (suit dealer_card))|];
      cbn [andb negb];
      match goal with |- context [fold_left _ cs ?m'] =>
        destruct (IH m') as [Hs Hn] end;
      cbn zeta in Hs, Hn; rewrite Hs, Hn; cbn [suited nonsuited length]; lia.
Qed.

Lemma side_bet_table_of_counts (s n : nat) :
  calculate_match_payout (mkMatches (Z.of_nat s) (Z.of_nat n))
  = side_bet_table s n.
Proof.
  unfold calculate_match_payout, side_bet_table. cbn [suited nonsuited].
  destruct s as [|[|[|s]]]; destruct n as [|[|[|n]]]; try reflexivity;
    cbn [first_applicable Nat.eqb andb];
    repeat match goal with
    | |- context [Z.of_nat ?a =? ?b] =>
        destruct (Z.eqb_spec (Z.of_nat a) b); try lia
    end; cbn [andb]; reflexivity.
Qed.

(** C4: the side-bet multiplier is the first applicable entry of the
    table (2 suited 24, 1 suited and 1 nonsuited 15, 1 suited 12,
    2 nonsuited 6, 1 nonsuited 3, otherwise 0) at the suited and nonsuited
    match counts; the dealer's 7 of hearts against [7h, 7c] pays 15. *)
Theorem match_payout_table (player_cards : list Card) (dealer_card : Card) :
  suited (evaluate_match player_cards dealer_card)
  = Z.of_nat (count_suited player_cards dealer_card)
  /\ nonsuited (evaluate_match player_cards dealer_card)
     = Z.of_nat (count_nonsuited player_cards dealer_card)
  /\ calculate_match_payout (evaluate_match player_cards dealer_card)
     = side_bet_table (count_suited player_cards dealer_card)
         (count_nonsuited player_cards dealer_card)
  /\ calculate_match_payout
       (evaluate_match [mkCard R7 HEARTS; mkCard R7 CLUBS] (mkCard R7 HEARTS))
     = 15.
Proof.
  destruct (evaluate_match_from dealer_card player_cards (mkMatches 0 0))
    as [Hs Hn].
  cbn zeta in Hs, Hn. fold (evaluate_match player_cards dealer_card) in Hs, Hn.
  cbn [suited nonsuited] in Hs, Hn.
  repeat split; try lia.
  rewrite <- side_bet_table_of_counts.
  destruct (evaluate_match player_cards dealer_card) as [s n].
  cbn [suited nonsuited] in Hs, Hn. f_equal. f_equal; lia.
Qed.

(** ** Winner determination *)

(** C5: the multiplier returned by [determine_winner] follows the
    precedence surrendered 0.5, bust 0, natural 2.5, five-card 21 2.5,
    six-card 21 3, other 21 2, dealer bust 2, then higher 2, equal 1,
    lower 0. *)
Theorem determine_winner_precedence (M : Type) (player_hand dealer_hand : Hand M)
    (st : Stats M) :
  fst (determine_winner player_hand dealer_hand st)
  = winner_table player_hand dealer_hand.
Proof.
  unfold determine_winner, winner_table, is_bust.
  cbn [first_applicable].
  destruct (surrendered player_hand); [reflexivity|].
  destruct (value player_hand >? 21); [reflexivity|].
  cbn zeta.
  rewrite (andb_comm (Nat.eqb (length (cards player_hand)) 2)).
  destruct (value player_hand =? 21); cbn [andb].
  - destruct (Nat.eqb (length (cards player_hand)) 2); [reflexivity|].
    destruct (Nat.eqb (length (cards player_hand)) 5); [reflexivity|].
    destruct (Nat.eqb (length (cards player_hand)) 6); reflexivity.
  - destruct (value dealer_hand >? 21); [reflexivity|].
    destruct (value player_hand >? value dealer_hand); [reflexivity|].
    destruct (value player_hand =? value dealer_hand); reflexivity.
Qed.

(** ** Strategy *)

Lemma existsb_Rank_In (r : Rank) (l : list Rank) :
  existsb (Rank_eqb r) l = true <-> In r l.
Proof.
  rewrite existsb_exists. split.
  - intros (x & Hin & Heq). destruct r, x; try discriminate; assumption.
  - intros Hin. exists r. split; [assumption|]. destruct r; reflexivity.
Qed.

Lemma existsb_Z_In (z : Z) (l : list Z) :
  existsb (Z.eqb z) l = true <-> In z l.
Proof.
  rewrite existsb_exists. split.
  - intros (x & Hin & Heq). apply Z.eqb_eq in Heq. now subst.
  - intros Hin. exists z. split; [assumption|apply Z.eqb_refl].
Qed.

Lemma surrender_guard (M : Type) (h : Hand M) (up : Card) (auto flag : bool) :
  auto && Nat.eqb (length (cards h)) 2 && flag && is_hard h
    && ((13 <=? value h) && (value h <=? 16))
    && existsb (Rank_eqb (rank up)) [R7; R8; R9; RJ; RQ; RK; RA] = true
  <-> surrenders h up auto flag.
Proof.
  unfold surrenders.
  rewrite !andb_true_iff, existsb_Rank_In, Nat.eqb_eq, !Z.leb_le.
  tauto.
Qed.

(** C7: [should_hit] answers surrender exactly under the surrender
    condition; otherwise a soft hand hits up to 17, hits 18 exactly against
    a dealer value of 9 or more and stands from 19; otherwise the hand is
    hard and hits up to 11, stands on 12 exactly against 4, 5 or 6, stands
    on 13 to 16 exactly against 6 or less, and stands from 17. *)
Theorem should_hit_policy (M : Type) (h : Hand M) (up : Card)
    (auto flag : bool) :
  let v := value h in
  let d := card_value up in
  let action := should_hit h up auto flag in
  (action = Surrender <-> surrenders h up auto flag)
  /\ (~ surrenders h up auto flag -> is_soft h = true ->
        (v <= 17 -> action = Hit)
        /\ (v = 18 -> (action = Hit <-> d >= 9) /\ (action = Stand <-> d < 9))
        /\ (v >= 19 -> action = Stand))
  /\ (~ surrenders h up auto flag -> is_soft h = false ->
        is_hard h = true
        /\ (v <= 11 -> action = Hit)
        /\ (v = 12 ->
              (action = Stand <-> In d [4; 5; 6])
              /\ (action = Hit <-> ~ In d [4; 5; 6]))
        /\ (13 <= v <= 16 ->
              (action = Stand <-> d <= 6) /\ (action = Hit <-> d > 6))
        /\ (v >= 17 -> action = Stand)).
Proof.
  cbv zeta. unfold should_hit.
  pose proof (surrender_guard M h up auto flag) as Hg.
  pose proof (existsb_Z_In (card_value up) [4; 5; 6]) as H456.
  pose proof (is_soft_negb_hard M h) as Hsoft.
  destruct (auto && Nat.eqb (length (cards h)) 2 && flag && is_hard h
            && ((13 <=? value h) && (value h <=? 16))
            && existsb (Rank_eqb (rank up)) [R7; R8; R9; RJ; RQ; RK; RA]).
  - split; [tauto|]. split; intros Hn; exfalso; apply Hn, Hg; reflexivity.
  - assert (Hns : ~ surrenders h up auto flag)
      by (intros Hs; apply Hg in Hs; discriminate).
    split.
    { split; [|tauto]. intros Heq. exfalso. revert Heq.
      repeat match goal with
             | |- context [if ?b then _ else _] => destruct b
             end; discriminate. }
    destruct (is_soft h).
    + split; [|intros _ Hf; discriminate].
      intros _ _.
      destruct (Z.leb_spec (value h) 17);
        [repeat split; intros; try lia; try discriminate; reflexivity|].
      destruct (Z.eqb_spec (value h) 18);
        [|repeat split; intros; try lia; try discriminate; reflexivity].
      unfold Z.geb.
      destruct (Z.compare_spec (card_value up) 9);
        repeat split; intros; try lia; try discriminate; reflexivity.
    + split; [intros _ Hf; discriminate|].
      intros _ _.
      split; [destruct (is_hard h); [reflexivity|discriminate]|].
      destruct (Z.leb_spec (value h) 11);
        [repeat split; intros; try lia; try discriminate; reflexivity|].
      destruct (Z.eqb_spec (value h) 12).
      { destruct (existsb (Z.eqb (card_value up)) [4; 5; 6]).
        - repeat split; intros; try lia; try discriminate; try reflexivity;
            try (apply H456; reflexivity).
          exfalso. match goal with Hx : ~ In _ _ |- _ => apply Hx end.
          apply H456; reflexivity.
        - assert (~ In (card_value up) [4; 5; 6])
            by (intros Hin; apply H456 in Hin; discriminate).
          repeat split; intros; try lia; try discriminate; try reflexivity;
            try assumption; try contradiction. }
      destruct (Z.leb_spec 13 (value h)); cbn [andb];
        [|repeat split; intros; try lia; try discriminate; reflexivity].
      destruct (Z.leb_spec (value h) 16);
        [|repeat split; intros; try lia; try discriminate; reflexivity].
      destruct (Z.leb_spec (card_value up) 6);
        repeat split; intros; try lia; try discriminate; reflexivity.
Qed.

(** Hard 16 against a king with the option on and a top match. *)
Lemma should_hit_policy_witness :
  should_hit (hand_of [mkCard R9 HEARTS; mkCard R7 CLUBS]) (mkCard RK SPADES)
    true true = Surrender.
Proof.
  apply (proj1 (should_hit_policy Q (hand_of [mkCard R9 HEARTS; mkCard R7 CLUBS])
                  (mkCard RK SPADES) true true)).
  unfold surrenders. repeat split; try reflexivity;
    try (vm_compute; discriminate).
  simpl. tauto.
Defined.

(** ** The shoe *)

Lemma pop_snoc (A : Type) (l : list A) (x : A) : pop (l ++ [x]) = Some (x, l).
Proof. unfold pop. rewrite rev_app_distr. simpl. now rewrite rev_involutive. Qed.

Lemma pop_nonempty (A : Type) (l : list A) :
  l <> [] -> exists x rest, l = rest ++ [x] /\ pop l = Some (x, rest).
Proof.
  intros Hne. destruct (exists_last Hne) as (rest & x & ->).
  exists x, rest. split; [reflexivity|apply pop_snoc].
Qed.

Lemma one_deck_length : length one_deck = 48%nat.
Proof. reflexivity. Qed.

Lemma fresh_cards_length (n : Z) :
  length (fresh_cards n) = (Z.to_nat n * 48)%nat.
Proof.
  unfold fresh_cards. induction (Z.to_nat n) as [|k IH]; cbn [repeat concat].
  - reflexivity.
  - rewrite length_app, IH, one_deck_length. lia.
Qed.

Section Engine.
Context {M : Type} {MM : Money M} {G : Type} {GS : Shuffler G}.

Lemma deal_spec (w : World M G) :
  1 <= num_decks (shoe w) ->
  exists (c : Card) (rest : list Card) (g' : G),
    deal w = Ret (c, mkWorld (mkShoe (num_decks (shoe w)) rest) (stats w) g')
    /\ ((length (shoe_cards (shoe w)) <= 50)%nat ->
          reshuffle (shoe w) (rng w)
          = (mkShoe (num_decks (shoe w)) (rest ++ [c]), g')
          /\ Permutation (fresh_cards (num_decks (shoe w))) (rest ++ [c])
          /\ Z.of_nat (length (rest ++ [c])) = num_decks (shoe w) * 48)
    /\ ((50 < length (shoe_cards (shoe w)))%nat ->
          shoe_cards (shoe w) = rest ++ [c] /\ g' = rng w).
Proof.
  intros Hdecks. unfold deal.
  destruct (Nat.leb_spec (length (shoe_cards (shoe w))) 50) as [Hle|Hgt].
  - unfold reshuffle.
    pose proof (shuffle_perm (rng w) (fresh_cards (num_decks (shoe w)))) as Hp.
    destruct (shuffle (rng w) (fresh_cards (num_decks (shoe w)))) as [cs g'].
    cbn [fst] in Hp. cbn [shoe_cards num_decks].
    assert (Hlen : length cs = (Z.to_nat (num_decks (shoe w)) * 48)%nat)
      by (rewrite <- (Permutation_length Hp); apply fresh_cards_length).
    destruct (pop_nonempty _ cs) as (c & rest & -> & Hpop).
    { intros ->. cbn in Hlen. lia. }
    rewrite Hpop. exists c, rest, g'.
    split; [reflexivity|]. split; [|lia].
    intros _. split; [reflexivity|]. split; [assumption|]. lia.
  - destruct (pop_nonempty _ (shoe_cards (shoe w))) as (c & rest & Heq & Hpop).
    { intros E. rewrite E in Hgt. cbn in Hgt. lia. }
    rewrite Hpop. exists c, rest, (rng w).
    split; [reflexivity|]. split; [lia|auto].
Qed.

(** C8: [deal()] rebuilds and reshuffles the shoe to [num_decks * 48]
    cards of fresh decks when at most 50 cards remain, dropping what was
    left, and then removes and returns the last card; with at least one
    deck it always returns. *)
Theorem deal_never_fails (w : World M G) :
  1 <= num_decks (shoe w) ->
  exists (c : Card) (rest : list Card) (g' : G),
    deal w = Ret (c, mkWorld (mkShoe (num_decks (shoe w)) rest) (stats w) g')
    /\ ((length (shoe_cards (shoe w)) <= 50)%nat ->
          reshuffle (shoe w) (rng w)
          = (mkShoe (num_decks (shoe w)) (rest ++ [c]), g')
          /\ Permutation (fresh_cards (num_decks (shoe w))) (rest ++ [c])
          /\ Z.of_nat (length (rest ++ [c])) = num_decks (shoe w) * 48)
    /\ ((50 < length (shoe_cards (shoe w)))%nat ->
          shoe_cards (shoe w) = rest ++ [c] /\ g' = rng w).
Proof. exact (deal_spec w). Qed.

(** ** Reasoning about runs *)

Lemma returns_ret (A : Type) (a : A) (w : World M G)
    (P : A -> World M G -> Prop) :
  P a w -> returns (ret a) w P.
Proof. intros H. exact H. Qed.

Lemma returns_bind (A B : Type) (m : Run M G A) (k : A -> Run M G B)
    (w : World M G) (P : B -> World M G -> Prop) :
  returns m w (fun a w1 => returns (k a) w1 P) -> returns (bind m k) w P.
Proof.
  unfold returns, bind. destruct (m w) as [[a w1]| |]; auto.
Qed.

Lemma returns_impl (A : Type) (m : Run M G A) (w : World M G)
    (P P' : A -> World M G -> Prop) :
  returns m w P -> (forall a w', P a w' -> P' a w') -> returns m w P'.
Proof.
  unfold returns. destruct (m w) as [[a w1]| |]; auto.
Qed.

Lemma returns_inv (A : Type) (m : Run M G A) (w : World M G)
    (P : A -> World M G -> Prop) :
  returns m w P -> exists a w', m w = Ret (a, w') /\ P a w'.
Proof.
  unfold returns. destruct (m w) as [[a w1]| |]; try contradiction.
  intros H. exists a, w1. auto.
Qed.

Lemma returns_modify (f : Stats M -> Stats M) (w : World M G)
    (P : unit -> World M G -> Prop) :
  P tt (mkWorld (shoe w) (f (stats w)) (rng w)) ->
  returns (modify_stats f) w P.
Proof. intros H. exact H. Qed.

Lemma returns_index (A : Type) (l : list A) (i : nat) (w : World M G)
    (P : A -> World M G -> Prop) :
  (i < length l)%nat -> (forall x, nth_error l i = Some x -> P x w) ->
  returns (index l i) w P.
Proof.
  intros Hlt HP. unfold index.
  destruct (nth_error l i) as [x|] eqn:E.
  - apply returns_ret. auto.
  - apply nth_error_None in E. lia.
Qed.

Lemma stats_kept_refl (w : World M G) : stats_kept w w.
Proof. split; reflexivity. Qed.

Lemma stats_kept_trans (w1 w2 w3 : World M G) :
  stats_kept w1 w2 -> stats_kept w2 w3 -> stats_kept w1 w3.
Proof. unfold stats_kept. intros [] []. split; congruence. Qed.

Lemma stats_kept_shoe_ok (w w' : World M G) :
  stats_kept w w' -> shoe_ok w -> shoe_ok w'.
Proof. unfold stats_kept, shoe_ok. intros [_ ->]. auto. Qed.

Lemma returns_deal (w : World M G) :
  shoe_ok w -> returns deal w (fun _ w' => stats_kept w w').
Proof.
  intros Hok. destruct (deal_spec w Hok) as (c & rest & g' & Hd & _).
  unfold returns. rewrite Hd. split; reflexivity.
Qed.

Lemma deal_halts (w : World M G) : halts deal w.
Proof.
  unfold halts, deal.
  destruct (if (length (shoe_cards (shoe w)) <=? 50)%nat
            then reshuffle (shoe w) (rng w) else (shoe w, rng w)) as [sh g].
  destruct (pop (shoe_cards sh)) as [[c rest]|]; discriminate.
Qed.

(** ** Hard totals *)

Lemma points_single (c : Card) : points [c] = card_value c.
Proof. unfold points. cbn. lia. Qed.

Lemma hard_total_add_card (h : Hand M) (c : Card) :
  hard_total (add_card h c) >= hard_total h + 1.
Proof.
  unfold hard_total, add_card. cbn [cards].
  rewrite points_app, count_aces_app, points_single.
  pose proof (card_value_ace c). lia.
Qed.

Lemma hard_points_ge_length (cs : list Card) :
  points cs - 10 * Z.of_nat (count_aces cs) >= Z.of_nat (length cs).
Proof.
  induction cs as [|c cs IH].
  - cbn. lia.
  - change (c :: cs) with ([c] ++ cs).
    rewrite points_app, count_aces_app, length_app, points_single.
    pose proof (card_value_ace c). cbn [length]. lia.
Qed.

Lemma hard_total_nonneg (h : Hand M) : 0 <= hard_total h.
Proof.
  unfold hard_total. pose proof (hard_points_ge_length (cards h)). lia.
Qed.

Lemma dealer_draws_iff (h : Hand M) :
  dealer_draws h = true
  <-> value h < 17 \/ (value h = 17 /\ is_soft h = true).
Proof.
  unfold dealer_draws.
  rewrite orb_true_iff, andb_true_iff, Z.ltb_lt, Z.eqb_eq. tauto.
Qed.

Lemma dealer_stands_iff (h : Hand M) :
  dealer_draws h = false
  <-> value h >= 18 \/ (value h = 17 /\ is_hard h = true).
Proof.
  unfold dealer_draws. rewrite is_soft_negb_hard.
  rewrite orb_false_iff, andb_false_iff, Z.ltb_ge, Z.eqb_neq, negb_false_iff.
  destruct (is_hard h); intuition (try lia; try discriminate).
Qed.

Lemma is_bust_false (h : Hand M) : is_bust h = false -> value h <= 21.
Proof. unfold is_bust. rewrite Z.gtb_ltb, Z.ltb_ge. auto. Qed.

Lemma is_bust_true (h : Hand M) : is_bust h = true -> value h > 21.
Proof. unfold is_bust. rewrite Z.gtb_ltb, Z.ltb_lt. lia. Qed.

(** ** The drawing loops stop *)

Lemma play_hand_halts (fuel : nat) :
  forall (h : Hand M) (up : Card) (a f : bool) (w : World M G),
    (1 <= fuel)%nat -> 22 <= Z.of_nat fuel + hard_total h ->
    halts (play_hand fuel h up a f) w.
Proof.
  induction fuel as [|fuel IH]; intros h up a f w H1 H22; [lia|].
  cbn [play_hand].
  destruct (should_hit h up a f); try discriminate.
  unfold halts, bind.
  pose proof (deal_halts w) as Hd. unfold halts in Hd.
  destruct (deal w) as [[c w1]| |]; [|discriminate|contradiction].
  cbv zeta. destruct (is_bust (add_card h c)) eqn:B; [discriminate|].
  apply is_bust_false in B.
  pose proof (value_ge_hard_total M (add_card h c)).
  pose proof (hard_total_add_card h c).
  apply IH; lia.
Qed.

Lemma play_dealer_hand_halts (fuel : nat) :
  forall (h : Hand M) (w : World M G),
    18 <= Z.of_nat fuel + hard_total h ->
    halts (play_dealer_hand fuel h) w.
Proof.
  induction fuel as [|fuel IH]; intros h w H18.
  - cbn [play_dealer_hand]. destruct (dealer_draws h) eqn:E; [|discriminate].
    apply dealer_draws_iff in E. pose proof (value_ge_hard_total M h). lia.
  - cbn [play_dealer_hand]. destruct (dealer_draws h) eqn:E; [|discriminate].
    unfold halts, bind.
    pose proof (deal_halts w) as Hd. unfold halts in Hd.
    destruct (deal w) as [[c w1]| |]; [|discriminate|contradiction].
    pose proof (hard_total_add_card h c).
    apply IH; lia.
Qed.

Lemma play_hand_returns (fuel : nat) :
  forall (h : Hand M) (up : Card) (a f : bool) (w : World M G),
    shoe_ok w -> (1 <= fuel)%nat -> 22 <= Z.of_nat fuel + hard_total h ->
    returns (play_hand fuel h up a f) w (fun _ w' => stats_kept w w').
Proof.
  induction fuel as [|fuel IH]; intros h up a f w Hok H1 H22; [lia|].
  cbn [play_hand].
  destruct (should_hit h up a f);
    try (apply returns_ret; apply stats_kept_refl).
  apply returns_bind.
  apply (returns_impl _ _ _ _ _ (returns_deal w Hok)).
  intros c w1 Hk. cbv zeta.
  destruct (is_bust (add_card h c)) eqn:B; [apply returns_ret; exact Hk|].
  apply is_bust_false in B.
  pose proof (value_ge_hard_total M (add_card h c)).
  pose proof (hard_total_add_card h c).
  eapply returns_impl.
  - apply IH; [eapply stats_kept_shoe_ok; eassumption|lia|lia].
  - intros ? w2 Hk2. cbv beta in Hk2 |- *.
    eapply stats_kept_trans; eassumption.
Qed.

Lemma play_dealer_hand_returns (fuel : nat) :
  forall (h : Hand M) (w : World M G),
    shoe_ok w -> 18 <= Z.of_nat fuel + hard_total h ->
    returns (play_dealer_hand fuel h) w (fun _ w' => stats_kept w w').
Proof.
  induction fuel as [|fuel IH]; intros h w Hok H18.
  - cbn [play_dealer_hand].
    destruct (dealer_draws h) eqn:E;
      [|apply returns_ret; apply stats_kept_refl].
    apply dealer_draws_iff in E. pose proof (value_ge_hard_total M h). lia.
  - cbn [play_dealer_hand].
    destruct (dealer_draws h) eqn:E;
      [|apply returns_ret; apply stats_kept_refl].
    apply returns_bind.
    apply (returns_impl _ _ _ _ _ (returns_deal w Hok)).
    intros c w1 Hk.
    pose proof (hard_total_add_card h c).
    eapply returns_impl.
    + apply IH; [eapply stats_kept_shoe_ok; eassumption|lia].
    + intros ? w2 Hk2. cbv beta in Hk2 |- *.
    eapply stats_kept_trans; eassumption.
Qed.

(** ** When the loops stop *)

Lemma play_hand_step (fuel : nat) (h : Hand M) (up : Card) (a f : bool)
    (w : World M G) :
  (should_hit h up a f = Stand ->
     play_hand (S fuel) h up a f w = Ret (h, w))
  /\ (should_hit h up a f = Surrender ->
        play_hand (S fuel) h up a f w = Ret (set_surrendered true h, w))
  /\ (forall c w1, should_hit h up a f = Hit -> deal w = Ret (c, w1) ->
        is_bust (add_card h c) = true ->
        play_hand (S fuel) h up a f w = Ret (add_card h c, w1))
  /\ (forall c w1, should_hit h up a f = Hit -> deal w = Ret (c, w1) ->
        is_bust (add_card h c) = false ->
        play_hand (S fuel) h up a f w = play_hand fuel (add_card h c) up a f w1).
Proof.
  cbn [play_hand]. repeat split.
  - intros ->. reflexivity.
  - intros ->. reflexivity.
  - intros c w1 -> Hd Hb. unfold bind. rewrite Hd. cbv zeta. now rewrite Hb.
  - intros c w1 -> Hd Hb. unfold bind. rewrite Hd. cbv zeta. now rewrite Hb.
Qed.

Lemma play_dealer_hand_stand (fuel : nat) (h : Hand M) (w : World M G) :
  dealer_draws h = false -> play_dealer_hand fuel h w = Ret (h, w).
Proof. intros E. destruct fuel; cbn [play_dealer_hand]; now rewrite E. Qed.

Lemma play_dealer_hand_draw (fuel : nat) (h : Hand M) (w : World M G) :
  dealer_draws h = true ->
  play_dealer_hand (S fuel) h w
  = bind deal (fun c => play_dealer_hand fuel (add_card h c)) w.
Proof. intros E. cbn [play_dealer_hand]. now rewrite E. Qed.

(** The dealer's final hand is the starting hand followed by the cards
    drawn; the guard held before each draw and fails at the end. *)
Lemma play_dealer_hand_trace (fuel : nat) :
  forall (h h' : Hand M) (w w' : World M G),
    play_dealer_hand fuel h w = Ret (h', w') ->
    exists drawn : list Card,
      h' = fold_left add_card drawn h
      /\ dealer_draws h' = false
      /\ forall n : nat, (n < length drawn)%nat ->
           dealer_draws (fold_left add_card (firstn n drawn) h) = true.
Proof.
  induction fuel as [|fuel IH]; intros h h' w w' Hrun;
    cbn [play_dealer_hand] in Hrun;
    destruct (dealer_draws h) eqn:E; try discriminate.
  - injection Hrun as <- <-. exists []. cbn. repeat split; [assumption|lia].
  - unfold bind in Hrun. destruct (deal w) as [[c w1]| |]; try discriminate.
    destruct (IH _ _ _ _ Hrun) as (drawn & Hh & Hstop & Hpre).
    exists (c :: drawn). repeat split; [assumption|assumption|].
    intros [|n] Hn; cbn [firstn fold_left]; [assumption|].
    apply Hpre. cbn in Hn. lia.
  - injection Hrun as <- <-. exists []. cbn. repeat split; [assumption|lia].
Qed.

Lemma any_live_iff (hs : list (Hand M)) :
  any_live hs = true
  <-> exists h, In h hs /\ is_bust h = false /\ surrendered h = false.
Proof.
  unfold any_live. rewrite existsb_exists.
  split; intros (h & Hin & Hc); exists h; split; try assumption.
  - apply andb_true_iff in Hc. now rewrite !negb_true_iff in Hc.
  - destruct Hc as [-> ->]. reflexivity.
Qed.

(** C6: the dealer draws exactly while the value is below 17 or is a soft
    17 ([A,6] draws, [J,7] stands); within a round the dealer's loop is
    entered only if the dealer was not dealt a blackjack and some player
    hand is neither bust nor surrendered. *)
Theorem dealer_play_rule :
  (forall h : Hand M,
      dealer_draws h = true
      <-> value h < 17 \/ (value h = 17 /\ is_soft h = true))
  /\ dealer_draws (hand_of [mkCard RA HEARTS; mkCard R6 CLUBS]) = true
  /\ dealer_draws (hand_of [mkCard RJ HEARTS; mkCard R7 CLUBS]) = false
  /\ (forall fuel (h : Hand M) (w : World M G),
        dealer_draws h = false -> play_dealer_hand fuel h w = Ret (h, w))
  /\ (forall fuel (h : Hand M) (w : World M G),
        dealer_draws h = true ->
        play_dealer_hand (S fuel) h w
        = bind deal (fun c => play_dealer_hand fuel (add_card h c)) w)
  /\ (forall fuel (h h' : Hand M) (w w' : World M G),
        play_dealer_hand fuel h w = Ret (h', w') ->
        exists drawn : list Card,
          h' = fold_left add_card drawn h
          /\ dealer_draws h' = false
          /\ forall n : nat, (n < length drawn)%nat ->
               dealer_draws (fold_left add_card (firstn n drawn) h) = true)
  /\ (forall fuel num_hands (regular_bet top_bet bottom_bet : M) auto,
        simulate_round (G:=G) fuel num_hands regular_bet top_bet bottom_bet auto
        = bind (initial_deal num_hands regular_bet) (fun dealt =>
          bind (side_bets (fst dealt) (snd dealt) top_bet bottom_bet mzero [])
            (fun sb =>
          bind (play_round fuel (fst dealt) (snd dealt)
                  (natural_21 (snd dealt)) auto (snd sb)) (fun played =>
          bind (settle (fst played) (snd played) (natural_21 (snd dealt))
                  regular_bet (fst sb)) (fun total_payout =>
          bind (modify_stats (upd_hands_played (fun n => n + num_hands)))
            (fun _ => ret total_payout))))))
  /\ (forall fuel hs (d : Hand M) auto flags (w : World M G),
        play_round fuel hs d true auto flags w = Ret ((hs, d), w))
  /\ (forall fuel hs hs' (d : Hand M) auto flags (w w1 : World M G),
        play_hands fuel 0 hs d auto flags w = Ret (hs', w1) ->
        (forall h, In h hs' -> is_bust h = true \/ surrendered h = true) ->
        play_round fuel hs d false auto flags w = Ret ((hs', d), w1))
  /\ (forall fuel hs hs' (d : Hand M) auto flags (w w1 : World M G),
        play_hands fuel 0 hs d auto flags w = Ret (hs', w1) ->
        (exists h, In h hs' /\ is_bust h = false /\ surrendered h = false) ->
        play_round fuel hs d false auto flags w
        = bind (play_dealer_hand fuel d) (fun d' => ret (hs', d')) w1).
Proof.
  split; [exact dealer_draws_iff|].
  split; [reflexivity|]. split; [reflexivity|].
  split; [exact play_dealer_hand_stand|].
  split; [exact play_dealer_hand_draw|].
  split; [intros fuel; exact (play_dealer_hand_trace fuel)|].
  split; [reflexivity|]. split; [reflexivity|].
  split.
  - intros fuel hs hs' d auto flags w w1 Hp Hall.
    unfold play_round. cbn [negb]. unfold bind at 1. rewrite Hp.
    destruct (any_live hs') eqn:E; [|reflexivity].
    apply any_live_iff in E. destruct E as (h & Hin & Hb & Hs).
    destruct (Hall h Hin); congruence.
  - intros fuel hs hs' d auto flags w w1 Hp Hex.
    unfold play_round. cbn [negb]. unfold bind at 1. rewrite Hp.
    apply any_live_iff in Hex. now rewrite Hex.
Qed.

(** C10, as the code has it: each dealt card raises the hard total (aces
    counted as 1) by at least 1 and the value is never below the hard
    total, so both loops stop within a fixed number of iterations from
    every hand and shoe, and return when the shoe has a deck;
    [play_hand] stops on stand, surrender or bust, and the dealer stops at
    a hard 17 or at 18 or more. *)
Theorem draw_loops_terminate :
  (forall (h : Hand M) (c : Card),
      hard_total (add_card h c) >= hard_total h + 1
      /\ hard_total h <= value h)
  /\ (forall fuel (h : Hand M) up a f (w : World M G),
        (22 <= fuel)%nat -> halts (play_hand fuel h up a f) w)
  /\ (forall fuel (h : Hand M) (w : World M G),
        (18 <= fuel)%nat -> halts (play_dealer_hand fuel h) w)
  /\ (forall fuel (h : Hand M) up a f (w : World M G),
        shoe_ok w -> (22 <= fuel)%nat ->
        exists h' w', play_hand fuel h up a f w = Ret (h', w'))
  /\ (forall fuel (h : Hand M) (w : World M G),
        shoe_ok w -> (18 <= fuel)%nat ->
        exists h' w', play_dealer_hand fuel h w = Ret (h', w'))
  /\ (forall fuel (h : Hand M) up a f (w : World M G),
        (should_hit h up a f = Stand ->
           play_hand (S fuel) h up a f w = Ret (h, w))
        /\ (should_hit h up a f = Surrender ->
              play_hand (S fuel) h up a f w = Ret (set_surrendered true h, w))
        /\ (forall c w1, should_hit h up a f = Hit -> deal w = Ret (c, w1) ->
              is_bust (add_card h c) = true ->
              play_hand (S fuel) h up a f w = Ret (add_card h c, w1))
        /\ (forall c w1, should_hit h up a f = Hit -> deal w = Ret (c, w1) ->
              is_bust (add_card h c) = false ->
              play_hand (S fuel) h up a f w
              = play_hand fuel (add_card h c) up a f w1))
  /\ (forall fuel (h : Hand M) (w : World M G),
        value h >= 18 \/ (value h = 17 /\ is_hard h = true) ->
        play_dealer_hand fuel h w = Ret (h, w)).
Proof.
  split.
  { intros h c. split; [apply hard_total_add_card|apply value_ge_hard_total]. }
  split.
  { intros fuel h up a f w Hf. pose proof (hard_total_nonneg h).
    apply play_hand_halts; lia. }
  split.
  { intros fuel h w Hf. pose proof (hard_total_nonneg h).
    apply play_dealer_hand_halts; lia. }
  split.
  { intros fuel h up a f w Hok Hf. pose proof (hard_total_nonneg h).
    destruct (returns_inv _ _ _ _ (play_hand_returns fuel h up a f w Hok
                ltac:(lia) ltac:(lia))) as (h' & w' & Hr & _).
    eauto. }
  split.
  { intros fuel h w Hok Hf. pose proof (hard_total_nonneg h).
    destruct (returns_inv _ _ _ _ (play_dealer_hand_returns fuel h w Hok
                ltac:(lia))) as (h' & w' & Hr & _).
    eauto. }
  split; [exact play_hand_step|].
  intros fuel h w Hstop. apply play_dealer_hand_stand.
  now apply dealer_stands_iff.
Qed.

(** ** Hand counters over a round *)

Lemma tally_total (os : list HandOutcome) :
  tally Won os + tally Lost os + tally Pushed os + tally Surrendered os
  = Z.of_nat (length os).
Proof.
  unfold tally. induction os as [|o os IH]; [reflexivity|].
  cbn [filter length]. destruct o; cbn [HandOutcome_eqb length]; lia.
Qed.

Lemma tally_app (o : HandOutcome) (os1 os2 : list HandOutcome) :
  tally o (os1 ++ os2) = tally o os1 + tally o os2.
Proof. unfold tally. rewrite filter_app, length_app. lia. Qed.

Lemma tallied_nil (st : Stats M) : tallied [] st st.
Proof. unfold tallied, tally. cbn. repeat split; lia. Qed.

Lemma tallied_app (os1 os2 : list HandOutcome) (st1 st2 st3 : Stats M) :
  tallied os1 st1 st2 -> tallied os2 st2 st3 -> tallied (os1 ++ os2) st1 st3.
Proof.
  unfold tallied. rewrite !tally_app.
  intros (? & ? & ? & ? & ?) (? & ? & ? & ? & ?). repeat split; lia.
Qed.

Lemma settled_nil (w w' : World M G) : stats_kept w w' -> settled [] w w'.
Proof.
  intros [Hs Hn]. split; [rewrite Hs; apply tallied_nil|assumption].
Qed.

Lemma settled_app (os1 os2 : list HandOutcome) (w1 w2 w3 : World M G) :
  settled os1 w1 w2 -> settled os2 w2 w3 -> settled (os1 ++ os2) w1 w3.
Proof.
  intros [Ht1 Hn1] [Ht2 Hn2].
  split; [eapply tallied_app; eassumption|congruence].
Qed.

Lemma settled_shoe_ok (os : list HandOutcome) (w w' : World M G) :
  settled os w w' -> shoe_ok w -> shoe_ok w'.
Proof. unfold shoe_ok. intros [_ ->]. auto. Qed.

Ltac tallied_now :=
  unfold tallied, tally, incr; cbn; repeat split; lia.

Lemma determine_winner_tallied (ph dh : Hand M) (st : Stats M) :
  exists o, tallied [o] st (snd (determine_winner ph dh st))
            /\ (surrendered ph = true -> o = Surrendered).
Proof.
  unfold determine_winner.
  destruct (surrendered ph).
  { exists Surrendered. split; [tallied_now|reflexivity]. }
  repeat match goal with
         | |- context [if ?b then _ else _] => destruct b
         end; cbv zeta;
    repeat match goal with
           | |- context [if ?b then _ else _] => destruct b
           end; cbn [snd];
    match goal with
    | |- context [upd_hands_won] => exists Won
    | |- context [upd_hands_lost] => exists Lost
    | |- context [upd_hands_pushed] => exists Pushed
    end; (split; [tallied_now|discriminate]).
Qed.

Ltac run_step :=
  first
    [ apply returns_bind
    | apply returns_modify
    | apply returns_ret
    | apply returns_index; [cbn; lia | intros ? _]
    | match goal with
      | |- returns (if ?b then _ else _) _ _ => destruct b
      end
    | progress cbv beta zeta
    | progress cbn [fst snd] ].

Ltac settled_now :=
  unfold settled, tallied, tally, incr; cbn; repeat split; lia.

Lemma settle_hand_returns (h d : Hand M) (dbj : bool) (bet tot : M)
    (w : World M G) :
  returns (settle_hand h d dbj bet tot) w
    (fun tot' w' =>
       exists o, settled [o] w w'
                 /\ (dbj = true -> is_blackjack h = false ->
                     o = Lost /\ tot' = tot)
                 /\ (dbj = false -> surrendered h = true -> o = Surrendered)).
Proof.
  unfold settle_hand. apply returns_bind, returns_modify.
  destruct dbj.
  - destruct (is_blackjack h); repeat run_step.
    + exists Pushed. split; [settled_now|]. split; discriminate.
    + exists Lost. split; [settled_now|]. split; [auto|discriminate].
  - apply returns_bind. unfold returns at 1, run_determine_winner.
    cbn [stats shoe rng].
    match goal with |- context [determine_winner h d ?st] =>
      destruct (determine_winner_tallied h d st) as (o & Ht & Hs);
      destruct (determine_winner h d st) as [multiplier st'] end.
    cbn [snd] in Ht. repeat run_step.
    exists o. split; [|split; [discriminate|auto]].
    unfold settled, tallied in *. cbn in *. intuition lia.
Qed.

Lemma settle_returns (d : Hand M) (dbj : bool) (bet : M) (hs : list (Hand M)) :
  forall (tot : M) (w : World M G),
    returns (settle hs d dbj bet tot) w
      (fun tot' w' =>
         exists os, length os = length hs /\ settled os w w'
                    /\ (dbj = true ->
                        Forall (fun h => is_blackjack h = false) hs ->
                        os = repeat Lost (length hs) /\ tot' = tot)).
Proof.
  induction hs as [|h hs IH]; intros tot w; cbn [settle].
  - apply returns_ret. exists []. split; [reflexivity|].
    split; [apply settled_nil, stats_kept_refl|]. auto.
  - apply returns_bind.
    apply (returns_impl _ _ _ _ _ (settle_hand_returns h d dbj bet tot w)).
    intros tot1 w1 (o & Ho & Hbj & _).
    apply (returns_impl _ _ _ _ _ (IH tot1 w1)).
    intros tot2 w2 (os & Hlen & Hos & Hall).
    exists ([o] ++ os). split; [cbn; lia|].
    split; [eapply settled_app; eassumption|].
    intros Hd Hf. apply Forall_cons_iff in Hf. destruct Hf as [Hh Hrest].
    destruct (Hbj Hd Hh) as [-> ->].
    destruct (Hall Hd Hrest) as [-> ->].
    split; reflexivity.
Qed.

Lemma unmarked_add_card (k : nat) (h : Hand M) (c : Card) :
  unmarked k h -> unmarked (S k) (add_card h c).
Proof.
  unfold unmarked, add_card. cbn [cards surrendered is_blackjack].
  rewrite length_app. cbn [length]. intros (? & ? & ?).
  repeat split; try assumption; lia.
Qed.

Lemma unmarked_set_bet (k : nat) (h : Hand M) (b : M) :
  unmarked k h -> unmarked k (set_bet b h).
Proof. unfold unmarked, set_bet. auto. Qed.

Lemma deal_first_returns (bet : M) (k : nat) (hs : list (Hand M)) :
  forall w : World M G,
    shoe_ok w -> Forall (unmarked k) hs ->
    returns (deal_first hs bet) w
      (fun hs' w' => stats_kept w w' /\ length hs' = length hs
                     /\ Forall (unmarked (S k)) hs').
Proof.
  induction hs as [|h hs IH]; intros w Hok Hall; cbn [deal_first].
  - apply returns_ret. split; [apply stats_kept_refl|]. split; auto.
  - inversion Hall as [|? ? Hh Hrest]; subst.
    apply returns_bind.
    apply (returns_impl _ _ _ _ _ (returns_deal w Hok)).
    intros c w1 Hk1. apply returns_bind.
    apply (returns_impl _ _ _ _ _
             (IH w1 (stats_kept_shoe_ok _ _ Hk1 Hok) Hrest)).
    intros hs' w2 (Hk2 & Hlen & Hall'). apply returns_ret.
    split; [eapply stats_kept_trans; eassumption|].
    split; [cbn; lia|].
    constructor; [|assumption].
    apply unmarked_set_bet, unmarked_add_card, Hh.
Qed.

Lemma deal_second_returns (k : nat) (hs : list (Hand M)) :
  forall w : World M G,
    shoe_ok w -> Forall (unmarked k) hs ->
    returns (deal_second hs) w
      (fun hs' w' => stats_kept w w' /\ length hs' = length hs
                     /\ Forall (unmarked (S k)) hs').
Proof.
  induction hs as [|h hs IH]; intros w Hok Hall; cbn [deal_second].
  - apply returns_ret. split; [apply stats_kept_refl|]. split; auto.
  - inversion Hall as [|? ? Hh Hrest]; subst.
    apply returns_bind.
    apply (returns_impl _ _ _ _ _ (returns_deal w Hok)).
    intros c w1 Hk1. apply returns_bind.
    apply (returns_impl _ _ _ _ _
             (IH w1 (stats_kept_shoe_ok _ _ Hk1 Hok) Hrest)).
    intros hs' w2 (Hk2 & Hlen & Hall'). apply returns_ret.
    split; [eapply stats_kept_trans; eassumption|].
    split; [cbn; lia|].
    constructor; [|assumption].
    apply unmarked_add_card, Hh.
Qed.

Lemma unmarked_new_hand : unmarked 0 (new_hand (M:=M)).
Proof. repeat split. Qed.

Lemma initial_deal_returns (num_hands : Z) (bet : M) (w : World M G) :
  shoe_ok w ->
  returns (initial_deal num_hands bet) w
    (fun r w' => stats_kept w w'
                 /\ length (fst r) = Z.to_nat num_hands
                 /\ Forall (unmarked 2) (fst r)
                 /\ unmarked 2 (snd r)).
Proof.
  intros Hok. unfold initial_deal. cbv zeta.
  apply returns_bind.
  eapply returns_impl.
  { apply (deal_first_returns bet 0); [exact Hok|].
    apply Forall_forall. intros h Hin. apply repeat_spec in Hin. subst h.
    apply unmarked_new_hand. }
  intros hs1 w1 (Hk1 & Hlen1 & Hall1). cbv beta.
  rewrite repeat_length in Hlen1.
  pose proof (stats_kept_shoe_ok _ _ Hk1 Hok) as Hok1.
  apply returns_bind.
  apply (returns_impl _ _ _ _ _ (returns_deal w1 Hok1)).
  intros c1 w2 Hk2.
  pose proof (stats_kept_shoe_ok _ _ Hk2 Hok1) as Hok2.
  apply returns_bind.
  apply (returns_impl _ _ _ _ _ (deal_second_returns 1 hs1 w2 Hok2 Hall1)).
  intros hs2 w3 (Hk3 & Hlen2 & Hall2).
  pose proof (stats_kept_shoe_ok _ _ Hk3 Hok2) as Hok3.
  apply returns_bind.
  apply (returns_impl _ _ _ _ _ (returns_deal w3 Hok3)).
  intros c2 w4 Hk4. apply returns_ret. cbn [fst snd].
  split.
  { eapply stats_kept_trans; [|eassumption].
    eapply stats_kept_trans; [|eassumption].
    eapply stats_kept_trans; eassumption. }
  split; [lia|]. split; [assumption|].
  apply unmarked_add_card, unmarked_add_card, unmarked_new_hand.
Qed.

Lemma side_bets_hand_returns (h d : Hand M) (top_bet bottom_bet tot : M)
    (w : World M G) :
  length (cards d) = 2%nat ->
  returns (side_bets_hand h d top_bet bottom_bet tot) w
    (fun _ w' => settled [] w w').
Proof.
  intros Hd. unfold side_bets_hand.
  repeat (rewrite ?Hd; run_step); settled_now.
Qed.

Lemma side_bets_returns (d : Hand M) (top_bet bottom_bet : M)
    (hs : list (Hand M)) :
  forall (tot : M) (flags : list bool) (w : World M G),
    length (cards d) = 2%nat ->
    returns (side_bets hs d top_bet bottom_bet tot flags) w
      (fun r w' => settled [] w w'
                   /\ length (snd r) = (length flags + length hs)%nat).
Proof.
  induction hs as [|h hs IH]; intros tot flags w Hd; cbn [side_bets].
  - apply returns_ret. split; [apply settled_nil, stats_kept_refl|cbn; lia].
  - apply returns_bind.
    apply (returns_impl _ _ _ _ _
             (side_bets_hand_returns h d top_bet bottom_bet tot w Hd)).
    intros r w1 H1.
    apply (returns_impl _ _ _ _ _ (IH (fst r) (flags ++ [snd r]) w1 Hd)).
    intros r2 w2 (H2 & Hlen). split.
    + apply (settled_app [] [] _ _ _ H1 H2).
    + rewrite Hlen, length_app. cbn. lia.
Qed.

Lemma play_hands_returns (fuel : nat) (d : Hand M) (auto : bool)
    (flags : list bool) (hs : list (Hand M)) :
  forall (i : nat) (w : World M G),
    shoe_ok w -> (22 <= fuel)%nat ->
    (i + length hs <= length flags)%nat -> (0 < length (cards d))%nat ->
    returns (play_hands fuel i hs d auto flags) w
      (fun hs' w' => stats_kept w w' /\ length hs' = length hs).
Proof.
  induction hs as [|h hs IH]; intros i w Hok Hf Hfl Hd; cbn [play_hands].
  - apply returns_ret. split; [apply stats_kept_refl|reflexivity].
  - cbn [length] in Hfl. apply returns_bind.
    apply returns_impl with (P := fun _ w1 => stats_kept w w1).
    all: cycle 1.
    + intros h' w1 Hk1. cbv beta in Hk1. apply returns_bind.
      apply (returns_impl _ _ _ _ _
               (IH (S i) w1 (stats_kept_shoe_ok _ _ Hk1 Hok) Hf
                  ltac:(lia) Hd)).
      intros hs' w2 (Hk2 & Hlen). apply returns_ret.
      split; [eapply stats_kept_trans; eassumption|cbn; lia].
    + destruct (natural_21 h); [apply returns_ret, stats_kept_refl|].
      apply returns_bind, returns_index; [lia|]. intros up _.
      apply returns_bind, returns_index; [lia|]. intros flag _.
      pose proof (hard_total_nonneg h).
      apply play_hand_returns; [assumption|lia|lia].
Qed.

Lemma play_round_returns (fuel : nat) (hs : list (Hand M)) (d : Hand M)
    (dbj auto : bool) (flags : list bool) (w : World M G) :
  shoe_ok w -> (22 <= fuel)%nat ->
  (length hs <= length flags)%nat -> (0 < length (cards d))%nat ->
  returns (play_round fuel hs d dbj auto flags) w
    (fun r w' => stats_kept w w' /\ length (fst r) = length hs
                 /\ (dbj = true -> r = (hs, d))).
Proof.
  intros Hok Hf Hfl Hd. unfold play_round. destruct dbj; cbn [negb].
  - apply returns_ret. split; [apply stats_kept_refl|]. split; auto.
  - apply returns_bind.
    apply (returns_impl _ _ _ _ _
             (play_hands_returns fuel d auto flags hs 0 w Hok Hf
                ltac:(lia) Hd)).
    intros hs' w1 (Hk1 & Hlen).
    destruct (any_live hs').
    + apply returns_bind.
      pose proof (hard_total_nonneg d).
      apply (returns_impl _ _ _ _ _
               (play_dealer_hand_returns fuel d w1
                  (stats_kept_shoe_ok _ _ Hk1 Hok) ltac:(lia))).
      intros d' w2 Hk2. apply returns_ret. cbn [fst].
      split; [eapply stats_kept_trans; eassumption|].
      split; [assumption|discriminate].
    + apply returns_ret. cbn [fst].
      split; [assumption|]. split; [assumption|discriminate].
Qed.

Lemma returns_impl_eq (A : Type) (m : Run M G A) (w : World M G)
    (P P' : A -> World M G -> Prop) :
  returns m w P ->
  (forall a w', m w = Ret (a, w') -> P a w' -> P' a w') ->
  returns m w P'.
Proof.
  unfold returns. destruct (m w) as [[a w1]| |]; auto.
Qed.

(** One round: it returns, every hand went to one of the four counters
    and [hands_played] grew by [num_hands]; under a dealer blackjack the
    regular bets return nothing and every hand is counted lost. *)
Lemma simulate_round_returns (fuel : nat) (num_hands : Z)
    (regular_bet top_bet bottom_bet : M) (auto : bool) (w : World M G) :
  0 <= num_hands -> shoe_ok w -> (22 <= fuel)%nat ->
  returns (simulate_round fuel num_hands regular_bet top_bet bottom_bet auto) w
    (fun payout w' =>
       exists os : list HandOutcome,
         Z.of_nat (length os) = num_hands
         /\ hands_played (stats w') = hands_played (stats w) + num_hands
         /\ hands_won (stats w') = hands_won (stats w) + tally Won os
         /\ hands_lost (stats w') = hands_lost (stats w) + tally Lost os
         /\ hands_pushed (stats w') = hands_pushed (stats w) + tally Pushed os
         /\ hands_surrendered (stats w')
            = hands_surrendered (stats w) + tally Surrendered os
         /\ shoe_ok w'
         /\ forall hs d w1 sb w2,
              initial_deal num_hands regular_bet w = Ret ((hs, d), w1) ->
              natural_21 d = true ->
              side_bets hs d top_bet bottom_bet mzero [] w1 = Ret (sb, w2) ->
              os = repeat Lost (length hs) /\ payout = fst sb).
Proof.
  intros Hn Hok Hf. unfold simulate_round.
  apply returns_bind.
  apply (returns_impl_eq _ _ _ _ _
           (initial_deal_returns num_hands regular_bet w Hok)).
  intros dealt w1' Edeal (Hk1 & Hlen & Hall & Hd). cbv zeta.
  pose proof Hd as (Hd2 & _ & _).
  pose proof (stats_kept_shoe_ok _ _ Hk1 Hok) as Hok1.
  apply returns_bind.
  pose proof (side_bets_returns (snd dealt) top_bet bottom_bet (fst dealt)
                mzero [] w1' Hd2) as Hside.
  apply (returns_impl_eq _ _ _ _ _ Hside).
  intros sb w2 Eside (Hs2 & Hflags).
  pose proof (settled_shoe_ok _ _ _ Hs2 Hok1) as Hok2.
  apply returns_bind.
  eapply returns_impl.
  { apply (play_round_returns fuel (fst dealt) (snd dealt)
             (natural_21 (snd dealt)) auto (snd sb) w2 Hok2 Hf).
    - rewrite Hflags. cbn. lia.
    - rewrite Hd2. lia. }
  intros played w3 (Hk3 & Hlen3 & Hbj). cbv beta.
  apply returns_bind.
  apply (returns_impl _ _ _ _ _
           (settle_returns (snd played) (natural_21 (snd dealt)) regular_bet
              (fst played) (fst sb) w3)).
  intros payout w4 (os & Hlos & Hs4 & Hlost).
  apply returns_bind, returns_modify, returns_ret.
  exists os.
  assert (Hs : settled os w w4).
  { change os with ([] ++ os).
    eapply settled_app; [|eassumption].
    change (@nil HandOutcome) with (@nil HandOutcome ++ []).
    eapply settled_app; [|apply settled_nil; eassumption].
    change (@nil HandOutcome) with (@nil HandOutcome ++ []).
    eapply settled_app; [apply settled_nil; eassumption|eassumption]. }
  destruct Hs as ((Hp & Hw & Hl & Hpu & Hsu) & Hnd).
  cbn [stats shoe upd_hands_played hands_played hands_won hands_lost
       hands_pushed hands_surrendered].
  split; [lia|]. split; [lia|]. repeat (split; [assumption|]).
  split; [unfold shoe_ok in *; cbn [shoe]; rewrite Hnd; exact Hok|].
  intros hs0 d0 w10 sb0 w20 Edeal0 Hnat Eside0.
  rewrite Edeal in Edeal0. injection Edeal0 as -> ->.
  cbn [fst snd] in *.
  rewrite Eside in Eside0. injection Eside0 as -> ->.
  rewrite (Hbj Hnat) in Hlost. cbn [fst] in Hlost.
  apply Hlost; [assumption|].
  eapply Forall_impl; [|exact Hall].
  intros h (_ & _ & Hb). exact Hb.
Qed.

Lemma tally_repeat_Lost (n : nat) :
  tally Won (repeat Lost n) = 0
  /\ tally Lost (repeat Lost n) = Z.of_nat n
  /\ tally Pushed (repeat Lost n) = 0
  /\ tally Surrendered (repeat Lost n) = 0.
Proof.
  unfold tally. induction n as [|n (Hw & Hl & Hp & Hs)]; cbn [repeat filter].
  - repeat split.
  - cbn [HandOutcome_eqb length]. repeat split; lia.
Qed.

(** What a round does once the dealer has been dealt a natural: the
    payout is the side-bet total alone, every hand goes to [hands_lost]
    and none to [hands_pushed], whatever the players hold. *)
Lemma dealer_blackjack_all_lose (fuel : nat) (num_hands : Z)
    (regular_bet top_bet bottom_bet : M) (auto : bool) (w w1 w2 : World M G)
    (hs : list (Hand M)) (d : Hand M) (sb : M * list bool) :
  0 <= num_hands -> shoe_ok w -> (22 <= fuel)%nat ->
  initial_deal num_hands regular_bet w = Ret ((hs, d), w1) ->
  natural_21 d = true ->
  side_bets hs d top_bet bottom_bet mzero [] w1 = Ret (sb, w2) ->
  exists w',
    simulate_round fuel num_hands regular_bet top_bet bottom_bet auto w
    = Ret (fst sb, w')
    /\ hands_lost (stats w') = hands_lost (stats w) + num_hands
    /\ hands_pushed (stats w') = hands_pushed (stats w)
    /\ hands_won (stats w') = hands_won (stats w).
Proof.
  intros Hn Hok Hf Edeal Hnat Eside.
  destruct (returns_inv _ _ _ _
              (simulate_round_returns fuel num_hands regular_bet top_bet
                 bottom_bet auto w Hn Hok Hf))
    as (payout & w' & Erun & os & Hlen & _ & Hw & Hl & Hp & _ & _ & Hbj).
  destruct (Hbj _ _ _ _ _ Edeal Hnat Eside) as [Hos ->].
  exists w'. split; [assumption|].
  destruct (tally_repeat_Lost (length hs)) as (Tw & Tl & Tp & _).
  rewrite Hos in Hw, Hl, Hp, Hlen. rewrite repeat_length in Hlen.
  rewrite Tw in Hw. rewrite Tl in Hl. rewrite Tp in Hp.
  repeat split; lia.
Qed.

Lemma new_simulator_ok (g : G) :
  shoe_ok (new_simulator g)
  /\ hands_played (stats (new_simulator g)) = 0
  /\ counters_balanced (stats (new_simulator g)).
Proof.
  unfold new_simulator, reshuffle. cbn [num_decks].
  destruct (shuffle g (fresh_cards 8)) as [cs g'].
  unfold shoe_ok, counters_balanced. cbn. repeat split; lia.
Qed.

Lemma simulate_rounds_returns (fuel : nat) (num_hands : Z)
    (regular_bet top_bet bottom_bet : M) (auto : bool) (n : nat) :
  forall w : World M G,
    0 <= num_hands -> shoe_ok w -> (22 <= fuel)%nat ->
    counters_balanced (stats w) ->
    returns
      (simulate_rounds n fuel num_hands regular_bet top_bet bottom_bet auto) w
      (fun _ w' =>
         hands_played (stats w')
         = hands_played (stats w) + Z.of_nat n * num_hands
         /\ counters_balanced (stats w')).
Proof.
  induction n as [|n IH]; intros w Hn Hok Hf Hbal; cbn [simulate_rounds].
  - apply returns_ret. split; [lia|assumption].
  - apply returns_bind.
    apply (returns_impl _ _ _ _ _
             (simulate_round_returns fuel num_hands regular_bet top_bet
                bottom_bet auto w Hn Hok Hf)).
    intros payout w1 (os & Hlen & Hp & Hw & Hl & Hpu & Hs & Hok1 & _).
    pose proof (tally_total os) as Htot.
    assert (Hbal1 : counters_balanced (stats w1))
      by (unfold counters_balanced in *; lia).
    apply (returns_impl _ _ _ _ _ (IH w1 Hn Hok1 Hf Hbal1)).
    intros ? w2 (Hp2 & Hbal2). split; [lia|assumption].
Qed.

(** * Further properties *)

(** ** Cards and hand values *)

Lemma count_aces_cons (c : Card) (cs : list Card) :
  count_aces (c :: cs) = (count_aces [c] + count_aces cs)%nat.
Proof. change (c :: cs) with ([c] ++ cs). apply count_aces_app. Qed.

Lemma count_aces_le_length (cs : list Card) :
  (count_aces cs <= length cs)%nat.
Proof. unfold count_aces. apply filter_length_le. Qed.

Lemma points_perm (cs ds : list Card) :
  Permutation cs ds -> points cs = points ds.
Proof.
  induction 1 as [|c cs ds _ IH|c d cs|cs ds es _ IH1 _ IH2].
  - reflexivity.
  - rewrite !points_cons, IH. reflexivity.
  - rewrite !points_cons. lia.
  - congruence.
Qed.

Lemma count_aces_perm (cs ds : list Card) :
  Permutation cs ds -> count_aces cs = count_aces ds.
Proof.
  induction 1 as [|c cs ds _ IH|c d cs|cs ds es _ IH1 _ IH2].
  - reflexivity.
  - rewrite (count_aces_cons c cs), (count_aces_cons c ds), IH. reflexivity.
  - rewrite (count_aces_cons d), (count_aces_cons c),
      (count_aces_cons c (d :: cs)), (count_aces_cons d cs). lia.
  - congruence.
Qed.

(** X2: the value and the hard/soft status of a hand do not depend on the
    order in which its cards were received. *)
Theorem value_order_irrelevant (h h' : Hand M) :
  Permutation (cards h) (cards h') ->
  value h = value h' /\ is_hard h = is_hard h' /\ is_soft h = is_soft h'
  /\ is_bust h = is_bust h'.
Proof.
  intros Hp.
  assert (Hv : value h = value h')
    by (unfold value; now rewrite (points_perm _ _ Hp), (count_aces_perm _ _ Hp)).
  assert (Hh : is_hard h = is_hard h')
    by (unfold is_hard; now rewrite (points_perm _ _ Hp), (count_aces_perm _ _ Hp)).
  split; [assumption|]. split; [assumption|].
  split; [now rewrite !is_soft_negb_hard, Hh|].
  unfold is_bust. now rewrite Hv.
Qed.

(** The number [k] of aces the reduction loop turned into 1s determines
    the value and the status of the hand, and is pinned down by the
    loop's stopping rule. *)
Lemma reduce_aces_unique (aces k : nat) (total : Z) :
  (k <= aces)%nat ->
  (forall j : nat, (j < k)%nat -> total - 10 * Z.of_nat j > 21) ->
  ((k < aces)%nat -> total - 10 * Z.of_nat k <= 21) ->
  reduce_aces total aces = (total - 10 * Z.of_nat k, (aces - k)%nat).
Proof.
  intros Hk Hj Hs.
  destruct (reduce_aces_spec aces total) as (k' & Hk' & Hr & Hj' & Hs').
  assert (k = k').
  { destruct (Nat.lt_trichotomy k k') as [Hlt|[Heq|Hgt]]; [|assumption|].
    - specialize (Hj' k Hlt). specialize (Hs ltac:(lia)). lia.
    - specialize (Hj k' Hgt). specialize (Hs' ltac:(lia)). lia. }
  subst k'. exact Hr.
Qed.

Lemma hand_of_reductions (h : Hand M) (k : nat) :
  (k <= count_aces (cards h))%nat ->
  (forall j : nat, (j < k)%nat ->
     points (cards h) - 10 * Z.of_nat j > 21) ->
  ((k < count_aces (cards h))%nat ->
     points (cards h) - 10 * Z.of_nat k <= 21) ->
  value h = points (cards h) - 10 * Z.of_nat k
  /\ is_soft h = negb (Nat.eqb (count_aces (cards h) - k) 0).
Proof.
  intros Hk Hj Hs.
  pose proof (reduce_aces_unique _ _ _ Hk Hj Hs) as Hr.
  rewrite is_soft_negb_hard. unfold value, is_hard. rewrite Hr. cbn [fst snd].
  split; [reflexivity|].
  destruct (Nat.eqb_spec (count_aces (cards h)) 0) as [E|E]; [|reflexivity].
  replace (count_aces (cards h) - k)%nat with 0%nat by lia. reflexivity.
Qed.

Lemma hand_reductions (h : Hand M) :
  exists k : nat,
    (k <= count_aces (cards h))%nat
    /\ (forall j : nat, (j < k)%nat ->
          points (cards h) - 10 * Z.of_nat j > 21)
    /\ ((k < count_aces (cards h))%nat ->
          points (cards h) - 10 * Z.of_nat k <= 21)
    /\ value h = points (cards h) - 10 * Z.of_nat k
    /\ is_soft h = negb (Nat.eqb (count_aces (cards h) - k) 0)
    /\ (count_aces (cards h) - k <= 1)%nat.
Proof.
  destruct (reduce_aces_spec (count_aces (cards h)) (points (cards h)))
    as (k & Hk & Hr & Hj & Hs).
  exists k. split; [assumption|]. split; [assumption|]. split; [assumption|].
  destruct (hand_of_reductions h k Hk Hj Hs) as [Hv Hsoft].
  split; [assumption|]. split; [assumption|].
  destruct (Nat.le_gt_cases (count_aces (cards h) - k) 1) as [|Hgt];
    [assumption|].
  specialize (Hs ltac:(lia)).
  pose proof (hard_points_ge_length (cards h)).
  pose proof (count_aces_le_length (cards h)). lia.
Qed.

(** X3: a soft hand counts exactly one ace as 11: its value is the hard
    total plus 10 and lies between 11 and 21, so it is never bust; a hard
    hand is worth its hard total. *)
Theorem soft_hand_value (h : Hand M) :
  (is_soft h = true ->
     value h = hard_total h + 10 /\ 11 <= value h <= 21
     /\ is_bust h = false)
  /\ (is_hard h = true -> value h = hard_total h).
Proof.
  destruct (hand_reductions h) as (k & Hk & Hj & Hs & Hv & Hsoft & Hone).
  pose proof (hard_points_ge_length (cards h)) as Hlen.
  pose proof (count_aces_le_length (cards h)) as Hal.
  unfold hard_total, is_bust. rewrite is_soft_negb_hard in Hsoft.
  split.
  - intros Hso. rewrite is_soft_negb_hard, Hsoft in Hso.
    apply negb_true_iff, Nat.eqb_neq in Hso.
    specialize (Hs ltac:(lia)).
    split; [lia|]. split; [lia|].
    rewrite Z.gtb_ltb. apply Z.ltb_ge. lia.
  - intros Hh. rewrite Hh in Hsoft. symmetry in Hsoft.
    apply negb_false_iff, Nat.eqb_eq in Hsoft. lia.
Qed.

Lemma add_card_state (h : Hand M) (c : Card) :
  points (cards (add_card h c)) = points (cards h) + card_value c
  /\ count_aces (cards (add_card h c))
     = (count_aces (cards h) + if is_ace c then 1 else 0)%nat
  /\ (is_ace c = true -> card_value c = 11)
  /\ (is_ace c = false -> 2 <= card_value c <= 10).
Proof.
  unfold add_card. cbn [cards].
  rewrite points_app, count_aces_app, points_single.
  unfold count_aces at 2, is_ace, card_value. cbn [filter].
  destruct (rank c); cbn; repeat split; try lia; try discriminate.
Qed.

Lemma value_add_card (h : Hand M) (c : Card) :
  (value (add_card h c), is_soft (add_card h c))
  = next_total (value h) (is_soft h) c.
Proof.
  destruct (hand_reductions h) as (k & Hk & Hj & Hs & Hv & Hsoft & Hone).
  destruct (add_card_state h c) as (Hp & Ha & Hace & Hnon).
  unfold next_total. rewrite Hsoft, Hv.
  assert (Hfrom : forall k' : nat,
    (k' <= count_aces (cards (add_card h c)))%nat ->
    (forall j : nat, (j < k')%nat ->
       points (cards (add_card h c)) - 10 * Z.of_nat j > 21) ->
    ((k' < count_aces (cards (add_card h c)))%nat ->
       points (cards (add_card h c)) - 10 * Z.of_nat k' <= 21) ->
    (value (add_card h c), is_soft (add_card h c))
    = (points (cards (add_card h c)) - 10 * Z.of_nat k',
       negb (Nat.eqb (count_aces (cards (add_card h c)) - k') 0))).
  { intros k' H1 H2 H3.
    destruct (hand_of_reductions (add_card h c) k' H1 H2 H3) as [-> ->].
    reflexivity. }
  rewrite Hp, Ha in Hfrom.
  destruct (is_ace c).
  - specialize (Hace eq_refl). clear Hnon. rewrite Hace in *.
    destruct (Nat.eqb_spec (count_aces (cards h) - k) 0) as [Eh|Es];
      cbn [negb].
    + (* hard hand, ace drawn *)
      destruct (Z.leb_spec (points (cards h) - 10 * Z.of_nat k + 11) 21).
      * rewrite (Hfrom k); [|lia| |lia].
        { f_equal; [lia|].
          replace (count_aces (cards h) + 1 - k)%nat with 1%nat by lia.
          reflexivity. }
        intros j Hlt. specialize (Hj j Hlt). lia.
      * rewrite (Hfrom (S k)); [|lia| |lia].
        { f_equal; [lia|].
          replace (count_aces (cards h) + 1 - S k)%nat with 0%nat by lia.
          reflexivity. }
        intros j Hlt.
        destruct (Nat.eq_dec j k) as [->|]; [lia|].
        specialize (Hj j ltac:(lia)). lia.
    + (* soft hand, ace drawn *)
      specialize (Hs ltac:(lia)).
      destruct (Z.leb_spec (points (cards h) - 10 * Z.of_nat k + 1) 21).
      * rewrite (Hfrom (S k)); [|lia| |lia].
        { f_equal; [lia|].
          replace (count_aces (cards h) + 1 - S k)%nat with 1%nat by lia.
          reflexivity. }
        intros j Hlt.
        destruct (Nat.eq_dec j k) as [->|]; [|specialize (Hj j ltac:(lia)); lia].
        pose proof (hard_points_ge_length (cards h)).
        pose proof (count_aces_le_length (cards h)). lia.
      * rewrite (Hfrom (S (S k))); [|lia| |lia].
        { f_equal; [lia|].
          replace (count_aces (cards h) + 1 - S (S k))%nat with 0%nat by lia.
          reflexivity. }
        intros j Hlt.
        destruct (Nat.eq_dec j k) as [->|]; [lia|].
        destruct (Nat.eq_dec j (S k)) as [->|]; [lia|].
        specialize (Hj j ltac:(lia)). lia.
  - specialize (Hnon eq_refl). clear Hace.
    rewrite Nat.add_0_r in Hfrom.
    destruct (Nat.eqb_spec (count_aces (cards h) - k) 0) as [Eh|Es];
      cbn [negb].
    + (* hard hand, other card *)
      rewrite (Hfrom k); [|lia| |lia].
      { f_equal; [lia|]. rewrite Eh. reflexivity. }
      intros j Hlt. specialize (Hj j Hlt). lia.
    + (* soft hand, other card *)
      specialize (Hs ltac:(lia)).
      destruct (Z.leb_spec
                  (points (cards h) - 10 * Z.of_nat k + card_value c) 21).
      * rewrite (Hfrom k); [|lia| |lia].
        { f_equal; [lia|].
          replace (count_aces (cards h) - k)%nat with 1%nat by lia.
          reflexivity. }
        intros j Hlt. specialize (Hj j Hlt). lia.
      * rewrite (Hfrom (S k)); [|lia| |lia].
        { f_equal; [lia|].
          replace (count_aces (cards h) - S k)%nat with 0%nat by lia.
          reflexivity. }
        intros j Hlt.
        destruct (Nat.eq_dec j k) as [->|]; [lia|].
        specialize (Hj j ltac:(lia)). lia.
Qed.

(** X4: the value and softness after [add_card] are a function of the
    value and softness before it and of the card alone. *)
Theorem value_incremental (h : Hand M) (c : Card) :
  (value (add_card h c), is_soft (add_card h c))
  = next_total (value h) (is_soft h) c.
Proof. exact (value_add_card h c). Qed.

Lemma soft_value_bounds (h : Hand M) : is_soft h = true -> 11 <= value h <= 21.
Proof.
  destruct (hand_reductions h) as (k & Hk & Hj & Hs & Hv & Hsoft & Hone).
  intros Hso. rewrite Hsoft in Hso.
  apply negb_true_iff, Nat.eqb_neq in Hso.
  specialize (Hs ltac:(lia)).
  pose proof (hard_points_ge_length (cards h)).
  pose proof (count_aces_le_length (cards h)). lia.
Qed.

(** X5: one more card changes the value by at least -9 and at most +11;
    it cannot bust a soft hand, and it raises the value of a hard hand. *)
Theorem draw_effect (h : Hand M) (c : Card) :
  value h - 9 <= value (add_card h c) <= value h + 11
  /\ (is_soft h = true -> is_bust (add_card h c) = false)
  /\ (is_hard h = true -> value h + 1 <= value (add_card h c)).
Proof.
  pose proof (value_add_card h c) as Hn.
  destruct (add_card_state h c) as (_ & _ & Hace & Hnon).
  assert (Hb : is_soft h = true -> 11 <= value h <= 21)
    by apply soft_value_bounds.
  pose proof (is_soft_negb_hard M h) as Hsh.
  unfold next_total in Hn. unfold is_bust. rewrite Z.gtb_ltb.
  destruct (is_ace c); [specialize (Hace eq_refl)|specialize (Hnon eq_refl)];
    destruct (is_soft h); try specialize (Hb eq_refl);
    repeat match type of Hn with
           | context [if ?b then _ else _] =>
               match b with
               | (?x <=? ?y) => destruct (Z.leb_spec x y)
               end
           end;
    injection Hn as Hv _; rewrite Hv;
    (split; [lia|]);
    (split; [intros Hs; try discriminate; apply Z.ltb_ge; lia|]);
    intros Hh; rewrite Hh in Hsh; try discriminate; lia.
Qed.

(** X6: a hand of at most two cards is never bust. *)
Theorem short_hand_not_bust (h : Hand M) :
  (length (cards h) <= 2)%nat -> is_bust h = false /\ value h <= 21.
Proof.
  intros Hlen.
  assert (Hb : is_bust h = false).
  { unfold is_bust, value.
    destruct (cards h) as [|[r1 s1] [|[r2 s2] [|c3 cs]]];
      [reflexivity|destruct r1; reflexivity
      |destruct r1, r2; reflexivity|cbn in Hlen; lia]. }
  split; [assumption|apply is_bust_false, Hb].
Qed.

(** X7: a natural is exactly an ace together with a jack, queen or king,
    in either order. *)
Theorem natural_21_iff (h : Hand M) :
  natural_21 h = true
  <-> exists c1 c2 : Card,
        cards h = [c1; c2]
        /\ ((rank c1 = RA /\ In (rank c2) [RJ; RQ; RK])
            \/ (In (rank c1) [RJ; RQ; RK] /\ rank c2 = RA)).
Proof.
  unfold natural_21, value. split.
  - intros H. apply andb_true_iff in H. destruct H as [Hlen Hv].
    apply Nat.eqb_eq in Hlen.
    destruct (cards h) as [|c1 [|c2 [|c3 cs]]]; try discriminate.
    exists c1, c2. split; [reflexivity|].
    destruct c1 as [r1 s1], c2 as [r2 s2]. cbn [rank].
    destruct r1, r2; try discriminate Hv; cbn; tauto.
  - intros (c1 & c2 & -> & Hr).
    destruct c1 as [r1 s1], c2 as [r2 s2]. cbn [rank] in Hr.
    destruct Hr as [[-> Hin]|[Hin ->]]; cbn in Hin;
      destruct Hin as [<-|[<-|[<-|[]]]]; reflexivity.
Qed.

(** ** The shoe *)

Lemma deal_shoe_deal (w : World M G) :
  deal w
  = match shoe_deal (shoe w) (rng w) with
    | Some (c, (sh, g)) => Ret (c, mkWorld sh (stats w) g)
    | None => IndexError
    end.
Proof.
  unfold deal, shoe_deal.
  destruct (if (length (shoe_cards (shoe w)) <=? 50)%nat
            then reshuffle (shoe w) (rng w) else (shoe w, rng w)) as [sh g].
  destruct (pop (shoe_cards sh)) as [[c rest]|]; reflexivity.
Qed.

Lemma count_occ_fresh_cards (n : Z) (c : Card) :
  count_occ Card_eq_dec (fresh_cards n) c = Z.to_nat n.
Proof.
  unfold fresh_cards. induction (Z.to_nat n) as [|k IH]; cbn [repeat concat].
  - reflexivity.
  - rewrite count_occ_app, IH.
    replace (count_occ Card_eq_dec one_deck c) with 1%nat; [reflexivity|].
    destruct c as [r s]; destruct r, s; reflexivity.
Qed.

Lemma reshuffle_spec (sh : Shoe) (g : G) :
  num_decks (fst (reshuffle sh g)) = num_decks sh
  /\ (forall c : Card,
        count_occ Card_eq_dec (shoe_cards (fst (reshuffle sh g))) c
        = Z.to_nat (num_decks sh))
  /\ cards_remaining (fst (reshuffle sh g))
     = (Z.to_nat (num_decks sh) * 48)%nat.
Proof.
  unfold reshuffle, cards_remaining.
  pose proof (shuffle_perm g (fresh_cards (num_decks sh))) as Hp.
  destruct (shuffle g (fresh_cards (num_decks sh))) as [cs g'].
  cbn [fst shoe_cards num_decks] in *.
  split; [reflexivity|]. split.
  - intros c.
    rewrite <- (proj1 (Permutation_count_occ Card_eq_dec _ _) Hp c).
    apply count_occ_fresh_cards.
  - rewrite <- (Permutation_length Hp). apply fresh_cards_length.
Qed.

(** X8: after [reshuffle] the shoe holds every rank and suit exactly
    [num_decks] times (none for a non-positive count), 48 cards per deck,
    whatever it held before. *)
Theorem reshuffle_contents (sh : Shoe) (g : G) :
  num_decks (fst (reshuffle sh g)) = num_decks sh
  /\ (forall c : Card,
        count_occ Card_eq_dec (shoe_cards (fst (reshuffle sh g))) c
        = Z.to_nat (num_decks sh))
  /\ cards_remaining (fst (reshuffle sh g))
     = (Z.to_nat (num_decks sh) * 48)%nat.
Proof. exact (reshuffle_spec sh g). Qed.

Lemma deal_inv (w w' : World M G) (c : Card) :
  deal w = Ret (c, w') ->
  stats w' = stats w
  /\ num_decks (shoe w') = num_decks (shoe w)
  /\ (((length (shoe_cards (shoe w)) <= 50)%nat
       /\ Permutation (fresh_cards (num_decks (shoe w)))
            (shoe_cards (shoe w') ++ [c]))
      \/ ((50 < length (shoe_cards (shoe w)))%nat
          /\ shoe_cards (shoe w) = shoe_cards (shoe w') ++ [c]
          /\ rng w' = rng w)).
Proof.
  unfold deal.
  destruct (Nat.leb_spec (length (shoe_cards (shoe w))) 50) as [Hle|Hgt].
  - unfold reshuffle.
    pose proof (shuffle_perm (rng w) (fresh_cards (num_decks (shoe w)))) as Hp.
    destruct (shuffle (rng w) (fresh_cards (num_decks (shoe w)))) as [cs g'].
    cbn [fst shoe_cards num_decks] in *.
    unfold pop. destruct (rev cs) as [|x r] eqn:E; [discriminate|].
    intros H. injection H as <- <-. cbn [stats shoe num_decks shoe_cards].
    split; [reflexivity|]. split; [reflexivity|]. left.
    split; [assumption|].
    replace (rev r ++ [x]) with cs; [assumption|].
    rewrite <- (rev_involutive cs), E. reflexivity.
  - unfold pop. destruct (rev (shoe_cards (shoe w))) as [|x r] eqn:E;
      [discriminate|].
    intros H. injection H as <- <-. cbn [stats shoe num_decks shoe_cards rng].
    split; [reflexivity|]. split; [reflexivity|]. right.
    split; [assumption|]. split; [|reflexivity].
    rewrite <- (rev_involutive (shoe_cards (shoe w))), E. reflexivity.
Qed.

(** X9: a successful [deal()] leaves one card fewer than before, or one
    fewer than the full [num_decks * 48] when at most 50 were left; with
    two decks or more the shoe never goes below 50 cards. *)
Theorem deal_cards_remaining (w w' : World M G) (c : Card) :
  deal w = Ret (c, w') ->
  Z.of_nat (cards_remaining (shoe w'))
  = (if (cards_remaining (shoe w) <=? 50)%nat
     then Z.of_nat (Z.to_nat (num_decks (shoe w)) * 48) - 1
     else Z.of_nat (cards_remaining (shoe w)) - 1)
  /\ (2 <= num_decks (shoe w) -> (50 <= cards_remaining (shoe w'))%nat).
Proof.
  intros Hd. unfold cards_remaining.
  destruct (deal_inv w w' c Hd) as (_ & _ & [[Hle Hp]|[Hgt [Heq _]]]).
  - apply Permutation_length in Hp.
    rewrite fresh_cards_length, length_app in Hp. cbn [length] in Hp.
    destruct (Nat.leb_spec (length (shoe_cards (shoe w))) 50); [|lia].
    split; lia.
  - rewrite Heq, length_app in Hgt |- *. cbn [length] in *.
    destruct (Nat.leb_spec (length (shoe_cards (shoe w')) + 1) 50); [lia|].
    split; lia.
Qed.

(** X10: [deal()] raises [IndexError] exactly when at most 50 cards are
    left in a shoe built with no deck at all. *)
Theorem deal_index_error (w : World M G) :
  deal w = IndexError
  <-> (cards_remaining (shoe w) <= 50)%nat /\ num_decks (shoe w) <= 0.
Proof.
  unfold cards_remaining. split.
  - intros He.
    destruct (Z.le_gt_cases (num_decks (shoe w)) 0) as [Hn|Hn].
    + split; [|assumption].
      destruct (Nat.le_gt_cases (length (shoe_cards (shoe w))) 50) as [|Hgt];
        [assumption|].
      unfold deal in He.
      destruct (Nat.leb_spec (length (shoe_cards (shoe w))) 50); [lia|].
      destruct (pop_nonempty _ (shoe_cards (shoe w))) as (x & r & _ & Hp).
      { intros E. rewrite E in Hgt. cbn in Hgt. lia. }
      rewrite Hp in He. discriminate.
    + destruct (deal_spec w ltac:(unfold shoe_ok; lia))
        as (c & rest & g' & Hd & _).
      rewrite Hd in He. discriminate.
  - intros [Hle Hn]. unfold deal.
    destruct (Nat.leb_spec (length (shoe_cards (shoe w))) 50); [|lia].
    pose proof (reshuffle_spec (shoe w) (rng w)) as (_ & _ & Hlen).
    destruct (reshuffle (shoe w) (rng w)) as [sh g].
    cbn [fst] in Hlen. unfold cards_remaining in Hlen.
    replace (Z.to_nat (num_decks (shoe w))) with 0%nat in Hlen by lia.
    destruct (shoe_cards sh); [reflexivity|discriminate].
Qed.

Lemma within_decks_deal (w w' : World M G) (c : Card) :
  within_decks (shoe w) -> deal w = Ret (c, w') -> within_decks (shoe w').
Proof.
  intros Hin Hd x.
  destruct (deal_inv w w' c Hd) as (_ & Hn & [[_ Hp]|[_ [Heq _]]]);
    rewrite Hn.
  - pose proof (proj1 (Permutation_count_occ Card_eq_dec _ _) Hp x) as Hc.
    rewrite count_occ_fresh_cards, count_occ_app in Hc. lia.
  - specialize (Hin x). rewrite Heq, count_occ_app in Hin. lia.
Qed.

(** ** Sequences of deals *)

Lemma bind_ret_inv (A B : Type) (m : Run M G A) (k : A -> Run M G B)
    (w : World M G) (r : B * World M G) :
  bind m k w = Ret r -> exists a w1, m w = Ret (a, w1) /\ k a w1 = Ret r.
Proof.
  unfold bind. destruct (m w) as [[a w1]| |]; try discriminate.
  intros H. exists a, w1. auto.
Qed.

Lemma ret_inv (A : Type) (a b : A) (w w' : World M G) :
  ret a w = Ret (b, w') -> b = a /\ w' = w.
Proof. unfold ret. intros H. injection H as <- <-. auto. Qed.

(** The world [w'] comes from [w] by dealing the cards [cs] in order and
    nothing else. *)
Lemma deal_dealt (w w' : World M G) (c : Card) :
  deal w = Ret (c, w') ->
  shoe_deal (shoe w) (rng w) = Some (c, (shoe w', rng w'))
  /\ stats w' = stats w.
Proof.
  rewrite deal_shoe_deal.
  destruct (shoe_deal (shoe w) (rng w)) as [[x [sh g]]|]; [|discriminate].
  intros H. injection H as <- <-. auto.
Qed.

Lemma deal_seq_app (n m : nat) :
  forall (sh sh1 : Shoe) (g g1 : G) (cs ds : list Card) (r : Shoe * G),
    deal_seq n sh g = Some (cs, (sh1, g1)) ->
    deal_seq m sh1 g1 = Some (ds, r) ->
    deal_seq (n + m) sh g = Some (cs ++ ds, r).
Proof.
  induction n as [|n IH]; intros sh sh1 g g1 cs ds r H1 H2.
  - cbn in H1. injection H1 as <- <- <-. exact H2.
  - cbn [deal_seq Nat.add] in H1 |- *.
    destruct (shoe_deal sh g) as [[c [sh' g']]|]; [|discriminate].
    destruct (deal_seq n sh' g') as [[cs' [sh'' g'']]|] eqn:E; [|discriminate].
    injection H1 as <- <- <-.
    rewrite (IH _ _ _ _ _ _ _ E H2). reflexivity.
Qed.

Lemma deal_seq_length (n : nat) :
  forall (sh : Shoe) (g : G) (cs : list Card) (r : Shoe * G),
    deal_seq n sh g = Some (cs, r) -> length cs = n.
Proof.
  induction n as [|n IH]; intros sh g cs r H; cbn [deal_seq] in H.
  - injection H as <- _. reflexivity.
  - destruct (shoe_deal sh g) as [[c [sh' g']]|]; [|discriminate].
    destruct (deal_seq n sh' g') as [[cs' r']|] eqn:E; [|discriminate].
    injection H as <- _. cbn. f_equal. eapply IH, E.
Qed.

Lemma dealt_nil (w : World M G) : dealt [] w w.
Proof. split; reflexivity. Qed.

Lemma dealt_one (w w' : World M G) (c : Card) :
  deal w = Ret (c, w') -> dealt [c] w w'.
Proof.
  intros Hd. destruct (deal_dealt _ _ _ Hd) as [Hs Hst].
  split; [|assumption]. cbn [length deal_seq]. rewrite Hs. reflexivity.
Qed.

Lemma dealt_app (w1 w2 w3 : World M G) (cs ds : list Card) :
  dealt cs w1 w2 -> dealt ds w2 w3 -> dealt (cs ++ ds) w1 w3.
Proof.
  unfold dealt. intros [H1 S1] [H2 S2]. split; [|congruence].
  rewrite length_app. eapply deal_seq_app; eassumption.
Qed.

(** ** What the players' and the dealer's loops return *)

Lemma should_hit_cards (h1 h2 : Hand M) (up : Card) (a f : bool) :
  cards h1 = cards h2 -> should_hit h1 up a f = should_hit h2 up a f.
Proof.
  intros E. unfold should_hit, is_soft, is_hard, value. rewrite E.
  reflexivity.
Qed.

Lemma should_hit_Hit_inv (h : Hand M) (up : Card) (a f : bool) :
  should_hit h up a f = Hit ->
  (is_soft h = true /\ value h <= 18)
  \/ (is_soft h = false /\ value h <= 16).
Proof.
  unfold should_hit.
  destruct (a && Nat.eqb (length (cards h)) 2 && f && is_hard h
            && ((13 <=? value h) && (value h <=? 16))
            && existsb (Rank_eqb (rank up)) [R7; R8; R9; RJ; RQ; RK; RA]);
    [discriminate|].
  destruct (is_soft h).
  - destruct (Z.leb_spec (value h) 17); [intros _; left; split; [reflexivity|lia]|].
    destruct (Z.eqb_spec (value h) 18); [|discriminate].
    intros _. left. split; [reflexivity|lia].
  - destruct (Z.leb_spec (value h) 11);
      [intros _; right; split; [reflexivity|lia]|].
    destruct (Z.eqb_spec (value h) 12);
      [intros _; right; split; [reflexivity|lia]|].
    destruct (Z.leb_spec 13 (value h)); cbn [andb]; [|discriminate].
    destruct (Z.leb_spec (value h) 16); [|discriminate].
    intros _. right. split; [reflexivity|lia].
Qed.

Lemma value_after_draw (h : Hand M) (c : Card) :
  (is_soft h = true -> value (add_card h c) <= 21)
  /\ (is_soft h = false -> value (add_card h c) <= Z.max 21 (value h + 10)).
Proof.
  pose proof (value_add_card h c) as Hn.
  destruct (add_card_state h c) as (_ & _ & Hace & Hnon).
  assert (Hb : is_soft h = true -> 11 <= value h <= 21)
    by apply soft_value_bounds.
  unfold next_total in Hn.
  destruct (is_ace c); [specialize (Hace eq_refl)|specialize (Hnon eq_refl)];
    destruct (is_soft h); try specialize (Hb eq_refl);
    repeat match type of Hn with
           | context [if ?b then _ else _] =>
               match b with
               | (?x <=? ?y) => destruct (Z.leb_spec x y)
               end
           end;
    injection Hn as Hv _; rewrite Hv;
    (split; intros Hs; try discriminate; lia).
Qed.

Lemma play_hand_inv (up : Card) (a f : bool) (fuel : nat) :
  forall (h h' : Hand M) (w w' : World M G),
    play_hand fuel h up a f w = Ret (h', w') ->
    exists cs : list Card,
      dealt cs w w'
      /\ cards h' = cards h ++ cs
      /\ bet h' = bet h /\ is_blackjack h' = is_blackjack h
      /\ (surrendered h' = surrendered h
          \/ (surrendered h' = true /\ should_hit h' up a f = Surrender))
      /\ (is_bust h' = true \/ should_hit h' up a f <> Hit)
      /\ (cs <> [] -> value h' <= 26).
Proof.
  induction fuel as [|fuel IH]; intros h h' w w' Hrun;
    cbn [play_hand] in Hrun; [discriminate|].
  destruct (should_hit h up a f) eqn:Esh.
  - apply bind_ret_inv in Hrun. destruct Hrun as (c & w1 & Hd & Hrun).
    cbv zeta in Hrun.
    pose proof (should_hit_Hit_inv _ _ _ _ Esh) as Hhit.
    pose proof (value_after_draw h c) as [Hsoft Hhard].
    assert (Hb26 : value (add_card h c) <= 26)
      by (destruct Hhit as [[Hs Hv]|[Hs Hv]];
          [specialize (Hsoft Hs)|specialize (Hhard Hs)]; lia).
    destruct (is_bust (add_card h c)) eqn:B.
    + apply ret_inv in Hrun. destruct Hrun as [-> ->].
      exists [c]. split; [apply dealt_one, Hd|].
      split; [reflexivity|]. split; [reflexivity|]. split; [reflexivity|].
      split; [left; reflexivity|]. split; [left; exact B|].
      intros _. exact Hb26.
    + destruct (IH _ _ _ _ Hrun)
        as (cs & Hdl & Hc & Hbet & Hbj & Hsur & Hend & Hbound).
      exists (c :: cs).
      split; [apply (dealt_app _ _ _ [c] cs (dealt_one _ _ _ Hd) Hdl)|].
      split; [rewrite Hc; cbn [add_card cards]; now rewrite <- app_assoc|].
      split; [assumption|]. split; [assumption|].
      split; [exact Hsur|].
      split; [assumption|].
      intros _. destruct cs as [|c' cs'].
      * assert (E : cards h' = cards (add_card h c))
          by (rewrite Hc; apply app_nil_r).
        unfold value in Hb26 |- *. rewrite E. exact Hb26.
      * apply Hbound. discriminate.
  - apply ret_inv in Hrun. destruct Hrun as [-> ->].
    exists []. split; [apply dealt_nil|].
    split; [now rewrite app_nil_r|]. split; [reflexivity|].
    split; [reflexivity|]. split; [left; reflexivity|].
    split; [right; rewrite Esh; discriminate|]. intros H; now elim H.
  - apply ret_inv in Hrun. destruct Hrun as [-> ->].
    exists []. split; [apply dealt_nil|].
    split; [cbn; now rewrite app_nil_r|]. split; [reflexivity|].
    split; [reflexivity|].
    assert (Es : should_hit (set_surrendered true h) up a f = Surrender)
      by (rewrite (should_hit_cards (set_surrendered true h) h up a f eq_refl);
          exact Esh).
    split; [right; split; [reflexivity|exact Es]|].
    split; [right; rewrite Es; discriminate|intros H; now elim H].
Qed.

Lemma should_hit_Surrender_inv (h : Hand M) (up : Card) (a f : bool) :
  should_hit h up a f = Surrender -> surrenders h up a f.
Proof.
  intros Hs. apply surrender_guard. revert Hs. unfold should_hit.
  destruct (a && Nat.eqb (length (cards h)) 2 && f && is_hard h
            && ((13 <=? value h) && (value h <=? 16))
            && existsb (Rank_eqb (rank up)) [R7; R8; R9; RJ; RQ; RK; RA]);
    [reflexivity|].
  repeat match goal with
         | |- context [if ?b then _ else _] => destruct b
         end; discriminate.
Qed.

(** X11: when [play_hand] returns, the hand is the starting hand followed
    by the cards dealt meanwhile and nothing else was taken from the shoe;
    the hand is bust or the strategy no longer says hit; a hand that drew
    is worth at most 26; a hand marked surrendered meets the surrender
    condition, hence holds two cards, and drew nothing if it started with
    two; without the surrender option no hand is marked. *)
Theorem play_hand_result (fuel : nat) (h h' : Hand M) (up : Card)
    (a f : bool) (w w' : World M G) :
  play_hand fuel h up a f w = Ret (h', w') ->
  exists cs : list Card,
    dealt cs w w'
    /\ cards h' = cards h ++ cs
    /\ bet h' = bet h /\ is_blackjack h' = is_blackjack h
    /\ (is_bust h' = true \/ should_hit h' up a f <> Hit)
    /\ (cs <> [] -> value h' <= 26)
    /\ (surrendered h' = true -> surrendered h = false ->
          surrenders h' up a f
          /\ ((2 <= length (cards h))%nat -> cs = []))
    /\ (a = false -> surrendered h' = surrendered h).
Proof.
  intros Hrun.
  destruct (play_hand_inv up a f fuel h h' w w' Hrun)
    as (cs & Hd & Hc & Hb & Hbj & Hsur & Hend & Hbound).
  exists cs. repeat (split; [assumption|]).
  split.
  - intros Hs Hn.
    destruct Hsur as [E|[_ Hx]]; [congruence|].
    pose proof (should_hit_Surrender_inv _ _ _ _ Hx) as Hsurr.
    split; [assumption|].
    destruct Hsurr as (_ & _ & Hlen & _).
    rewrite Hc, length_app in Hlen. intros H2.
    destruct cs; [reflexivity|cbn in Hlen; lia].
  - intros ->. destruct Hsur as [E|[_ Hx]]; [assumption|].
    destruct (should_hit_Surrender_inv _ _ _ _ Hx) as (Ha & _). discriminate.
Qed.

Lemma fold_add_card (cs : list Card) :
  forall h : Hand M,
    cards (fold_left add_card cs h) = cards h ++ cs
    /\ bet (fold_left add_card cs h) = bet h
    /\ surrendered (fold_left add_card cs h) = surrendered h
    /\ is_blackjack (fold_left add_card cs h) = is_blackjack h.
Proof.
  induction cs as [|c cs IH]; intros h; cbn [fold_left].
  - rewrite app_nil_r. auto.
  - destruct (IH (add_card h c)) as (Hc & Hb & Hs & Hj).
    rewrite Hc, Hb, Hs, Hj. cbn [add_card cards bet surrendered is_blackjack].
    rewrite <- app_assoc. auto.
Qed.

Lemma play_dealer_hand_inv (fuel : nat) :
  forall (h h' : Hand M) (w w' : World M G),
    play_dealer_hand fuel h w = Ret (h', w') ->
    exists cs : list Card,
      dealt cs w w'
      /\ h' = fold_left add_card cs h
      /\ dealer_draws h' = false
      /\ (cs <> [] -> value h' <= 26).
Proof.
  induction fuel as [|fuel IH]; intros h h' w w' Hrun;
    cbn [play_dealer_hand] in Hrun;
    destruct (dealer_draws h) eqn:E; try discriminate.
  - apply ret_inv in Hrun. destruct Hrun as [-> ->].
    exists []. split; [apply dealt_nil|]. split; [reflexivity|].
    split; [assumption|]. intros H; now elim H.
  - apply bind_ret_inv in Hrun. destruct Hrun as (c & w1 & Hd & Hrun).
    destruct (IH _ _ _ _ Hrun) as (cs & Hdl & Hh & Hstop & Hbound).
    exists (c :: cs).
    split; [apply (dealt_app _ _ _ [c] cs (dealt_one _ _ _ Hd) Hdl)|].
    split; [assumption|]. split; [assumption|].
    intros _. destruct cs as [|c' cs']; [|apply Hbound; discriminate].
    cbn [fold_left] in Hh. subst h'.
    apply dealer_draws_iff in E.
    pose proof (value_after_draw h c) as [Hsoft Hhard].
    destruct (is_soft h); [specialize (Hsoft eq_refl); lia|].
    specialize (Hhard eq_refl).
    destruct E as [E|[_ E]]; [lia|discriminate].
  - apply ret_inv in Hrun. destruct Hrun as [-> ->].
    exists []. split; [apply dealt_nil|]. split; [reflexivity|].
    split; [assumption|]. intros H; now elim H.
Qed.

(** X12: when [play_dealer_hand] returns, the dealer holds the starting
    cards followed by the cards dealt meanwhile, stands on 17 or more (a 17
    being hard), and is worth at most 26 if any card was drawn. *)
Theorem dealer_final_total (fuel : nat) (h h' : Hand M) (w w' : World M G) :
  play_dealer_hand fuel h w = Ret (h', w') ->
  exists cs : list Card,
    dealt cs w w'
    /\ cards h' = cards h ++ cs
    /\ 17 <= value h'
    /\ (value h' = 17 -> is_hard h' = true)
    /\ (cs <> [] -> value h' <= 26).
Proof.
  intros Hrun.
  destruct (play_dealer_hand_inv fuel h h' w w' Hrun)
    as (cs & Hd & Hh & Hstop & Hbound).
  exists cs. split; [assumption|].
  split; [rewrite Hh; apply fold_add_card|].
  apply dealer_stands_iff in Hstop.
  split; [lia|]. split; [|assumption].
  intros H17. destruct Hstop as [|[_ Hhd]]; [lia|assumption].
Qed.

(** ** The initial deal *)

Lemma deal_first_inv (rb : M) (hs : list (Hand M)) :
  forall (hs' : list (Hand M)) (w w' : World M G),
    deal_first hs rb w = Ret (hs', w') ->
    exists cs : list Card,
      dealt cs w w' /\ length cs = length hs
      /\ hs' = map (fun p => set_bet rb (add_card (fst p) (snd p)))
                 (combine hs cs).
Proof.
  induction hs as [|h hs IH]; intros hs' w w' Hrun; cbn [deal_first] in Hrun.
  - apply ret_inv in Hrun. destruct Hrun as [-> ->].
    exists []. split; [apply dealt_nil|]. split; reflexivity.
  - apply bind_ret_inv in Hrun. destruct Hrun as (c & w1 & Hd & Hrun).
    apply bind_ret_inv in Hrun. destruct Hrun as (rest & w2 & Hr & Hrun).
    apply ret_inv in Hrun. destruct Hrun as [-> ->].
    destruct (IH _ _ _ Hr) as (cs & Hdl & Hlen & ->).
    exists (c :: cs).
    split; [apply (dealt_app _ _ _ [c] cs (dealt_one _ _ _ Hd) Hdl)|].
    split; [cbn; lia|reflexivity].
Qed.

Lemma deal_second_inv (hs : list (Hand M)) :
  forall (hs' : list (Hand M)) (w w' : World M G),
    deal_second hs w = Ret (hs', w') ->
    exists cs : list Card,
      dealt cs w w' /\ length cs = length hs
      /\ hs' = map (fun p => add_card (fst p) (snd p)) (combine hs cs).
Proof.
  induction hs as [|h hs IH]; intros hs' w w' Hrun; cbn [deal_second] in Hrun.
  - apply ret_inv in Hrun. destruct Hrun as [-> ->].
    exists []. split; [apply dealt_nil|]. split; reflexivity.
  - apply bind_ret_inv in Hrun. destruct Hrun as (c & w1 & Hd & Hrun).
    apply bind_ret_inv in Hrun. destruct Hrun as (rest & w2 & Hr & Hrun).
    apply ret_inv in Hrun. destruct Hrun as [-> ->].
    destruct (IH _ _ _ Hr) as (cs & Hdl & Hlen & ->).
    exists (c :: cs).
    split; [apply (dealt_app _ _ _ [c] cs (dealt_one _ _ _ Hd) Hdl)|].
    split; [cbn; lia|reflexivity].
Qed.

Lemma two_passes (rb : M) (n : nat) :
  forall firsts seconds : list Card,
    length firsts = n -> length seconds = n ->
    map (fun p => add_card (fst p) (snd p))
      (combine
         (map (fun p => set_bet rb (add_card (fst p) (snd p)))
            (combine (repeat new_hand n) firsts))
         seconds)
    = map (fun p => mkHand [fst p; snd p] rb false false)
        (combine firsts seconds).
Proof.
  induction n as [|n IH]; intros firsts seconds H1 H2.
  - destruct firsts; [reflexivity|discriminate].
  - destruct firsts as [|a firsts]; [discriminate|].
    destruct seconds as [|b seconds]; [discriminate|].
    cbn [repeat combine map fst snd]. f_equal.
    apply IH; [now injection H1|now injection H2].
Qed.

Lemma initial_deal_inv (num_hands : Z) (rb : M)
    (hs : list (Hand M)) (d : Hand M) (w w' : World M G) :
  initial_deal num_hands rb w = Ret ((hs, d), w') ->
  exists (firsts seconds : list Card) (up hole : Card),
    length firsts = Z.to_nat num_hands
    /\ length seconds = Z.to_nat num_hands
    /\ dealt (firsts ++ [up] ++ seconds ++ [hole]) w w'
    /\ hs = map (fun p => mkHand [fst p; snd p] rb false false)
              (combine firsts seconds)
    /\ d = mkHand [up; hole] mzero false false.
Proof.
  unfold initial_deal. cbv zeta. intros Hrun.
  apply bind_ret_inv in Hrun. destruct Hrun as (hs1 & w1 & H1 & Hrun).
  apply bind_ret_inv in Hrun. destruct Hrun as (up & w2 & H2 & Hrun).
  apply bind_ret_inv in Hrun. destruct Hrun as (hs2 & w3 & H3 & Hrun).
  apply bind_ret_inv in Hrun. destruct Hrun as (hole & w4 & H4 & Hrun).
  apply ret_inv in Hrun. destruct Hrun as [Hpair ->].
  injection Hpair as -> ->.
  destruct (deal_first_inv _ _ _ _ _ H1) as (firsts & Hd1 & Hl1 & ->).
  rewrite repeat_length in Hl1.
  destruct (deal_second_inv _ _ _ _ H3) as (seconds & Hd3 & Hl3 & ->).
  rewrite length_map, length_combine, repeat_length, Hl1, Nat.min_id in Hl3.
  exists firsts, seconds, up, hole.
  split; [assumption|]. split; [assumption|].
  split.
  { apply (dealt_app _ _ _ firsts _ Hd1).
    apply (dealt_app _ _ _ [up] _ (dealt_one _ _ _ H2)).
    apply (dealt_app _ _ _ seconds [hole] Hd3 (dealt_one _ _ _ H4)). }
  split; [|reflexivity].
  apply two_passes; assumption.
Qed.

(** X13: the initial deal takes [2 * num_hands + 2] cards in this order:
    a first card for each player hand in seat order, the dealer's upcard,
    a second card for each player hand, the dealer's hole card; every
    player hand holds its two cards with the regular bet and no mark. *)
Theorem initial_deal_order (num_hands : Z) (rb : M)
    (hs : list (Hand M)) (d : Hand M) (w w' : World M G) :
  initial_deal num_hands rb w = Ret ((hs, d), w') ->
  exists (firsts seconds : list Card) (up hole : Card),
    length firsts = Z.to_nat num_hands
    /\ length seconds = Z.to_nat num_hands
    /\ dealt (firsts ++ [up] ++ seconds ++ [hole]) w w'
    /\ hs = map (fun p => mkHand [fst p; snd p] rb false false)
              (combine firsts seconds)
    /\ d = mkHand [up; hole] mzero false false.
Proof. exact (initial_deal_inv num_hands rb hs d w w'). Qed.

(** ** Side-bet tables *)

Lemma Rank_eqb_eq (a b : Rank) : Rank_eqb a b = true <-> a = b.
Proof.
  split; [destruct a, b; try discriminate; reflexivity|].
  intros ->. destruct b; reflexivity.
Qed.

Lemma count_rank_matches (player_cards : list Card) (dealer_card : Card) :
  (count_suited player_cards dealer_card
   + count_nonsuited player_cards dealer_card)%nat
  = length (filter (fun c => Rank_eqb (rank c) (rank dealer_card))
              player_cards).
Proof.
  unfold count_suited, count_nonsuited.
  induction player_cards as [|c cs IH]; [reflexivity|].
  cbn [filter].
  destruct (Rank_eqb (rank c) (rank dealer_card));
    [destruct (Suit_eqb (suit c) (suit dealer_card))|];
    cbn [andb negb length]; lia.
Qed.

Lemma side_bet_table_zero (s n : nat) :
  side_bet_table s n = 0
  <-> (s <> 1 /\ s <> 2 /\ n <> 1 /\ n <> 2)%nat.
Proof.
  unfold side_bet_table.
  destruct s as [|[|[|s]]]; destruct n as [|[|[|n]]];
    cbn [first_applicable Nat.eqb andb]; split;
    try discriminate; try (intros _; repeat split; lia);
    try (intros (? & ? & ? & ?); lia); try reflexivity.
Qed.

Lemma side_bet_table_values (s n : nat) :
  In (side_bet_table s n) [0; 3; 6; 12; 15; 24].
Proof.
  unfold side_bet_table.
  destruct s as [|[|[|s]]]; destruct n as [|[|[|n]]];
    cbn [first_applicable Nat.eqb andb]; cbn; tauto.
Qed.

Lemma match_payout_counts (player_cards : list Card) (dealer_card : Card) :
  calculate_match_payout (evaluate_match player_cards dealer_card)
  = side_bet_table (count_suited player_cards dealer_card)
      (count_nonsuited player_cards dealer_card).
Proof.
  destruct (evaluate_match_from dealer_card player_cards (mkMatches 0 0))
    as [Hs Hn].
  cbn zeta in Hs, Hn. fold (evaluate_match player_cards dealer_card) in Hs, Hn.
  cbn [suited nonsuited] in Hs, Hn.
  rewrite <- side_bet_table_of_counts.
  destruct (evaluate_match player_cards dealer_card) as [s n].
  cbn [suited nonsuited] in Hs, Hn. f_equal. f_equal; lia.
Qed.

(** X14: a side bet pays one of 0, 3, 6, 12, 15, 24; it pays nothing
    exactly when neither match count is 1 or 2 (so three or more matches
    of one kind alone pay nothing); on a hand of at most two cards it pays
    exactly when some card has the dealer card's rank. *)
Theorem match_payout_positive (player_cards : list Card) (dealer_card : Card) :
  let payout :=
    calculate_match_payout (evaluate_match player_cards dealer_card) in
  let s := count_suited player_cards dealer_card in
  let n := count_nonsuited player_cards dealer_card in
  In payout [0; 3; 6; 12; 15; 24]
  /\ (payout = 0 <-> (s <> 1 /\ s <> 2 /\ n <> 1 /\ n <> 2)%nat)
  /\ ((length player_cards <= 2)%nat ->
        (payout > 0
         <-> exists c, In c player_cards /\ rank c = rank dealer_card)).
Proof.
  cbv zeta. rewrite match_payout_counts.
  split; [apply side_bet_table_values|].
  split; [apply side_bet_table_zero|].
  intros Hlen.
  pose proof (count_rank_matches player_cards dealer_card) as Hsum.
  pose proof (filter_length_le
                (fun c => Rank_eqb (rank c) (rank dealer_card)) player_cards)
    as Hle.
  pose proof (side_bet_table_zero (count_suited player_cards dealer_card)
                (count_nonsuited player_cards dealer_card)) as Hz.
  pose proof (side_bet_table_values (count_suited player_cards dealer_card)
                (count_nonsuited player_cards dealer_card)) as Hv.
  assert (Hpos :
    side_bet_table (count_suited player_cards dealer_card)
      (count_nonsuited player_cards dealer_card) > 0
    <-> filter (fun c => Rank_eqb (rank c) (rank dealer_card)) player_cards
        <> []).
  { split.
    - intros Hp E. rewrite E in Hsum. cbn in Hsum.
      assert (Hz0 : side_bet_table
                      (count_suited player_cards dealer_card)
                      (count_nonsuited player_cards dealer_card) = 0)
        by (apply Hz; lia).
      lia.
    - intros Hne.
      assert (length (filter (fun c => Rank_eqb (rank c) (rank dealer_card))
                        player_cards) <> 0)%nat
        by (destruct (filter _ player_cards); [congruence|discriminate]).
      assert (Hnz : side_bet_table
                      (count_suited player_cards dealer_card)
                      (count_nonsuited player_cards dealer_card) <> 0)
        by (intros E; apply Hz in E; lia).
      unfold In in Hv. lia. }
  rewrite Hpos. split.
  - intros Hne.
    destruct (filter (fun c => Rank_eqb (rank c) (rank dealer_card))
                player_cards) as [|c l] eqn:E; [congruence|].
    assert (Hin : In c (filter (fun c => Rank_eqb (rank c) (rank dealer_card))
                          player_cards)) by (rewrite E; left; reflexivity).
    apply filter_In in Hin. destruct Hin as [Hin Hr].
    exists c. split; [assumption|now apply Rank_eqb_eq].
  - intros (c & Hin & Hr) E.
    assert (Hf : In c (filter (fun c => Rank_eqb (rank c) (rank dealer_card))
                         player_cards))
      by (apply filter_In; split; [assumption|now apply Rank_eqb_eq]).
    rewrite E in Hf. exact Hf.
Qed.

Lemma update_match_stats_cases (m : Matches) (r : MatchResult) :
  (calculate_match_payout m = 0 /\ update_match_stats m r = r)
  \/ (calculate_match_payout m = 3
      /\ update_match_stats m r
         = mkMatchResult (one_nonsuited r + 1) (two_nonsuited r)
             (one_suited r) (one_suited_one_nonsuited r) (two_suited r))
  \/ (calculate_match_payout m = 6
      /\ update_match_stats m r
         = mkMatchResult (one_nonsuited r) (two_nonsuited r + 1)
             (one_suited r) (one_suited_one_nonsuited r) (two_suited r))
  \/ (calculate_match_payout m = 12
      /\ update_match_stats m r
         = mkMatchResult (one_nonsuited r) (two_nonsuited r)
             (one_suited r + 1) (one_suited_one_nonsuited r) (two_suited r))
  \/ (calculate_match_payout m = 15
      /\ update_match_stats m r
         = mkMatchResult (one_nonsuited r) (two_nonsuited r)
             (one_suited r) (one_suited_one_nonsuited r + 1) (two_suited r))
  \/ (calculate_match_payout m = 24
      /\ update_match_stats m r
         = mkMatchResult (one_nonsuited r) (two_nonsuited r)
             (one_suited r) (one_suited_one_nonsuited r) (two_suited r + 1)).
Proof.
  unfold calculate_match_payout, update_match_stats. cbv zeta.
  destruct (suited m =? 2); [tauto|].
  destruct ((suited m =? 1) && (nonsuited m =? 1)); [tauto|].
  destruct (suited m =? 1); [tauto|].
  destruct (nonsuited m =? 2); [tauto|].
  destruct (nonsuited m =? 1); tauto.
Qed.

Lemma match_total_update (m : Matches) (r : MatchResult) :
  match_total (update_match_stats m r)
  = match_total r + (if calculate_match_payout m >? 0 then 1 else 0).
Proof.
  destruct (update_match_stats_cases m r)
    as [[-> ->]|[[-> ->]|[[-> ->]|[[-> ->]|[[-> ->]|[-> ->]]]]]];
    unfold match_total; cbn; lia.
Qed.

(** X15: [update_match_stats] files a result under the category that
    [calculate_match_payout] pays for: 3, 6, 12, 15 and 24 go to
    [one_nonsuited], [two_nonsuited], [one_suited],
    [one_suited_one_nonsuited] and [two_suited], and a result that pays
    nothing changes no category. *)
Theorem update_match_stats_category (m : Matches) (r : MatchResult) :
  ((calculate_match_payout m = 0 /\ update_match_stats m r = r)
   \/ (calculate_match_payout m = 3
       /\ update_match_stats m r
          = mkMatchResult (one_nonsuited r + 1) (two_nonsuited r)
              (one_suited r) (one_suited_one_nonsuited r) (two_suited r))
   \/ (calculate_match_payout m = 6
       /\ update_match_stats m r
          = mkMatchResult (one_nonsuited r) (two_nonsuited r + 1)
              (one_suited r) (one_suited_one_nonsuited r) (two_suited r))
   \/ (calculate_match_payout m = 12
       /\ update_match_stats m r
          = mkMatchResult (one_nonsuited r) (two_nonsuited r)
              (one_suited r + 1) (one_suited_one_nonsuited r) (two_suited r))
   \/ (calculate_match_payout m = 15
       /\ update_match_stats m r
          = mkMatchResult (one_nonsuited r) (two_nonsuited r)
              (one_suited r) (one_suited_one_nonsuited r + 1) (two_suited r))
   \/ (calculate_match_payout m = 24
       /\ update_match_stats m r
          = mkMatchResult (one_nonsuited r) (two_nonsuited r)
              (one_suited r) (one_suited_one_nonsuited r) (two_suited r + 1)))
  /\ match_total (update_match_stats m r)
     = match_total r + (if calculate_match_payout m >? 0 then 1 else 0).
Proof.
  split; [apply update_match_stats_cases|apply match_total_update].
Qed.

(** ** Settling *)

Lemma determine_winner_cases (ph dh : Hand M) (st : Stats M) :
  determine_winner ph dh st = (0.5%Q, upd_hands_surrendered incr st)
  \/ determine_winner ph dh st = (0%Q, upd_hands_lost incr st)
  \/ determine_winner ph dh st = (1%Q, upd_hands_pushed incr st)
  \/ ((fst (determine_winner ph dh st) = 2%Q
       \/ fst (determine_winner ph dh st) = 2.5%Q
       \/ fst (determine_winner ph dh st) = 3%Q)
      /\ snd (determine_winner ph dh st) = upd_hands_won incr st).
Proof.
  unfold determine_winner.
  repeat match goal with
         | |- context [if ?b then _ else _] => destruct b
         end; cbv zeta;
    repeat match goal with
           | |- context [if ?b then _ else _] => destruct b
           end; cbn [fst snd]; tauto.
Qed.

(** X16: the counter that [determine_winner] increments agrees with the
    multiplier it returns: 0.5 with [hands_surrendered], 0 with
    [hands_lost], 1 with [hands_pushed], and 2, 2.5 or 3 with [hands_won];
    nothing else in the statistics changes. *)
Theorem winner_counter_agrees (ph dh : Hand M) (st : Stats M) :
  determine_winner ph dh st = (0.5%Q, upd_hands_surrendered incr st)
  \/ determine_winner ph dh st = (0%Q, upd_hands_lost incr st)
  \/ determine_winner ph dh st = (1%Q, upd_hands_pushed incr st)
  \/ ((fst (determine_winner ph dh st) = 2%Q
       \/ fst (determine_winner ph dh st) = 2.5%Q
       \/ fst (determine_winner ph dh st) = 3%Q)
      /\ snd (determine_winner ph dh st) = upd_hands_won incr st).
Proof. exact (determine_winner_cases ph dh st). Qed.

(** X17: the dealer's hand does not matter for a hand that surrendered,
    is bust or totals 21: a surrendered hand gets 0.5 even when bust, a
    bust hand 0 even when the dealer is bust too, and a 21 is paid 2, 2.5
    or 3 even against a dealer 21. *)
Theorem winner_without_dealer (ph dh dh' : Hand M) (st : Stats M) :
  (surrendered ph = true \/ is_bust ph = true \/ value ph = 21 ->
     determine_winner ph dh st = determine_winner ph dh' st)
  /\ (surrendered ph = true -> fst (determine_winner ph dh st) = 0.5%Q)
  /\ (surrendered ph = false -> is_bust ph = true ->
        fst (determine_winner ph dh st) = 0%Q)
  /\ (surrendered ph = false -> value ph = 21 ->
        In (fst (determine_winner ph dh st)) [2%Q; 2.5%Q; 3%Q]
        /\ snd (determine_winner ph dh st) = upd_hands_won incr st).
Proof.
  unfold determine_winner, is_bust.
  destruct (surrendered ph).
  { split; [reflexivity|]. split; [reflexivity|].
    split; discriminate. }
  destruct (Z.gtb_spec (value ph) 21) as [Hb|Hb].
  { split; [reflexivity|]. split; [discriminate|].
    split; [reflexivity|]. intros _ E. lia. }
  cbv zeta. destruct (Z.eqb_spec (value ph) 21) as [E|E].
  - rewrite andb_true_r. cbn [andb].
    destruct (Nat.eqb (length (cards ph)) 2);
      [|destruct (Nat.eqb (length (cards ph)) 5);
        [|destruct (Nat.eqb (length (cards ph)) 6)]];
      cbn [fst snd];
      (split; [reflexivity|]); (split; [discriminate|]);
      (split; [discriminate|]); intros _ _; (split; [cbn; tauto|reflexivity]).
  - rewrite andb_false_r. cbn [andb].
    split; [intros [H|[H|H]]; [discriminate|discriminate|contradiction]|].
    split; [discriminate|]. split; [discriminate|].
    intros _ H. contradiction.
Qed.

(** ** The phases of a round *)

Lemma returns_ret_eq (A : Type) (m : Run M G A) (w w' : World M G) (a : A)
    (P : A -> World M G -> Prop) :
  returns m w P -> m w = Ret (a, w') -> P a w'.
Proof. unfold returns. intros H E. rewrite E in H. exact H. Qed.

Lemma side_bets_hand_inv (h d : Hand M) (tb bb tot : M)
    (r : M * bool) (w w' : World M G) :
  side_bets_hand h d tb bb tot w = Ret (r, w') ->
  shoe w' = shoe w /\ rng w' = rng w
  /\ regular_stats (stats w') = regular_stats (stats w)
  /\ top_bets_hit (stats w')
     = top_bets_hit (stats w) + (if snd r then 1 else 0)
  /\ match_total (top_matches (stats w'))
     = match_total (top_matches (stats w)) + (if snd r then 1 else 0)
  /\ (exists b : bool,
        bottom_bets_hit (stats w')
        = bottom_bets_hit (stats w) + (if b then 1 else 0)
        /\ match_total (bottom_matches (stats w'))
           = match_total (bottom_matches (stats w)) + (if b then 1 else 0))
  /\ (mpositive tb = false ->
        top_stats (stats w') = top_stats (stats w) /\ snd r = false)
  /\ (mpositive bb = false ->
        bottom_stats (stats w') = bottom_stats (stats w))
  /\ (snd r = true <->
        mpositive tb = true
        /\ exists up, nth_error (cards d) 0 = Some up
             /\ calculate_match_payout (evaluate_match (cards h) up) > 0).
Proof.
  unfold side_bets_hand, bind, index, modify_stats, ret, raise_index,
    regular_stats, top_stats, bottom_stats.
  destruct (mpositive tb) eqn:Et.
  - destruct (nth_error (cards d) 0) as [up|] eqn:Eu; [|discriminate].
    pose proof (match_total_update (evaluate_match (cards h) up)
                  (top_matches (stats w))) as Htop.
    destruct (Z.gtb_spec (calculate_match_payout
                            (evaluate_match (cards h) up)) 0) as [Hp|Hp];
      cbn [fst snd shoe stats rng];
      (destruct (mpositive bb) eqn:Eb;
       [destruct (nth_error (cards d) 1) as [dn|] eqn:Ed; [|discriminate];
        pose proof (match_total_update (evaluate_match (cards h) dn)
                      (bottom_matches (stats w))) as Hbot;
        destruct (calculate_match_payout
                    (evaluate_match (cards h) dn) >? 0) eqn:Ebp
       |]);
      intros H; injection H as <- <-; cbn;
      (split; [reflexivity|]); (split; [reflexivity|]);
      (split; [reflexivity|]); (split; [unfold incr; lia|]);
      (split; [lia|]);
      (split; [first [exists true; split; [unfold incr; lia|lia]
                     |exists false; split; lia]|]);
      (split; [discriminate|]);
      (split; [first [discriminate|reflexivity]|]);
      (split; [intros E; first [discriminate E
                               |split; [reflexivity|];
                                exists up; split; [reflexivity|lia]]
              |intros (_ & up' & Eup & Hpos); injection Eup as <-;
               first [reflexivity|lia]]).
  - cbn [fst snd shoe stats rng].
    destruct (mpositive bb) eqn:Eb;
      [destruct (nth_error (cards d) 1) as [dn|] eqn:Ed; [|discriminate];
       pose proof (match_total_update (evaluate_match (cards h) dn)
                     (bottom_matches (stats w))) as Hbot;
       destruct (calculate_match_payout
                   (evaluate_match (cards h) dn) >? 0) eqn:Ebp
      |];
      intros H; injection H as <- <-; cbn;
      (split; [reflexivity|]); (split; [reflexivity|]);
      (split; [reflexivity|]); (split; [lia|]);
      (split; [lia|]);
      (split; [first [exists true; split; [unfold incr; lia|lia]
                     |exists false; split; lia]|]);
      (split; [intros _; split; reflexivity|]);
      (split; [first [discriminate|reflexivity]|]);
      (split; [discriminate|intros (E & _); discriminate]).
Qed.

Lemma side_bets_inv (d : Hand M) (tb bb : M) (hs : list (Hand M)) :
  forall (tot : M) (flags : list bool) (r : M * list bool)
         (w w' : World M G),
    side_bets hs d tb bb tot flags w = Ret (r, w') ->
    shoe w' = shoe w /\ rng w' = rng w
    /\ regular_stats (stats w') = regular_stats (stats w)
    /\ length (snd r) = (length flags + length hs)%nat
    /\ (exists kt kb : nat,
          (kt <= length hs)%nat /\ (kb <= length hs)%nat
          /\ top_bets_hit (stats w') = top_bets_hit (stats w) + Z.of_nat kt
          /\ match_total (top_matches (stats w'))
             = match_total (top_matches (stats w)) + Z.of_nat kt
          /\ bottom_bets_hit (stats w')
             = bottom_bets_hit (stats w) + Z.of_nat kb
          /\ match_total (bottom_matches (stats w'))
             = match_total (bottom_matches (stats w)) + Z.of_nat kb)
    /\ (mpositive tb = false -> top_stats (stats w') = top_stats (stats w))
    /\ (mpositive bb = false ->
          bottom_stats (stats w') = bottom_stats (stats w)).
Proof.
  induction hs as [|h hs IH]; intros tot flags r w w' Hrun;
    cbn [side_bets] in Hrun.
  - apply ret_inv in Hrun. destruct Hrun as [-> ->]. cbn [snd length].
    repeat (split; [first [reflexivity|lia]|]).
    split; [exists 0%nat, 0%nat; cbn; repeat split; lia|]. auto.
  - apply bind_ret_inv in Hrun. destruct Hrun as (r1 & w1 & H1 & Hrun).
    destruct (side_bets_hand_inv _ _ _ _ _ _ _ _ H1)
      as (Hs1 & Hg1 & Hr1 & Ht1 & Hm1 & (b & Hb1 & Hbm1) & Hz1 & Hzb1 & _).
    destruct (IH _ _ _ _ _ Hrun)
      as (Hs2 & Hg2 & Hr2 & Hl2 & (kt & kb & Hkt & Hkb & Ht2 & Hm2 & Hb2 & Hbm2)
          & Hz2 & Hzb2).
    split; [congruence|]. split; [congruence|]. split; [congruence|].
    split; [rewrite Hl2, length_app; cbn; lia|].
    split.
    { exists ((if snd r1 then 1 else 0) + kt)%nat,
             ((if b then 1 else 0) + kb)%nat.
      cbn [length]. destruct (snd r1), b; repeat split; lia. }
    split.
    + intros E. destruct (Hz1 E) as [E1 _]. rewrite (Hz2 E). exact E1.
    + intros E. rewrite (Hzb2 E). exact (Hzb1 E).
Qed.

Lemma determine_winner_frame (ph dh : Hand M) (st : Stats M) :
  top_stats (snd (determine_winner ph dh st)) = top_stats st
  /\ bottom_stats (snd (determine_winner ph dh st)) = bottom_stats st
  /\ total_regular_wagered (snd (determine_winner ph dh st))
     = total_regular_wagered st.
Proof.
  destruct (determine_winner_cases ph dh st) as [E|[E|[E|[_ E]]]];
    rewrite E; repeat split.
Qed.

Lemma settle_hand_frame (h d : Hand M) (dbj : bool) (rb tot : M)
    (w : World M G) :
  returns (settle_hand h d dbj rb tot) w
    (fun _ w' =>
       shoe w' = shoe w /\ rng w' = rng w
       /\ top_stats (stats w') = top_stats (stats w)
       /\ bottom_stats (stats w') = bottom_stats (stats w)
       /\ total_regular_wagered (stats w')
          = madd (total_regular_wagered (stats w)) rb).
Proof.
  unfold settle_hand. apply returns_bind, returns_modify.
  destruct dbj.
  - destruct (is_blackjack h); repeat run_step; repeat split.
  - apply returns_bind. unfold returns at 1, run_determine_winner.
    cbn [stats shoe rng].
    match goal with |- context [determine_winner h d ?st] =>
      destruct (determine_winner_frame h d st) as (Ht & Hb & Hw);
      destruct (determine_winner h d st) as [multiplier st'] end.
    cbn [snd] in Ht, Hb, Hw. repeat run_step.
    unfold top_stats, bottom_stats in *. cbn in *.
    repeat split; assumption.
Qed.

Lemma settle_frame (d : Hand M) (dbj : bool) (rb : M) (hs : list (Hand M)) :
  forall (tot : M) (w : World M G),
    returns (settle hs d dbj rb tot) w
      (fun _ w' =>
         shoe w' = shoe w /\ rng w' = rng w
         /\ top_stats (stats w') = top_stats (stats w)
         /\ bottom_stats (stats w') = bottom_stats (stats w)
         /\ total_regular_wagered (stats w')
            = Nat.iter (length hs) (fun x => madd x rb)
                (total_regular_wagered (stats w))).
Proof.
  induction hs as [|h hs IH]; intros tot w; cbn [settle].
  - apply returns_ret. repeat split.
  - apply returns_bind.
    apply (returns_impl _ _ _ _ _ (settle_hand_frame h d dbj rb tot w)).
    intros tot1 w1 (Hs1 & Hg1 & Ht1 & Hb1 & Hw1).
    apply (returns_impl _ _ _ _ _ (IH tot1 w1)).
    intros tot2 w2 (Hs2 & Hg2 & Ht2 & Hb2 & Hw2).
    split; [congruence|]. split; [congruence|]. split; [congruence|].
    split; [congruence|].
    rewrite Hw2, Hw1. cbn [length]. symmetry.
    exact (Nat.iter_succ_r (length hs) M (fun x => madd x rb) _).
Qed.

Lemma play_hands_inv (fuel : nat) (d : Hand M) (auto : bool)
    (flags : list bool) (hs : list (Hand M)) :
  forall (i : nat) (hs' : list (Hand M)) (w w' : World M G),
    play_hands fuel i hs d auto flags w = Ret (hs', w') ->
    exists cs : list Card, dealt cs w w' /\ length hs' = length hs.
Proof.
  induction hs as [|h hs IH]; intros i hs' w w' Hrun; cbn [play_hands] in Hrun.
  - apply ret_inv in Hrun. destruct Hrun as [-> ->].
    exists []. split; [apply dealt_nil|reflexivity].
  - apply bind_ret_inv in Hrun. destruct Hrun as (h1 & w1 & H1 & Hrun).
    apply bind_ret_inv in Hrun. destruct Hrun as (rest & w2 & H2 & Hrun).
    apply ret_inv in Hrun. destruct Hrun as [-> ->].
    destruct (IH _ _ _ _ H2) as (cs2 & Hd2 & Hl2).
    assert (Hd1 : exists cs1 : list Card, dealt cs1 w w1).
    { destruct (natural_21 h).
      - apply ret_inv in H1. destruct H1 as [_ ->].
        exists []. apply dealt_nil.
      - apply bind_ret_inv in H1. destruct H1 as (up & wa & Ha & H1).
        unfold index in Ha. destruct (nth_error (cards d) 0); [|discriminate].
        apply ret_inv in Ha. destruct Ha as [-> ->].
        apply bind_ret_inv in H1. destruct H1 as (fl & wb & Hb & H1).
        unfold index in Hb. destruct (nth_error flags i); [|discriminate].
        apply ret_inv in Hb. destruct Hb as [-> ->].
        destruct (play_hand_inv _ _ _ _ _ _ _ _ H1) as (cs1 & Hd1 & _).
        exists cs1. exact Hd1. }
    destruct Hd1 as (cs1 & Hd1).
    exists (cs1 ++ cs2). split; [eapply dealt_app; eassumption|cbn; lia].
Qed.

Lemma play_round_inv (fuel : nat) (hs : list (Hand M)) (d : Hand M)
    (dbj auto : bool) (flags : list bool) (r : list (Hand M) * Hand M)
    (w w' : World M G) :
  play_round fuel hs d dbj auto flags w = Ret (r, w') ->
  exists cs : list Card, dealt cs w w' /\ length (fst r) = length hs.
Proof.
  unfold play_round. destruct dbj; cbn [negb].
  - intros H. apply ret_inv in H. destruct H as [-> ->].
    exists []. split; [apply dealt_nil|reflexivity].
  - intros H. apply bind_ret_inv in H. destruct H as (hs' & w1 & H1 & H).
    destruct (play_hands_inv _ _ _ _ _ _ _ _ _ H1) as (cs1 & Hd1 & Hl1).
    destruct (any_live hs').
    + apply bind_ret_inv in H. destruct H as (d' & w2 & H2 & H).
      apply ret_inv in H. destruct H as [-> ->].
      destruct (play_dealer_hand_inv _ _ _ _ _ H2) as (cs2 & Hd2 & _).
      exists (cs1 ++ cs2). split; [eapply dealt_app; eassumption|assumption].
    + apply ret_inv in H. destruct H as [-> ->].
      exists cs1. split; assumption.
Qed.

Lemma simulate_round_inv (fuel : nat) (num_hands : Z) (rb tb bb : M)
    (auto : bool) (payout : M) (w w' : World M G) :
  simulate_round fuel num_hands rb tb bb auto w = Ret (payout, w') ->
  exists hs d w1 sb w2 played w3 w4,
    initial_deal num_hands rb w = Ret ((hs, d), w1)
    /\ side_bets hs d tb bb mzero [] w1 = Ret (sb, w2)
    /\ play_round fuel hs d (natural_21 d) auto (snd sb) w2
       = Ret (played, w3)
    /\ settle (fst played) (snd played) (natural_21 d) rb (fst sb) w3
       = Ret (payout, w4)
    /\ w' = mkWorld (shoe w4)
              (upd_hands_played (fun n => n + num_hands) (stats w4)) (rng w4).
Proof.
  unfold simulate_round. intros H.
  apply bind_ret_inv in H. destruct H as ([hs d] & w1 & H1 & H).
  cbv zeta in H. cbn [fst snd] in H.
  apply bind_ret_inv in H. destruct H as (sb & w2 & H2 & H).
  apply bind_ret_inv in H. destruct H as (played & w3 & H3 & H).
  apply bind_ret_inv in H. destruct H as (p & w4 & H4 & H).
  apply bind_ret_inv in H. destruct H as ([] & w5 & H5 & H).
  apply ret_inv in H. destruct H as [-> ->].
  unfold modify_stats in H5. injection H5 as <-.
  exists hs, d, w1, sb, w2, played, w3, w4. auto.
Qed.

(** ** A whole round *)

Lemma shoe_deal_within (sh sh' : Shoe) (g g' : G) (c : Card) :
  shoe_deal sh g = Some (c, (sh', g')) ->
  num_decks sh' = num_decks sh /\ (within_decks sh -> within_decks sh').
Proof.
  intros Hs.
  assert (Hd : deal (mkWorld sh (initial_stats (M:=M)) g)
               = Ret (c, mkWorld sh' initial_stats g'))
    by (rewrite deal_shoe_deal; cbn [shoe rng stats]; now rewrite Hs).
  destruct (deal_inv _ _ _ Hd) as (_ & Hn & _).
  split; [exact Hn|].
  intros Hw.
  exact (within_decks_deal (mkWorld sh initial_stats g)
           (mkWorld sh' initial_stats g') c Hw Hd).
Qed.

Lemma deal_seq_within (n : nat) :
  forall (sh sh' : Shoe) (g g' : G) (cs : list Card),
    deal_seq n sh g = Some (cs, (sh', g')) ->
    num_decks sh' = num_decks sh /\ (within_decks sh -> within_decks sh').
Proof.
  induction n as [|n IH]; intros sh sh' g g' cs H; cbn [deal_seq] in H.
  - injection H as _ <- _. auto.
  - destruct (shoe_deal sh g) as [[c [sh1 g1]]|] eqn:E; [|discriminate].
    destruct (deal_seq n sh1 g1) as [[cs' [sh2 g2]]|] eqn:E2; [|discriminate].
    injection H as _ <- _.
    destruct (shoe_deal_within _ _ _ _ _ E) as [Hn1 Hw1].
    destruct (IH _ _ _ _ _ E2) as [Hn2 Hw2].
    split; [congruence|auto].
Qed.

Lemma simulate_round_facts (fuel : nat) (num_hands : Z) (rb tb bb : M)
    (auto : bool) (payout : M) (w w' : World M G) :
  simulate_round fuel num_hands rb tb bb auto w = Ret (payout, w') ->
  exists (cs : list Card) (kt kb : nat),
    deal_seq (length cs) (shoe w) (rng w) = Some (cs, (shoe w', rng w'))
    /\ (2 * Z.to_nat num_hands + 2 <= length cs)%nat
    /\ (kt <= Z.to_nat num_hands)%nat /\ (kb <= Z.to_nat num_hands)%nat
    /\ top_bets_hit (stats w') = top_bets_hit (stats w) + Z.of_nat kt
    /\ match_total (top_matches (stats w'))
       = match_total (top_matches (stats w)) + Z.of_nat kt
    /\ bottom_bets_hit (stats w') = bottom_bets_hit (stats w) + Z.of_nat kb
    /\ match_total (bottom_matches (stats w'))
       = match_total (bottom_matches (stats w)) + Z.of_nat kb
    /\ (mpositive tb = false -> top_stats (stats w') = top_stats (stats w))
    /\ (mpositive bb = false ->
          bottom_stats (stats w') = bottom_stats (stats w))
    /\ total_regular_wagered (stats w')
       = Nat.iter (Z.to_nat num_hands) (fun x => madd x rb)
           (total_regular_wagered (stats w))
    /\ hands_played (stats w') = hands_played (stats w) + num_hands.
Proof.
  intros Hrun.
  destruct (simulate_round_inv _ _ _ _ _ _ _ _ _ Hrun)
    as (hs & d & w1 & sb & w2 & played & w3 & w4 & H1 & H2 & H3 & H4 & ->).
  destruct (initial_deal_inv _ _ _ _ _ _ H1)
    as (firsts & seconds & up & hole & Hl1 & Hl2 & [Hd1 Hst1] & Hhs & _).
  assert (Hlen : length hs = Z.to_nat num_hands)
    by (rewrite Hhs, length_map, length_combine; lia).
  destruct (side_bets_inv _ _ _ _ _ _ _ _ _ H2)
    as (Hs2 & Hg2 & Hr2 & _ & (kt & kb & Hkt & Hkb & Ht & Hm & Hb & Hbm)
        & Hz & Hzb).
  destruct (play_round_inv _ _ _ _ _ _ _ _ _ H3) as (cs2 & [Hd3 Hst3] & Hl3).
  destruct (returns_ret_eq _ _ _ _ _ _
              (settle_frame (snd played) (natural_21 d) rb (fst played)
                 (fst sb) w3) H4)
    as (Hs4 & Hg4 & Ht4 & Hb4 & Hw4).
  destruct (returns_ret_eq _ _ _ _ _ _
              (settle_returns (snd played) (natural_21 d) rb (fst played)
                 (fst sb) w3) H4)
    as (os & _ & [(Hp4 & _) _] & _).
  unfold top_stats, bottom_stats, regular_stats in *.
  cbn [shoe stats rng upd_hands_played hands_played top_bets_hit top_matches
       bottom_bets_hit bottom_matches total_regular_wagered
       total_top_bet_payout total_top_bet_wagered total_bottom_bet_payout
       total_bottom_bet_wagered].
  injection Ht4 as Ht4a Ht4b Ht4c Ht4d.
  injection Hb4 as Hb4a Hb4b Hb4c Hb4d.
  injection Hr2 as Hr2a Hr2b Hr2c Hr2d Hr2e Hr2f Hr2g.
  rewrite Hst3 in *. rewrite Hst1 in *.
  exists ((firsts ++ [up] ++ seconds ++ [hole]) ++ cs2), kt, kb.
  split.
  { rewrite length_app, Hs4, Hg4.
    eapply deal_seq_app; [exact Hd1|].
    rewrite <- Hs2, <- Hg2. exact Hd3. }
  split; [repeat rewrite length_app; cbn [length]; lia|].
  split; [lia|]. split; [lia|].
  split; [congruence|]. split; [congruence|].
  split; [congruence|]. split; [congruence|].
  split; [intros E; specialize (Hz E); injection Hz as Hza Hzb' Hzc Hzd;
          congruence|].
  split; [intros E; specialize (Hzb E); injection Hzb as Hza Hzb' Hzc Hzd;
          congruence|].
  split; [rewrite Hw4, Hl3, Hlen; congruence|].
  rewrite Hp4. congruence.
Qed.

(** ** The counter each hand of a round goes to *)

Lemma determine_winner_result (ph dh : Hand M) (st : Stats M) :
  tallied [hand_result false dh ph] st (snd (determine_winner ph dh st)).
Proof.
  unfold determine_winner, hand_result, is_bust. cbn [first_applicable].
  destruct (surrendered ph); [tallied_now|].
  destruct (value ph >? 21); [tallied_now|]. cbv zeta.
  destruct (value ph =? 21).
  - destruct (Nat.eqb (length (cards ph)) 2); [tallied_now|].
    destruct (Nat.eqb (length (cards ph)) 5); [tallied_now|].
    destruct (Nat.eqb (length (cards ph)) 6); tallied_now.
  - rewrite !andb_false_r. cbn [andb].
    destruct (value dh >? 21); [tallied_now|].
    destruct (value ph >? value dh); [tallied_now|].
    destruct (value ph =? value dh); tallied_now.
Qed.

Lemma settle_hand_result (h d : Hand M) (dbj : bool) (bet tot : M)
    (w : World M G) :
  returns (settle_hand h d dbj bet tot) w
    (fun _ w' => settled [hand_result dbj d h] w w').
Proof.
  unfold settle_hand, hand_result. apply returns_bind, returns_modify.
  destruct dbj.
  - destruct (is_blackjack h); repeat run_step; settled_now.
  - apply returns_bind. unfold returns at 1, run_determine_winner.
    cbn [stats shoe rng].
    match goal with |- context [determine_winner h d ?st] =>
      pose proof (determine_winner_result h d st) as Ht;
      destruct (determine_winner h d st) as [multiplier st'] end.
    cbn [snd] in Ht. repeat run_step.
    unfold hand_result in Ht.
    unfold settled, tallied in *. cbn in *. intuition lia.
Qed.

Lemma settle_result (d : Hand M) (dbj : bool) (bet : M) (hs : list (Hand M)) :
  forall (tot : M) (w : World M G),
    returns (settle hs d dbj bet tot) w
      (fun _ w' => settled (map (hand_result dbj d) hs) w w').
Proof.
  induction hs as [|h hs IH]; intros tot w; cbn [settle map].
  - apply returns_ret. apply settled_nil, stats_kept_refl.
  - apply returns_bind.
    apply (returns_impl _ _ _ _ _ (settle_hand_result h d dbj bet tot w)).
    intros tot1 w1 H1.
    apply (returns_impl _ _ _ _ _ (IH tot1 w1)).
    intros tot2 w2 H2.
    exact (settled_app [hand_result dbj d h] _ _ _ _ H1 H2).
Qed.

Lemma hand_result_surrendered (d h : Hand M) :
  HandOutcome_eqb Surrendered (hand_result false d h) = surrendered h.
Proof.
  unfold hand_result. cbn [first_applicable].
  destruct (surrendered h); [reflexivity|].
  repeat match goal with
         | |- context [if ?b then _ else _] => destruct b
         end; reflexivity.
Qed.

Lemma tally_surrendered (d : Hand M) (hs : list (Hand M)) :
  tally Surrendered (map (hand_result false d) hs)
  = Z.of_nat (length (filter surrendered hs)).
Proof.
  unfold tally. induction hs as [|h hs IH]; [reflexivity|].
  cbn [map filter]. rewrite hand_result_surrendered.
  destruct (surrendered h); cbn [length]; lia.
Qed.

(** C9: a round adds [num_hands] to [hands_played] and sends each player
    hand to exactly one of [hands_won], [hands_lost], [hands_pushed],
    [hands_surrendered], the one its state after play calls for: without
    a dealer blackjack every hand that surrendered goes to
    [hands_surrendered] and not to [hands_lost]; so the sum of the four
    keeps equal to [hands_played], and after any number of rounds on a new
    simulator both are the number of hands dealt. *)
Theorem round_counters :
  (forall (ph dh : Hand M) (st : Stats M),
      surrendered ph = true ->
      determine_winner ph dh st = (0.5%Q, upd_hands_surrendered incr st)
      /\ hands_lost (upd_hands_surrendered incr st) = hands_lost st)
  /\ (forall (h d : Hand M) (dbj : bool) (bet tot : M) (w : World M G),
        exists tot' w',
          settle_hand h d dbj bet tot w = Ret (tot', w')
          /\ tallied [hand_result dbj d h] (stats w) (stats w')
          /\ (dbj = false -> surrendered h = true ->
                hands_surrendered (stats w') = hands_surrendered (stats w) + 1
                /\ hands_lost (stats w') = hands_lost (stats w)))
  /\ (forall fuel num_hands (regular_bet top_bet bottom_bet : M) auto
             (w : World M G),
        0 <= num_hands -> shoe_ok w -> (22 <= fuel)%nat ->
        exists payout w' hs d w1 sb w2 hs' d' w3 (os : list HandOutcome),
          simulate_round fuel num_hands regular_bet top_bet bottom_bet auto w
          = Ret (payout, w')
          /\ initial_deal num_hands regular_bet w = Ret ((hs, d), w1)
          /\ side_bets hs d top_bet bottom_bet mzero [] w1 = Ret (sb, w2)
          /\ play_round fuel hs d (natural_21 d) auto (snd sb) w2
             = Ret ((hs', d'), w3)
          /\ os = map (hand_result (natural_21 d) d') hs'
          /\ (natural_21 d = false ->
                tally Surrendered os
                = Z.of_nat (length (filter surrendered hs')))
          /\ Z.of_nat (length os) = num_hands
          /\ hands_played (stats w') = hands_played (stats w) + num_hands
          /\ hands_won (stats w') = hands_won (stats w) + tally Won os
          /\ hands_lost (stats w') = hands_lost (stats w) + tally Lost os
          /\ hands_pushed (stats w')
             = hands_pushed (stats w) + tally Pushed os
          /\ hands_surrendered (stats w')
             = hands_surrendered (stats w) + tally Surrendered os
          /\ tally Won os + tally Lost os + tally Pushed os
             + tally Surrendered os = num_hands
          /\ (counters_balanced (stats w) -> counters_balanced (stats w'))
          /\ shoe_ok w')
  /\ (forall (n fuel : nat) num_hands (regular_bet top_bet bottom_bet : M)
             auto (g : G),
        0 <= num_hands -> (22 <= fuel)%nat ->
        exists w',
          simulate_rounds n fuel num_hands regular_bet top_bet bottom_bet auto
            (new_simulator g) = Ret (tt, w')
          /\ hands_played (stats w') = Z.of_nat n * num_hands
          /\ hands_won (stats w') + hands_lost (stats w')
             + hands_pushed (stats w') + hands_surrendered (stats w')
             = Z.of_nat n * num_hands).
Proof.
  split.
  { intros ph dh st Hs. unfold determine_winner. rewrite Hs. split; reflexivity. }
  split; [|split]; cycle 2.
  { intros n fuel num_hands regular_bet top_bet bottom_bet auto g Hn Hf.
    destruct (new_simulator_ok g) as (Hok & Hp0 & Hbal0).
    destruct (returns_inv _ _ _ _
                (simulate_rounds_returns fuel num_hands regular_bet top_bet
                   bottom_bet auto n (new_simulator g) Hn Hok Hf Hbal0))
      as ([] & w' & Erun & Hp & Hbal).
    exists w'. unfold counters_balanced in Hbal.
    split; [assumption|]. split; lia. }
  { intros h d dbj bet tot w.
    destruct (returns_inv _ _ _ _ (settle_hand_result h d dbj bet tot w))
      as (tot' & w' & Erun & [Ht _]).
    exists tot', w'. split; [assumption|]. split; [assumption|].
    intros -> Hs. unfold hand_result in Ht. cbn [first_applicable] in Ht.
    rewrite Hs in Ht. destruct Ht as (_ & _ & Hl & _ & Hsu).
    unfold tally in Hl, Hsu. cbn in Hl, Hsu. lia. }
  intros fuel num_hands regular_bet top_bet bottom_bet auto w Hn Hok Hf.
  destruct (returns_inv _ _ _ _
              (simulate_round_returns fuel num_hands regular_bet top_bet
                 bottom_bet auto w Hn Hok Hf))
    as (payout & w' & Erun & _ & _ & _ & _ & _ & _ & _ & Hok' & _).
  destruct (simulate_round_inv _ _ _ _ _ _ _ _ _ Erun)
    as (hs & d & w1 & sb & w2 & [hs' d'] & w3 & w4
        & H1 & H2 & H3 & H4 & Ew').
  destruct (initial_deal_inv _ _ _ _ _ _ H1)
    as (firsts & seconds & up & hole & Hl1 & Hl2 & [_ Hst1] & Hhs & _).
  assert (Hlen : length hs = Z.to_nat num_hands)
    by (rewrite Hhs, length_map, length_combine; lia).
  destruct (side_bets_inv _ _ _ _ _ _ _ _ _ H2) as (_ & _ & Hr2 & _).
  destruct (play_round_inv _ _ _ _ _ _ _ _ _ H3) as (cs & [_ Hst3] & Hl3).
  cbn [fst snd] in H4, Hl3.
  pose proof (returns_ret_eq _ _ _ _ _ _
                (settle_result d' (natural_21 d) regular_bet hs' (fst sb) w3)
                H4) as [(Hp4 & Hw4 & Hlo4 & Hpu4 & Hsu4) _].
  unfold regular_stats in Hr2.
  injection Hr2 as Hr2a Hr2b Hr2c Hr2d Hr2e Hr2f Hr2g.
  rewrite Hst3 in *. rewrite Hst1 in *.
  set (os := map (hand_result (natural_21 d) d') hs') in *.
  assert (Hlos : Z.of_nat (length os) = num_hands)
    by (unfold os; rewrite length_map, Hl3, Hlen; lia).
  pose proof (tally_total os) as Htot.
  exists payout, w', hs, d, w1, sb, w2, hs', d', w3, os.
  subst w'.
  cbn [stats upd_hands_played hands_played hands_won hands_lost hands_pushed
       hands_surrendered] in *.
  split; [assumption|]. split; [assumption|]. split; [assumption|].
  split; [assumption|]. split; [reflexivity|].
  split; [intros E; unfold os; rewrite E; apply tally_surrendered|].
  split; [assumption|].
  split; [lia|]. split; [lia|]. split; [lia|]. split; [lia|].
  split; [lia|]. split; [lia|].
  split; [unfold counters_balanced;
          cbn [stats upd_hands_played hands_played hands_won hands_lost
               hands_pushed hands_surrendered]; intros Hbal; lia
         |assumption].
Qed.

(** X18: a round touches the shoe only by dealing: the shoe after it is
    the shoe before it after some [2 * num_hands + 2] or more consecutive
    [deal()] calls; the deck count is unchanged and the shoe still holds
    no card more often than it has decks. *)
Theorem round_shoe_effect (fuel : nat) (num_hands : Z) (rb tb bb : M)
    (auto : bool) (payout : M) (w w' : World M G) :
  simulate_round fuel num_hands rb tb bb auto w = Ret (payout, w') ->
  exists cs : list Card,
    deal_seq (length cs) (shoe w) (rng w) = Some (cs, (shoe w', rng w'))
    /\ (2 * Z.to_nat num_hands + 2 <= length cs)%nat
    /\ num_decks (shoe w') = num_decks (shoe w)
    /\ (within_decks (shoe w) -> within_decks (shoe w')).
Proof.
  intros Hrun.
  destruct (simulate_round_facts _ _ _ _ _ _ _ _ _ Hrun)
    as (cs & _ & _ & Hd & Hlen & _).
  exists cs. split; [assumption|]. split; [assumption|].
  exact (deal_seq_within _ _ _ _ _ _ Hd).
Qed.

(** X19: over a round each side bet records at most one hit per player
    hand, and every hit it counts is filed under exactly one category of
    its [MatchResult]. *)
Theorem round_side_bet_hits (fuel : nat) (num_hands : Z) (rb tb bb : M)
    (auto : bool) (payout : M) (w w' : World M G) :
  simulate_round fuel num_hands rb tb bb auto w = Ret (payout, w') ->
  exists kt kb : nat,
    (kt <= Z.to_nat num_hands)%nat /\ (kb <= Z.to_nat num_hands)%nat
    /\ top_bets_hit (stats w') = top_bets_hit (stats w) + Z.of_nat kt
    /\ match_total (top_matches (stats w'))
       = match_total (top_matches (stats w)) + Z.of_nat kt
    /\ bottom_bets_hit (stats w') = bottom_bets_hit (stats w) + Z.of_nat kb
    /\ match_total (bottom_matches (stats w'))
       = match_total (bottom_matches (stats w)) + Z.of_nat kb.
Proof.
  intros Hrun.
  destruct (simulate_round_facts _ _ _ _ _ _ _ _ _ Hrun)
    as (_ & kt & kb & _ & _ & H).
  exists kt, kb. tauto.
Qed.

(** X20: a side bet that is not positive is skipped: the round leaves
    its hit count, categories, wagered and paid totals as they were. *)
Theorem round_skips_zero_side_bet (fuel : nat) (num_hands : Z) (rb tb bb : M)
    (auto : bool) (payout : M) (w w' : World M G) :
  simulate_round fuel num_hands rb tb bb auto w = Ret (payout, w') ->
  (mpositive tb = false -> top_stats (stats w') = top_stats (stats w))
  /\ (mpositive bb = false -> bottom_stats (stats w') = bottom_stats (stats w)).
Proof.
  intros Hrun.
  destruct (simulate_round_facts _ _ _ _ _ _ _ _ _ Hrun)
    as (_ & _ & _ & _ & _ & _ & _ & _ & _ & _ & _ & Ht & Hb & _).
  auto.
Qed.

(** X21: a round adds the regular bet to [total_regular_wagered] once per
    player hand, and adds [num_hands] itself to [hands_played], also when
    [num_hands] is negative and no hand is dealt. *)
Theorem round_regular_wager (fuel : nat) (num_hands : Z) (rb tb bb : M)
    (auto : bool) (payout : M) (w w' : World M G) :
  simulate_round fuel num_hands rb tb bb auto w = Ret (payout, w') ->
  total_regular_wagered (stats w')
  = Nat.iter (Z.to_nat num_hands) (fun x => madd x rb)
      (total_regular_wagered (stats w))
  /\ hands_played (stats w') = hands_played (stats w) + num_hands.
Proof.
  intros Hrun.
  destruct (simulate_round_facts _ _ _ _ _ _ _ _ _ Hrun)
    as (_ & _ & _ & _ & _ & _ & _ & _ & _ & _ & _ & _ & _ & Hw & Hp).
  auto.
Qed.

(** X22: with no player hand ([num_hands <= 0]) a round deals the
    dealer's two cards, pays the literal 0 and only adds [num_hands] to
    [hands_played]. *)
Theorem round_without_hands (fuel : nat) (num_hands : Z) (rb tb bb : M)
    (auto : bool) (w : World M G) :
  num_hands <= 0 ->
  simulate_round fuel num_hands rb tb bb auto w
  = bind deal (fun _ => bind deal (fun _ =>
      bind (modify_stats (upd_hands_played (fun n => n + num_hands)))
        (fun _ => ret mzero))) w.
Proof.
  intros Hn. unfold simulate_round, initial_deal.
  replace (Z.to_nat num_hands) with 0%nat by lia.
  unfold play_round, bind, ret.
  cbn -[deal natural_21 modify_stats add_card new_hand].
  destruct (deal w) as [[c1 w1]| |]; try reflexivity.
  cbn -[deal natural_21 modify_stats add_card new_hand].
  destruct (deal w1) as [[c2 w2]| |]; try reflexivity.
  cbn -[deal natural_21 modify_stats add_card new_hand].
  destruct (natural_21 (add_card (add_card new_hand c1) c2));
    cbn -[deal natural_21 modify_stats add_card new_hand]; reflexivity.
Qed.

Lemma settle_hand_dealer_natural (h d : Hand M) (rb tot : M) (w : World M G) :
  is_blackjack h = false ->
  settle_hand h d true rb tot w
  = Ret (tot,
         mkWorld (shoe w)
           (upd_hands_lost incr
              (upd_total_regular_wagered (fun x => madd x rb) (stats w)))
           (rng w)).
Proof. intros E. unfold settle_hand. rewrite E. reflexivity. Qed.

Lemma settle_dealer_natural (d : Hand M) (rb : M) (hs : list (Hand M)) :
  forall (tot : M) (w : World M G),
    Forall (fun h => is_blackjack h = false) hs ->
    exists w',
      settle hs d true rb tot w = Ret (tot, w')
      /\ shoe w' = shoe w /\ rng w' = rng w
      /\ hands_lost (stats w') = hands_lost (stats w) + Z.of_nat (length hs)
      /\ hands_won (stats w') = hands_won (stats w)
      /\ hands_pushed (stats w') = hands_pushed (stats w)
      /\ hands_surrendered (stats w') = hands_surrendered (stats w)
      /\ hands_played (stats w') = hands_played (stats w)
      /\ total_regular_payout (stats w') = total_regular_payout (stats w).
Proof.
  induction hs as [|h hs IH]; intros tot w Hall; cbn [settle].
  - exists w. cbn [length]. repeat split; lia.
  - apply Forall_cons_iff in Hall. destruct Hall as [Hh Hrest].
    unfold bind at 1. rewrite (settle_hand_dealer_natural h d rb tot w Hh).
    destruct (IH tot
                (mkWorld (shoe w)
                   (upd_hands_lost incr
                      (upd_total_regular_wagered (fun x => madd x rb)
                         (stats w))) (rng w)) Hrest)
      as (w' & Hrun & Hs & Hg & Hl & Hw & Hp & Hsu & Hpl & Hpay).
    exists w'. split; [exact Hrun|].
    cbn [shoe rng stats upd_hands_lost upd_total_regular_wagered hands_lost
         hands_won hands_pushed hands_surrendered hands_played
         total_regular_payout] in *.
    unfold incr in Hl. cbn [length].
    repeat split; try assumption; lia.
Qed.

(** X23: when the initial deal gives the dealer a natural, the round draws
    no further card, returns the side-bet winnings alone, counts every
    player hand as lost (also a player natural) and none as pushed, won or
    surrendered, and adds nothing to [total_regular_payout]. *)
Theorem dealer_natural_round (fuel : nat) (num_hands : Z) (rb tb bb : M)
    (auto : bool) (payout : M) (w w1 w' : World M G)
    (hs : list (Hand M)) (d : Hand M) :
  simulate_round fuel num_hands rb tb bb auto w = Ret (payout, w') ->
  initial_deal num_hands rb w = Ret ((hs, d), w1) ->
  natural_21 d = true ->
  shoe w' = shoe w1 /\ rng w' = rng w1
  /\ (exists sb w2,
        side_bets hs d tb bb mzero [] w1 = Ret (sb, w2) /\ payout = fst sb)
  /\ hands_lost (stats w') = hands_lost (stats w) + Z.of_nat (length hs)
  /\ hands_pushed (stats w') = hands_pushed (stats w)
  /\ hands_won (stats w') = hands_won (stats w)
  /\ hands_surrendered (stats w') = hands_surrendered (stats w)
  /\ total_regular_payout (stats w') = total_regular_payout (stats w).
Proof.
  intros Hrun Hdeal Hnat.
  destruct (simulate_round_inv _ _ _ _ _ _ _ _ _ Hrun)
    as (hs0 & d0 & w10 & sb & w2 & played & w3 & w4
        & H1 & H2 & H3 & H4 & ->).
  rewrite Hdeal in H1. injection H1 as <- <- <-.
  rewrite Hnat in H3, H4.
  unfold play_round in H3. cbn [negb] in H3.
  apply ret_inv in H3. destruct H3 as [-> ->]. cbn [fst snd] in H4.
  destruct (initial_deal_inv _ _ _ _ _ _ Hdeal)
    as (firsts & seconds & up & hole & _ & _ & [_ Hst1] & Hhs & _).
  assert (Hall : Forall (fun h => is_blackjack h = false) hs).
  { rewrite Hhs. apply Forall_forall. intros h Hin.
    apply in_map_iff in Hin. destruct Hin as (p & <- & _). reflexivity. }
  destruct (settle_dealer_natural d rb hs (fst sb) w2 Hall)
    as (w4' & Hset & Hs & Hg & Hl & Hw & Hp & Hsu & _ & Hpay).
  rewrite Hset in H4. injection H4 as <- <-.
  destruct (side_bets_inv _ _ _ _ _ _ _ _ _ H2) as (Hs2 & Hg2 & Hr2 & _).
  unfold regular_stats in Hr2.
  injection Hr2 as Hr2a Hr2b Hr2c Hr2d Hr2e Hr2f Hr2g.
  cbn [shoe rng stats upd_hands_played hands_lost hands_pushed hands_won
       hands_surrendered total_regular_payout].
  rewrite Hst1 in *.
  split; [congruence|]. split; [congruence|].
  split; [exists sb, w2; split; [assumption|reflexivity]|].
  repeat split; congruence.
Qed.

(** X1: the shoe of a new simulator holds no card more often than it has
    decks, and every successful [deal()] keeps it so. *)
Theorem shoe_within_decks :
  (forall g : G, within_decks (shoe (new_simulator (M:=M) g)))
  /\ (forall (w w' : World M G) (c : Card),
        within_decks (shoe w) -> deal w = Ret (c, w') ->
        within_decks (shoe w')).
Proof.
  split; [|exact within_decks_deal].
  intros g c. unfold new_simulator.
  pose proof (reshuffle_spec (mkShoe 8 []) g) as (Hn & Hc & _).
  destruct (reshuffle (mkShoe 8 []) g) as [sh g']. cbn [fst shoe] in *.
  rewrite Hc, Hn. cbn [num_decks]. lia.
Qed.

(** ** The simulation loop of [main] *)

Context {MB : Bankroll M}.

Lemma rounds_loop_returns (fuel : nat) (hpr : Z) (rb tb bb : M) (auto : bool)
    (bpr : M) (n : nat) :
  forall (bankroll : M) (rp : Z) (w : World M G),
    0 <= hpr -> shoe_ok w -> (22 <= fuel)%nat ->
    returns (rounds_loop fuel n hpr rb tb bb auto bpr bankroll rp) w
      (fun r w' =>
         rp <= snd r <= rp + Z.of_nat n
         /\ hands_played (stats w')
            = hands_played (stats w) + (snd r - rp) * hpr
         /\ (counters_balanced (stats w) -> counters_balanced (stats w'))
         /\ shoe_ok w').
Proof.
  induction n as [|n IH]; intros bankroll rp w Hh Hok Hf;
    cbn [rounds_loop].
  - apply returns_ret. cbn [snd]. repeat split; try lia; auto.
  - destruct (mlt bankroll bpr).
    + apply returns_ret. cbn [snd]. repeat split; try lia; auto.
    + cbv zeta. apply returns_bind.
      apply (returns_impl _ _ _ _ _
               (simulate_round_returns fuel hpr rb tb bb auto w Hh Hok Hf)).
      intros payout w1 (os & Hlen & Hp & Hw & Hl & Hpu & Hs & Hok1 & _).
      pose proof (tally_total os) as Htot.
      apply (returns_impl _ _ _ _ _
               (IH (madd (msub bankroll bpr) payout) (rp + 1) w1 Hh Hok1 Hf)).
      intros r w2 (Hr & Hp2 & Hbal2 & Hok2).
      split; [lia|]. split; [lia|]. split; [|assumption].
      intros Hbal. apply Hbal2. unfold counters_balanced in *. lia.
Qed.

(** X24: the simulation of [main] fails with [ZeroDivisionError] for zero
    hands per round; for a positive number it plays at most
    [total_hands // hands_per_round] rounds, so never more than
    [total_hands] hands, the hands played are the rounds played times the
    hands per round, and the four result counters add up to them. *)
Theorem simulation_hands_played :
  (forall fuel (g : G) (bankroll rb tb bb : M) auto total_hands,
      run_simulation fuel g bankroll rb tb bb auto 0 total_hands = None)
  /\ (forall fuel (g : G) (bankroll rb tb bb : M) auto hpr total_hands,
        0 < hpr -> (22 <= fuel)%nat ->
        exists bankroll' rounds w',
          run_simulation fuel g bankroll rb tb bb auto hpr total_hands
          = Some (Ret ((bankroll', rounds), w'))
          /\ 0 <= rounds <= Z.max 0 (total_hands / hpr)
          /\ hands_played (stats w') = rounds * hpr
          /\ hands_played (stats w') <= Z.max 0 total_hands
          /\ counters_balanced (stats w')).
Proof.
  split; [reflexivity|].
  intros fuel g bankroll rb tb bb auto hpr total_hands Hh Hf.
  unfold run_simulation, floor_div.
  destruct (Z.eqb_spec hpr 0) as [E|_]; [lia|]. cbv zeta.
  destruct (new_simulator_ok g) as (Hok & Hp0 & Hbal0).
  destruct (returns_inv _ _ _ _
              (rounds_loop_returns fuel hpr rb tb bb auto
                 (mscale (madd (madd rb tb) bb) (inject_Z hpr))
                 (Z.to_nat (total_hands / hpr)) bankroll 0 (new_simulator g)
                 ltac:(lia) Hok Hf))
    as ([bankroll' rounds] & w' & Erun & Hr & Hp & Hbal & _).
  cbn [snd] in Hr, Hp.
  exists bankroll', rounds, w'. split; [now rewrite Erun|].
  assert (Hmul : hpr * (total_hands / hpr) <= total_hands \/ total_hands < 0).
  { destruct (Z.le_gt_cases 0 total_hands) as [Hn|Hn]; [left|right; lia].
    apply Z.mul_div_le. lia. }
  assert (Hdiv : total_hands < 0 -> total_hands / hpr < 0)
    by (intros Hneg; apply Z.div_lt_upper_bound; lia).
  split; [lia|]. split; [lia|]. split; [nia|auto].
Qed.


End Engine.

(** * Concrete runs *)

(** C1, where the code departs from it: the dealer and the player both
    hold a natural 21, and the round pays nothing and counts the hand as
    lost, not pushed. *)
Theorem dealer_blackjack_push_missed :
  exists hs d w1 payout w',
    Permutation (fresh_cards 8) (shoe_cards (shoe blackjack_tie_world))
    /\ initial_deal 1 10%Q blackjack_tie_world = Ret ((hs, d), w1)
    /\ natural_21 d = true
    /\ Forall (fun h => natural_21 h = true) hs
    /\ simulate_round 22 1 10%Q 0%Q 0%Q false blackjack_tie_world
       = Ret (payout, w')
    /\ payout = 0%Q
    /\ hands_pushed (stats w') = 0
    /\ hands_lost (stats w') = 1
    /\ total_regular_payout (stats w') = 0%Q.
Proof.
  do 5 eexists.
  split.
  { apply (Permutation_count_occ Card_eq_dec).
    intros [r s]; destruct r, s; vm_compute; reflexivity. }
  split; [vm_compute; reflexivity|].
  split; [vm_compute; reflexivity|].
  split; [repeat constructor|].
  split; [vm_compute; reflexivity|].
  repeat split.
Qed.

Lemma deal_never_fails_witness :
  exists c w', deal (stacked_world []) = Ret (c, w').
Proof.
  destruct (deal_never_fails (stacked_world [])) as (c & rest & g' & H & _).
  - vm_compute. discriminate.
  - eexists _, _. exact H.
Defined.

Lemma dealer_play_rule_witness :
  let h := hand_of [mkCard RJ HEARTS; mkCard R7 CLUBS] in
  play_dealer_hand 18 h (stacked_world []) = Ret (h, stacked_world []).
Proof.
  intros h.
  apply (proj1 (proj2 (proj2 (proj2 dealer_play_rule)))).
  reflexivity.
Defined.

(** A soft 16 that draws a nine is a hard 15. *)
Lemma dealt_card_can_lower_value :
  ~ (forall (h : Hand Q) (c : Card), value (add_card h c) >= value h + 1).
Proof.
  intros H.
  specialize (H (hand_of [mkCard RA HEARTS; mkCard R5 SPADES])
                (mkCard R9 CLUBS)).
  vm_compute in H. apply H. reflexivity.
Qed.

Lemma draw_loops_terminate_witness :
  halts (play_hand 22 (hand_of [mkCard RA HEARTS; mkCard R5 SPADES])
           (mkCard R9 CLUBS) false false) (stacked_world [])
  /\ halts (play_dealer_hand 18
              (hand_of [mkCard RA HEARTS; mkCard R5 SPADES]))
       (stacked_world []).
Proof.
  split.
  - apply (proj1 (proj2 draw_loops_terminate)). lia.
  - apply (proj1 (proj2 (proj2 draw_loops_terminate))). lia.
Defined.

Lemma round_counters_witness :
  exists payout w',
    simulate_round 22 2 10%Q 2%Q 0%Q true (stacked_world []) = Ret (payout, w')
    /\ hands_played (stats w') = 2
    /\ counters_balanced (stats w').
Proof.
  destruct (proj1 (proj2 (proj2 round_counters)) 22%nat 2 10%Q 2%Q 0%Q true
              (stacked_world []))
    as (payout & w' & hs & d & w1 & sb & w2 & hs' & d' & w3 & os & Hrun
        & _ & _ & _ & _ & _ & _ & Hp & _ & _ & _ & _ & _ & Hbal & _).
  - lia.
  - vm_compute. discriminate.
  - lia.
  - exists payout, w'. split; [exact Hrun|]. split; [exact Hp|].
    apply Hbal. reflexivity.
Defined.

(** ** Concrete runs of the further properties *)

Lemma value_order_irrelevant_witness :
  value (hand_of [mkCard RA HEARTS; mkCard R5 CLUBS])
  = value (hand_of [mkCard R5 CLUBS; mkCard RA HEARTS]).
Proof.
  apply (value_order_irrelevant
           (hand_of [mkCard RA HEARTS; mkCard R5 CLUBS])
           (hand_of [mkCard R5 CLUBS; mkCard RA HEARTS])).
  apply perm_swap.
Defined.

Lemma soft_hand_value_witness :
  let h := hand_of [mkCard RA HEARTS; mkCard R6 CLUBS] in
  value h = hard_total h + 10.
Proof.
  intros h. apply (proj1 (soft_hand_value h)). reflexivity.
Defined.

Lemma draw_effect_witness :
  is_bust (add_card (hand_of [mkCard RA HEARTS; mkCard R9 CLUBS])
             (mkCard RK SPADES)) = false.
Proof.
  apply (proj1 (proj2 (draw_effect
           (hand_of [mkCard RA HEARTS; mkCard R9 CLUBS]) (mkCard RK SPADES)))).
  reflexivity.
Defined.

Lemma short_hand_not_bust_witness :
  is_bust (hand_of [mkCard RA HEARTS; mkCard RA CLUBS]) = false.
Proof.
  apply (short_hand_not_bust (hand_of [mkCard RA HEARTS; mkCard RA CLUBS])).
  cbn. lia.
Defined.

Lemma natural_21_iff_witness :
  natural_21 (hand_of [mkCard RQ HEARTS; mkCard RA CLUBS]) = true.
Proof.
  apply (proj2 (natural_21_iff
                  (hand_of [mkCard RQ HEARTS; mkCard RA CLUBS]))).
  exists (mkCard RQ HEARTS), (mkCard RA CLUBS).
  split; [reflexivity|]. right. cbn. tauto.
Defined.

Lemma deal_cards_remaining_witness :
  exists c w',
    deal (stacked_world []) = Ret (c, w')
    /\ Z.of_nat (cards_remaining (shoe w')) = 383.
Proof.
  destruct (deal (stacked_world [])) as [[c w']| |] eqn:E;
    [|vm_compute in E; discriminate|vm_compute in E; discriminate].
  exists c, w'. split; [reflexivity|].
  rewrite (proj1 (deal_cards_remaining _ _ _ E)). reflexivity.
Defined.

Lemma deal_index_error_witness :
  deal (mkWorld (mkShoe 0 []) (initial_stats (M:=Q)) tt) = IndexError.
Proof.
  apply (proj2 (deal_index_error _)). cbn. split; lia.
Defined.

Lemma match_payout_positive_witness :
  calculate_match_payout
    (evaluate_match [mkCard R7 CLUBS; mkCard RK HEARTS] (mkCard R7 HEARTS))
  > 0.
Proof.
  apply (proj2 (proj2 (match_payout_positive
                         [mkCard R7 CLUBS; mkCard RK HEARTS]
                         (mkCard R7 HEARTS)))).
  - cbn. lia.
  - exists (mkCard R7 CLUBS). split; [left; reflexivity|reflexivity].
Defined.

Lemma winner_without_dealer_witness :
  let ph := hand_of [mkCard RK HEARTS; mkCard R6 CLUBS; mkCard R5 SPADES] in
  determine_winner ph (hand_of [mkCard RK CLUBS; mkCard RA CLUBS])
    (initial_stats (M:=Q))
  = determine_winner ph (hand_of [mkCard R2 CLUBS; mkCard R3 CLUBS])
      initial_stats.
Proof.
  intros ph. apply (proj1 (winner_without_dealer ph _ _ _)).
  right. right. reflexivity.
Defined.

Lemma play_hand_result_witness :
  exists h' w' cs,
    play_hand 22 (hand_of [mkCard R9 HEARTS; mkCard R7 CLUBS])
      (mkCard RK SPADES) false false (stacked_world [mkCard RK DIAMONDS])
    = Ret (h', w')
    /\ cards h' = [mkCard R9 HEARTS; mkCard R7 CLUBS] ++ cs
    /\ (cs <> [] -> value h' <= 26).
Proof.
  destruct (play_hand 22 (hand_of [mkCard R9 HEARTS; mkCard R7 CLUBS])
              (mkCard RK SPADES) false false
              (stacked_world [mkCard RK DIAMONDS])) as [[h' w']| |] eqn:E;
    [|vm_compute in E; discriminate|vm_compute in E; discriminate].
  destruct (play_hand_result _ _ _ _ _ _ _ _ E)
    as (cs & _ & Hc & _ & _ & _ & Hb & _).
  exists h', w', cs. split; [reflexivity|]. split; assumption.
Defined.

Lemma dealer_final_total_witness :
  exists h' w',
    play_dealer_hand 18 (hand_of [mkCard RA HEARTS; mkCard R6 CLUBS])
      (stacked_world [mkCard RK DIAMONDS]) = Ret (h', w')
    /\ 17 <= value h'.
Proof.
  destruct (play_dealer_hand 18 (hand_of [mkCard RA HEARTS; mkCard R6 CLUBS])
              (stacked_world [mkCard RK DIAMONDS])) as [[h' w']| |] eqn:E;
    [|vm_compute in E; discriminate|vm_compute in E; discriminate].
  destruct (dealer_final_total _ _ _ _ _ E) as (cs & _ & _ & H17 & _).
  exists h', w'. split; [reflexivity|assumption].
Defined.

Lemma initial_deal_order_witness :
  exists hs d w' up hole,
    initial_deal 2 10%Q (stacked_world []) = Ret ((hs, d), w')
    /\ d = mkHand [up; hole] 0%Q false false.
Proof.
  destruct (initial_deal 2 10%Q (stacked_world []))
    as [[[hs d] w']| |] eqn:E;
    [|vm_compute in E; discriminate|vm_compute in E; discriminate].
  destruct (initial_deal_order _ _ _ _ _ _ E)
    as (firsts & seconds & up & hole & _ & _ & _ & _ & Hd).
  exists hs, d, w', up, hole. split; [reflexivity|exact Hd].
Defined.

Lemma round_shoe_effect_witness :
  exists payout w',
    simulate_round 22 2 10%Q 2%Q 0%Q true (stacked_world []) = Ret (payout, w')
    /\ num_decks (shoe w') = 8.
Proof.
  destruct (simulate_round 22 2 10%Q 2%Q 0%Q true (stacked_world []))
    as [[payout w']| |] eqn:E;
    [|vm_compute in E; discriminate|vm_compute in E; discriminate].
  destruct (round_shoe_effect _ _ _ _ _ _ _ _ _ E) as (cs & _ & _ & Hn & _).
  exists payout, w'. split; [reflexivity|exact Hn].
Defined.

Lemma round_side_bet_hits_witness :
  exists payout w' kt,
    simulate_round 22 2 10%Q 2%Q 0%Q true (stacked_world []) = Ret (payout, w')
    /\ top_bets_hit (stats w') = Z.of_nat kt
    /\ match_total (top_matches (stats w')) = Z.of_nat kt.
Proof.
  destruct (simulate_round 22 2 10%Q 2%Q 0%Q true (stacked_world []))
    as [[payout w']| |] eqn:E;
    [|vm_compute in E; discriminate|vm_compute in E; discriminate].
  destruct (round_side_bet_hits _ _ _ _ _ _ _ _ _ E)
    as (kt & kb & _ & _ & Ht & Hm & _).
  exists payout, w', kt. split; [reflexivity|]. split; assumption.
Defined.

Lemma round_skips_zero_side_bet_witness :
  exists payout w',
    simulate_round 22 2 10%Q 2%Q 0%Q true (stacked_world []) = Ret (payout, w')
    /\ bottom_stats (stats w') = bottom_stats (initial_stats (M:=Q)).
Proof.
  destruct (simulate_round 22 2 10%Q 2%Q 0%Q true (stacked_world []))
    as [[payout w']| |] eqn:E;
    [|vm_compute in E; discriminate|vm_compute in E; discriminate].
  exists payout, w'. split; [reflexivity|].
  apply (proj2 (round_skips_zero_side_bet _ _ _ _ _ _ _ _ _ E)).
  reflexivity.
Defined.

Lemma round_regular_wager_witness :
  exists payout w',
    simulate_round 22 2 10%Q 2%Q 0%Q true (stacked_world []) = Ret (payout, w')
    /\ hands_played (stats w') = 2.
Proof.
  destruct (simulate_round 22 2 10%Q 2%Q 0%Q true (stacked_world []))
    as [[payout w']| |] eqn:E;
    [|vm_compute in E; discriminate|vm_compute in E; discriminate].
  exists payout, w'. split; [reflexivity|].
  exact (proj2 (round_regular_wager _ _ _ _ _ _ _ _ _ E)).
Defined.

Lemma round_without_hands_witness :
  exists w',
    simulate_round 22 0 10%Q 2%Q 2%Q true (stacked_world []) = Ret (0%Q, w')
    /\ cards_remaining (shoe w') = 382%nat.
Proof.
  rewrite (round_without_hands 22 0 10%Q 2%Q 2%Q true (stacked_world []));
    [|lia].
  eexists. split; [vm_compute; reflexivity|reflexivity].
Defined.

Lemma dealer_natural_round_witness :
  exists payout w',
    simulate_round 22 1 10%Q 0%Q 0%Q false blackjack_tie_world
    = Ret (payout, w')
    /\ hands_pushed (stats w') = 0.
Proof.
  destruct (simulate_round 22 1 10%Q 0%Q 0%Q false blackjack_tie_world)
    as [[payout w']| |] eqn:E;
    [|vm_compute in E; discriminate|vm_compute in E; discriminate].
  destruct (initial_deal 1 10%Q blackjack_tie_world)
    as [[[hs d] w1]| |] eqn:E1;
    [|vm_compute in E1; discriminate|vm_compute in E1; discriminate].
  assert (Hnat : natural_21 d = true).
  { vm_compute in E1. injection E1 as _ <- _. reflexivity. }
  exists payout, w'. split; [reflexivity|].
  exact (proj1 (proj2 (proj2 (proj2 (proj2
           (dealer_natural_round _ _ _ _ _ _ _ _ _ _ _ _ E E1 Hnat)))))).
Defined.

Lemma simulation_hands_played_witness :
  exists bankroll' rounds w',
    run_simulation 22 tt 100%Q 10%Q 0%Q 0%Q false 2 5
    = Some (Ret ((bankroll', rounds), w'))
    /\ hands_played (stats w') <= 5.
Proof.
  destruct (proj2 simulation_hands_played 22%nat tt 100%Q 10%Q 0%Q 0%Q
              false 2 5 ltac:(lia) ltac:(lia))
    as (b & r & w' & E & _ & _ & H & _).
  exists b, r, w'. split; [exact E|exact H].
Defined.

Lemma shoe_within_decks_witness :
  exists c w',
    deal (new_simulator (M:=Q) tt) = Ret (c, w') /\ within_decks (shoe w').
Proof.
  destruct (deal (new_simulator (M:=Q) tt)) as [[c w']| |] eqn:E;
    [|vm_compute in E; discriminate|vm_compute in E; discriminate].
  exists c, w'. split; [reflexivity|].
  exact (proj2 shoe_within_decks _ _ _ (proj1 shoe_within_decks tt) E).
Defined.
